(** * Login-attempt ledger, lockout policy and secure-login route

    A shallow embedding of the account-lockout subsystem:

    - the SQL migration (tables [login_attempts], [security_events] and the
      function [is_account_locked]);
    - [utils/auth-security.ts]   (module [AuthSecurity]);
    - [lib/security-monitoring.ts] (module [SecurityMonitoring]);
    - [app/api/auth/secure-login/route.ts] (module [SecureLogin]);
    - the rest of [utils/auth-security.ts] (module [LoginForensics]) and of
      [lib/security-monitoring.ts] (module [AuditLog]);
    - [app/api/auth/mfa/verify/route.ts] and
      [app/api/auth/mfa/enroll/route.ts] (module [Mfa]);
    - the rate limiter of [utils/security.ts] (module [RateLimit]).

    Asynchronous TypeScript functions become computations in a small
    state-and-exception monad over the two tables and the console.  One
    handler invocation is taken at a single clock reading [now]: the
    database's [NOW()] and JavaScript's [Date.now()] agree.  Timestamps are
    milliseconds since the epoch. *)

From Stdlib Require Import ZArith List Ascii String Bool Lia.
From Stdlib Require Import Sorted Permutation.
Import ListNotations.

Local Open Scope string_scope.
Local Open Scope list_scope.
Local Open Scope Z_scope.

(** ** Data model: the two tables *)

(** A row of [public.login_attempts] (the generated [id] column is never
    read by the code and is left out). *)
Record LoginAttempt : Type := mkLoginAttempt {
  la_email : string;
  la_ip_address : string;
  la_user_agent : string;
  la_successful : bool;
  la_attempted_at : Z
}.

Inductive SecurityEventType : Type :=
| LOGIN_SUCCESS
| LOGIN_FAILURE
| ACCOUNT_LOCKED
| PASSWORD_RESET
| PASSWORD_CHANGE
| MFA_ENABLED
| MFA_DISABLED
| SUSPICIOUS_ACTIVITY
| DATA_EXPORT
| DATA_DELETION
| PAYMENT_CHANGE
| SUBSCRIPTION_CREATED
| SUBSCRIPTION_CANCELLED
| API_KEY_CREATED
| API_KEY_REVOKED
| UNAUTHORIZED_ACCESS
| RATE_LIMIT_EXCEEDED.

(** The string value of each member of the TypeScript enum. *)
Definition event_type_value (t : SecurityEventType) : string :=
  match t with
  | LOGIN_SUCCESS => "login_success"
  | LOGIN_FAILURE => "login_failure"
  | ACCOUNT_LOCKED => "account_locked"
  | PASSWORD_RESET => "password_reset"
  | PASSWORD_CHANGE => "password_change"
  | MFA_ENABLED => "mfa_enabled"
  | MFA_DISABLED => "mfa_disabled"
  | SUSPICIOUS_ACTIVITY => "suspicious_activity"
  | DATA_EXPORT => "data_export"
  | DATA_DELETION => "data_deletion"
  | PAYMENT_CHANGE => "payment_change"
  | SUBSCRIPTION_CREATED => "subscription_created"
  | SUBSCRIPTION_CANCELLED => "subscription_cancelled"
  | API_KEY_CREATED => "api_key_created"
  | API_KEY_REVOKED => "api_key_revoked"
  | UNAUTHORIZED_ACCESS => "unauthorized_access"
  | RATE_LIMIT_EXCEEDED => "rate_limit_exceeded"
  end.

Definition SecurityEventType_eqb (a b : SecurityEventType) : bool :=
  String.eqb (event_type_value a) (event_type_value b).

(** [SecurityEventMetadata]: an open key-value payload. *)
Inductive MetaValue : Type :=
| MString (s : string)
| MBool (b : bool).

Definition SecurityEventMetadata : Type := list (string * MetaValue).

(** A row of [public.security_events]; [user_id] is nullable. *)
Record SecurityEvent : Type := mkSecurityEvent {
  se_user_id : option string;
  se_event_type : SecurityEventType;
  se_metadata : SecurityEventMetadata;
  se_ip_address : string;
  se_user_agent : string;
  se_created_at : Z
}.

(** The mutable world a handler runs against: both tables and the lines
    written to the console. *)
Record World : Type := mkWorld {
  login_attempts : list LoginAttempt;
  security_events : list SecurityEvent;
  console : list string
}.

(** ** The SQL function [public.is_account_locked] *)

Definition minutes (n : Z) : Z := n * 60 * 1000.

Definition count_rows {A : Type} (where_ : A -> bool) (tbl : list A) : Z :=
  Z.of_nat (List.length (filter where_ tbl)).

Definition is_account_locked
    (tbl : list LoginAttempt) (NOW : Z) (user_email user_ip : string) : bool :=
  let failed_attempts :=
    count_rows (fun r =>
      String.eqb (la_email r) user_email
      && String.eqb (la_ip_address r) user_ip
      && Bool.eqb (la_successful r) false
      && (NOW - minutes 15 <? la_attempted_at r)) tbl in
  5 <=? failed_attempts.

(** ** Asynchronous computations *)

(** How a promise settles. *)
Inductive Settled (A : Type) : Type :=
| Resolved (a : A)
| Rejected (e : string).
Arguments Resolved {A} a.
Arguments Rejected {A} e.

Definition Async (A : Type) : Type := World -> Settled A * World.

Definition ret {A : Type} (a : A) : Async A := fun w => (Resolved a, w).

Definition throw {A : Type} (e : string) : Async A := fun w => (Rejected e, w).

Definition bind {A B : Type} (m : Async A) (k : A -> Async B) : Async B :=
  fun w =>
    match m w with
    | (Resolved a, w') => k a w'
    | (Rejected e, w') => (Rejected e, w')
    end.

(** [try { body } catch (error) { handler }]. *)
Definition try_catch {A : Type} (body : Async A) (handler : string -> Async A)
  : Async A :=
  fun w =>
    match body w with
    | (Resolved a, w') => (Resolved a, w')
    | (Rejected e, w') => handler e w'
    end.

(** Lifting an already settled promise of a collaborator. *)
Definition await {A : Type} (p : Settled A) : Async A := fun w => (p, w).

Declare Scope async_scope.
Delimit Scope async_scope with async.
Notation "x <- m ;; k" := (bind m (fun x => k))
  (at level 61, m at next level, right associativity) : async_scope.
Notation "m ;;; k" := (bind m (fun _ => k))
  (at level 61, right associativity) : async_scope.
Local Open Scope async_scope.

Definition console_error (line : string) : Async unit :=
  fun w => (Resolved tt,
            mkWorld (login_attempts w) (security_events w) (console w ++ [line])).

Definition console_log (line : string) : Async unit := console_error line.

(** ** The database client

    Each request the code sends to the store either is carried out, comes
    back with [error] set, or makes the awaited promise reject.  The client
    the code uses settles its requests with an answer: a failure of the
    store or of the network comes back in [error], and no request is built
    with [throwOnError].  The rejecting outcome is kept so that what holds
    for every [store] also holds of a client that would reject. *)

Inductive StoreCall : Type :=
| RpcIsAccountLocked
| InsertLoginAttempt
| SelectLoginAttempts
| DeleteLoginAttempts
| InsertSecurityEvent
| SelectSecurityEvents.

Inductive Outcome : Type :=
| Fulfils
| ReturnsError
| Rejects.

(** The environment of one handler invocation. *)
Record Env : Type := mkEnv {
  now : Z;
  store : StoreCall -> Outcome
}.

(** The [{ data, error, count }] object a query resolves to. *)
Record PostgrestResponse (A : Type) : Type := mkResponse {
  data : option A;
  error : option string;
  count : option Z
}.
Arguments mkResponse {A} data error count.
Arguments data {A} p.
Arguments error {A} p.
Arguments count {A} p.

Definition store_error : string := "store error".

Section Client.
Variable env : Env.

(** Run a store request: [on_ok] is what the database does and answers
    when the request is carried out. *)
Definition request {A : Type} (call : StoreCall)
    (on_ok : World -> PostgrestResponse A * World)
  : Async (PostgrestResponse A) :=
  fun w =>
    match store env call with
    | Fulfils => let (r, w') := on_ok w in (Resolved r, w')
    | ReturnsError => (Resolved (mkResponse None (Some store_error) None), w)
    | Rejects => (Rejected store_error, w)
    end.

(** [supabaseAdmin.rpc('is_account_locked', { user_email, user_ip })] *)
Definition rpc_is_account_locked (user_email user_ip : string)
  : Async (PostgrestResponse bool) :=
  request RpcIsAccountLocked (fun w =>
    (mkResponse
       (Some (is_account_locked (login_attempts w) (now env) user_email user_ip))
       None None, w)).

(** [from('login_attempts').insert(row)] *)
Definition insert_login_attempt (row : LoginAttempt)
  : Async (PostgrestResponse unit) :=
  request InsertLoginAttempt (fun w =>
    (mkResponse None None None,
     mkWorld (login_attempts w ++ [row]) (security_events w) (console w))).

(** [from('login_attempts').select(columns, { count: 'exact', head })]
    followed by its filters.  With [head: true] the client sends a HEAD
    request: the answer carries the count and no rows ([data] is null). *)
Definition select_login_attempts (head count_exact : bool)
    (where_ : LoginAttempt -> bool)
  : Async (PostgrestResponse (list LoginAttempt)) :=
  request SelectLoginAttempts (fun w =>
    let rows := filter where_ (login_attempts w) in
    (mkResponse
       (if head then None else Some rows)
       None
       (if count_exact then Some (Z.of_nat (List.length rows)) else None), w)).

(** [from('login_attempts').delete()] followed by its filters. *)
Definition delete_login_attempts (where_ : LoginAttempt -> bool)
  : Async (PostgrestResponse unit) :=
  request DeleteLoginAttempts (fun w =>
    (mkResponse None None None,
     mkWorld (filter (fun r => negb (where_ r)) (login_attempts w))
             (security_events w) (console w))).

(** [from('security_events').insert(row)] *)
Definition insert_security_event (row : SecurityEvent)
  : Async (PostgrestResponse unit) :=
  request InsertSecurityEvent (fun w =>
    (mkResponse None None None,
     mkWorld (login_attempts w) (security_events w ++ [row]) (console w))).

(** [from('security_events').select(columns)] followed by its filters. *)
Definition select_security_events (where_ : SecurityEvent -> bool)
  : Async (PostgrestResponse (list SecurityEvent)) :=
  request SelectSecurityEvents (fun w =>
    (mkResponse (Some (filter where_ (security_events w))) None None, w)).
End Client.

(** ** [utils/auth-security.ts] *)

Module AuthSecurity.

Record AccountLockoutResult : Type := mkResult {
  locked : bool;
  message : option string;
  remainingAttempts : option Z
}.

Record LoginAttemptData : Type := mkData {
  email : string;
  ipAddress : string;
  userAgent : string;
  successful : bool
}.

Definition lockout_message : string :=
  "Account temporarily locked due to multiple failed login attempts. Please try again in 15 minutes.".

(** The filter chain [.eq('email', e).eq('ip_address', ip)
    .eq('successful', false).gte('attempted_at', since)]. *)
Definition failed_since (email ipAddress : string) (since : Z)
    (r : LoginAttempt) : bool :=
  String.eqb (la_email r) email
  && String.eqb (la_ip_address r) ipAddress
  && Bool.eqb (la_successful r) false
  && (since <=? la_attempted_at r).

(** [attempts?.length || 0] *)
Definition length_or_0 {A : Type} (rows : option (list A)) : Z :=
  match rows with
  | Some l => Z.of_nat (List.length l)
  | None => 0
  end.

Section WithEnv.
Variable env : Env.

Definition checkAccountLockout (email ipAddress : string)
  : Async AccountLockoutResult :=
  try_catch
    (r <- rpc_is_account_locked env email ipAddress ;;
     match error r with
     | Some _ =>
         console_error "Account lockout check error:" ;;;
         ret (mkResult false None None)
     | None =>
         match data r with
         | Some true => ret (mkResult true (Some lockout_message) None)
         | _ =>
             attempts <- select_login_attempts env false false
                           (failed_since email ipAddress (now env - 15 * 60 * 1000)) ;;
             let failedCount := length_or_0 (data attempts) in
             let remaining := Z.max 0 (5 - failedCount) in
             ret (mkResult false None (Some remaining))
         end
     end)
    (fun _ =>
       console_error "Account lockout check error:" ;;;
       ret (mkResult false None None)).

Definition logLoginAttempt (d : LoginAttemptData) : Async unit :=
  try_catch
    (_ <- insert_login_attempt env
            (mkLoginAttempt (email d) (ipAddress d) (userAgent d)
                            (successful d) (now env)) ;;
     ret tt)
    (fun _ => console_error "Failed to log login attempt:").

Definition clearFailedAttempts (email ipAddress : string) : Async unit :=
  try_catch
    (_ <- delete_login_attempts env (fun r =>
            String.eqb (la_email r) email
            && String.eqb (la_ip_address r) ipAddress
            && Bool.eqb (la_successful r) false) ;;
     ret tt)
    (fun _ => console_error "Failed to clear login attempts:").

(** [windowMinutes] defaults to 15 when the caller leaves it out. *)
Definition getFailedAttemptsCount (email ipAddress : string)
    (windowMinutes : option Z) : Async Z :=
  let windowMinutes := match windowMinutes with Some m => m | None => 15 end in
  try_catch
    (r <- select_login_attempts env true true
            (failed_since email ipAddress (now env - windowMinutes * 60 * 1000)) ;;
     match error r with
     | Some _ =>
         console_error "Failed to get attempts count:" ;;;
         ret 0
     | None => ret (length_or_0 (data r))
     end)
    (fun _ =>
       console_error "Failed to get attempts count:" ;;;
       ret 0).

(** [new Set(data.map(d => d.email)).size] *)
Definition unique_size (l : list string) : Z :=
  Z.of_nat (List.length (nodup string_dec l)).

Definition checkSuspiciousIP (ipAddress : string) : Async bool :=
  try_catch
    (r <- select_login_attempts env false false (fun row =>
            String.eqb (la_ip_address row) ipAddress
            && Bool.eqb (la_successful row) false
            && (now env - 60 * 60 * 1000 <=? la_attempted_at row)) ;;
     match data r with
     | None => ret false
     | Some rows =>
         let uniqueEmails := map la_email rows in
         ret (10 <? unique_size uniqueEmails)
     end)
    (fun _ =>
       console_error "Failed to check suspicious IP:" ;;;
       ret false).
End WithEnv.

End AuthSecurity.

(** ** [lib/security-monitoring.ts] *)

Module SecurityMonitoring.

Record Verdict : Type := mkVerdict {
  suspicious : bool;
  reason : option string
}.

Definition shouldAlert (eventType : SecurityEventType) : bool :=
  let criticalEvents :=
    [SUSPICIOUS_ACTIVITY; ACCOUNT_LOCKED; UNAUTHORIZED_ACCESS; DATA_DELETION] in
  existsb (SecurityEventType_eqb eventType) criticalEvents.

Definition alertSecurityTeam (userId : option string)
    (eventType : SecurityEventType) (metadata : SecurityEventMetadata)
  : Async unit :=
  console_error "SECURITY ALERT:".

(** [.eq('user_id', userId)]: a null [user_id] matches no subject. *)
Definition user_id_is (userId : string) (e : SecurityEvent) : bool :=
  match se_user_id e with
  | Some u => String.eqb u userId
  | None => false
  end.

Section WithEnv.
Variable env : Env.

Definition logSecurityEvent (userId : option string)
    (eventType : SecurityEventType) (metadata : SecurityEventMetadata)
    (ipAddress userAgent : string) : Async unit :=
  try_catch
    (_ <- insert_security_event env
            (mkSecurityEvent userId eventType metadata ipAddress userAgent
                             (now env)) ;;
     (if shouldAlert eventType
      then alertSecurityTeam userId eventType metadata
      else ret tt) ;;;
     console_log ("[SECURITY] " ++ event_type_value eventType)%string)
    (fun _ => console_error "Failed to log security event:").

Definition detectSuspiciousActivity (userId ipAddress : string)
  : Async Verdict :=
  failedLogins <- select_security_events env (fun e =>
                    user_id_is userId e
                    && SecurityEventType_eqb (se_event_type e) LOGIN_FAILURE
                    && (now env - 15 * 60 * 1000 <=? se_created_at e)) ;;
  let many_failures :=
    match data failedLogins with
    | Some rows => 5 <=? Z.of_nat (List.length rows)
    | None => false
    end in
  if many_failures
  then ret (mkVerdict true (Some "Multiple failed login attempts"))
  else
    recentEvents <- select_security_events env (fun e =>
                      user_id_is userId e
                      && (now env - 60 * 60 * 1000 <=? se_created_at e)) ;;
    let many_ips :=
      match data recentEvents with
      | Some rows =>
          let uniqueIps := map se_ip_address rows in
          3 <? AuthSecurity.unique_size uniqueIps
      | None => false
      end in
    if many_ips
    then ret (mkVerdict true (Some "Multiple IP addresses in short time"))
    else ret (mkVerdict false None).
End WithEnv.

End SecurityMonitoring.

(** ** [lib/api-middleware.ts]: request metadata *)

Module ApiMiddleware.

(** The headers and body of a request, as the login route reads them; the
    two body fields are strings or absent. *)
Record Credentials : Type := mkCredentials {
  email : option string;
  password : option string
}.

Record NextRequest : Type := mkRequest {
  x_forwarded_for : option string;
  x_real_ip : option string;
  user_agent : option string;
  json : Settled Credentials
}.

(** JavaScript truthiness of a string that may be null or undefined. *)
Definition truthy (s : option string) : bool :=
  match s with
  | Some s => negb (String.eqb s "")
  | None => false
  end.

(** [a || b] on such strings. *)
Definition or_else (a : option string) (b : string) : string :=
  match a with
  | Some s => if String.eqb s "" then b else s
  | None => b
  end.

(** [s.split(',')[0]] *)
Fixpoint first_of_split (s : string) : string :=
  match s with
  | EmptyString => EmptyString
  | String c rest =>
      if Ascii.eqb c ","%char then EmptyString else String c (first_of_split rest)
  end.

(** The characters [trim()] strips, among those a header value can hold (a
    header value is a string of code units below 256): the white space and
    line terminators TAB, LF, VT, FF, CR (9 to 13), SPACE (32) and the
    no-break space U+00A0 (160). *)
Definition is_space (c : Ascii.ascii) : bool :=
  let n := Ascii.nat_of_ascii c in
  (Nat.eqb n 32 || (Nat.leb 9 n && Nat.leb n 13) || Nat.eqb n 160)%bool.

Fixpoint trim_start (s : string) : string :=
  match s with
  | EmptyString => EmptyString
  | String c rest => if is_space c then trim_start rest else s
  end.

Definition reverse (s : string) : string :=
  string_of_list_ascii (rev (list_ascii_of_string s)).

(** [s.trim()]: the blanks of [is_space] removed at both ends. *)
Definition trim (s : string) : string :=
  reverse (trim_start (reverse (trim_start s))).

Definition getClientIp (req : NextRequest) : string :=
  or_else
    (option_map (fun h => trim (first_of_split h)) (x_forwarded_for req))
    (or_else (x_real_ip req) "unknown").

Definition getUserAgent (req : NextRequest) : string :=
  or_else (user_agent req) "unknown".

End ApiMiddleware.

(** ** [app/api/auth/secure-login/route.ts] *)

Module SecureLogin.
Import ApiMiddleware.

Record LockoutResult : Type := mkLockout {
  locked : bool;
  message : option string
}.

(** What the identity provider answers to [signInWithPassword]. *)
Record User : Type := mkUser {
  id : string;
  user_email : option string
}.

Record AuthTokenResponse : Type := mkAuth {
  user : option User;
  session : option string;
  auth_error : option string
}.

(** The JSON payload and status of a [NextResponse]. *)
Inductive Payload : Type :=
| ErrorPayload (error : option string) (retryAfter : option string)
| SuccessPayload (user : User) (session : option string).

Record NextResponse : Type := mkNextResponse {
  payload : Payload;
  status : Z
}.

(** The external collaborators of the route: the rate limiter
    ([ajAuth.protect(req)], read through [decision.isDenied()]) and the
    identity provider. *)
Record Services : Type := mkServices {
  protect_isDenied : NextRequest -> Settled bool;
  signInWithPassword : string -> string -> Settled AuthTokenResponse
}.

Definition lockout_message : string :=
  "Account temporarily locked due to multiple failed attempts. Try again in 15 minutes.".

Definition is_some {A : Type} (o : option A) : bool :=
  match o with
  | Some _ => true
  | None => false
  end.

Section WithEnv.
Variable env : Env.
Variable services : Services.

Definition checkAccountLockout (email ipAddress : string)
  : Async LockoutResult :=
  r <- rpc_is_account_locked env email ipAddress ;;
  match error r, data r with
  | Some _, _ => ret (mkLockout true (Some lockout_message))
  | None, Some true => ret (mkLockout true (Some lockout_message))
  | None, _ => ret (mkLockout false None)
  end.

Definition logLoginAttempt (email ipAddress : string) (successful : bool)
    (userAgent : string) : Async unit :=
  _ <- insert_login_attempt env
         (mkLoginAttempt email ipAddress userAgent successful (now env)) ;;
  ret tt.

Definition logSecurityEvent := SecurityMonitoring.logSecurityEvent env.

Definition POST (req : NextRequest) : Async NextResponse :=
  let ipAddress := getClientIp req in
  let userAgent := getUserAgent req in
  try_catch
    ((* 1. Rate limiting check *)
     denied <- await (protect_isDenied services req) ;;
     if denied : bool
     then ret (mkNextResponse
                 (ErrorPayload
                    (Some "Too many login attempts. Please try again later.")
                    (Some "5 minutes"))
                 429)
     else
     (* 2. Parse request body *)
     body <- await (json req) ;;
     match email body, password body with
     | Some email, Some password =>
         if (String.eqb email "" || String.eqb password "")%bool
         then ret (mkNextResponse
                     (ErrorPayload (Some "Email and password are required") None)
                     400)
         else
         (* 3. Check account lockout *)
         lockout <- checkAccountLockout email ipAddress ;;
         if locked lockout
         then
           logSecurityEvent None ACCOUNT_LOCKED
             [("email", MString email);
              ("reason", MString "Too many failed attempts")]
             ipAddress userAgent ;;;
           ret (mkNextResponse (ErrorPayload (message lockout) None) 429)
         else
         (* 4. Attempt login with the provider *)
         r <- await (signInWithPassword services email password) ;;
         (* 5. Log the attempt *)
         logLoginAttempt email ipAddress (negb (is_some (auth_error r)))
           userAgent ;;;
         match auth_error r with
         | Some reason =>
             (* 6. Handle login failure *)
             logSecurityEvent None LOGIN_FAILURE
               [("email", MString email); ("reason", MString reason)]
               ipAddress userAgent ;;;
             ret (mkNextResponse
                    (ErrorPayload (Some "Invalid email or password") None)
                    401)
         | None =>
             (* 7. Log successful login; [data.user!.id] throws on null *)
             match user r with
             | None => throw "TypeError"
             | Some u =>
                 logSecurityEvent (Some (id u)) LOGIN_SUCCESS
                   [("method", MString "password"); ("mfa_used", MBool false)]
                   ipAddress userAgent ;;;
                 ret (mkNextResponse (SuccessPayload u (session r)) 200)
             end
         end
     | _, _ =>
         ret (mkNextResponse
                (ErrorPayload (Some "Email and password are required") None)
                400)
     end)
    (fun _ =>
       console_error "Login error:" ;;;
       logSecurityEvent None LOGIN_FAILURE
         [("error", MString "Internal error during login")]
         ipAddress userAgent ;;;
       ret (mkNextResponse
              (ErrorPayload (Some "An error occurred during login") None)
              500)).
End WithEnv.

End SecureLogin.



(** ** Ordered and bounded queries

    [.order(column, { ascending: false })] sorts by the time stamp, newest
    first; rows with equal stamps come in an order the database chooses, and
    the model keeps them in table order.  [.limit(n)] keeps the first [n]
    rows of the result. *)

Fixpoint insert_newest_first {A : Type} (stamp : A -> Z) (x : A) (l : list A)
  : list A :=
  match l with
  | [] => [x]
  | y :: rest =>
      if stamp y <=? stamp x
      then x :: l
      else y :: insert_newest_first stamp x rest
  end.

Definition newest_first {A : Type} (stamp : A -> Z) (l : list A) : list A :=
  fold_right (insert_newest_first stamp) [] l.

Section OrderedQueries.
Variable env : Env.

(** [from('login_attempts').select('*')], its filters,
    [.order('attempted_at', { ascending: false }).limit(limit)] *)
Definition select_login_attempts_newest (where_ : LoginAttempt -> bool)
    (limit : nat) : Async (PostgrestResponse (list LoginAttempt)) :=
  request env SelectLoginAttempts (fun w =>
    (mkResponse
       (Some (firstn limit
                (newest_first la_attempted_at (filter where_ (login_attempts w)))))
       None None, w)).


(** [from('security_events').select(columns)], its filters and
    [.limit(limit)] with no order: some [limit] of the matching rows, in the
    model the first ones of the table. *)
Definition select_security_events_limit (where_ : SecurityEvent -> bool)
    (limit : nat) : Async (PostgrestResponse (list SecurityEvent)) :=
  request env SelectSecurityEvents (fun w =>
    (mkResponse (Some (firstn limit (filter where_ (security_events w))))
       None None, w)).
End OrderedQueries.

(** ** [utils/auth-security.ts], continued: history and login checks *)

Module LoginForensics.

Record SuspiciousLogin : Type := mkSuspiciousLogin {
  suspicious : bool;
  reasons : list string
}.

(** [reasons.length > 0] *)
Definition non_empty {A : Type} (l : list A) : bool :=
  match l with
  | [] => false
  | _ :: _ => true
  end.

Section WithEnv.
Variable env : Env.

(** [limit] defaults to 10 when the caller leaves it out. *)
Definition getLoginHistory (email : string) (limit : option nat)
  : Async (list LoginAttempt) :=
  let limit := match limit with Some n => n | None => 10%nat end in
  try_catch
    (r <- select_login_attempts_newest env
            (fun row => String.eqb (la_email row) email) limit ;;
     match error r with
     | Some _ =>
         console_error "Failed to get login history:" ;;;
         ret []
     | None =>
         ret (match data r with Some rows => rows | None => [] end)
     end)
    (fun _ =>
       console_error "Failed to get login history:" ;;;
       ret []).

Definition checkSuspiciousLogin (userId ipAddress userAgent : string)
  : Async SuspiciousLogin :=
  try_catch
    ((* Check 1: new IP address *)
     recentLogins <- select_security_events_limit env (fun e =>
                       SecurityMonitoring.user_id_is userId e
                       && SecurityEventType_eqb (se_event_type e) LOGIN_SUCCESS
                       && (now env - 7 * 24 * 60 * 60 * 1000 <=? se_created_at e))
                       20 ;;
     let reasons1 :=
       match data recentLogins with
       | Some rows =>
           let knownIPs := map se_ip_address rows in
           if negb (existsb (String.eqb ipAddress) knownIPs)
              && (0 <? AuthSecurity.unique_size knownIPs)
           then ["Login from new IP address"]
           else []
       | None => []
       end in
     (* Check 2: multiple IPs in short time *)
     recentEvents <- select_security_events env (fun e =>
                       SecurityMonitoring.user_id_is userId e
                       && (now env - 60 * 60 * 1000 <=? se_created_at e)) ;;
     let reasons2 :=
       reasons1 ++
       match data recentEvents with
       | Some rows =>
           let uniqueIPs := map se_ip_address rows in
           if 3 <? AuthSecurity.unique_size uniqueIPs
           then ["Multiple IP addresses in short time"]
           else []
       | None => []
       end in
     (* Check 3: suspicious IP *)
     suspiciousIP <- AuthSecurity.checkSuspiciousIP env ipAddress ;;
     let reasons3 :=
       reasons2 ++
       (if suspiciousIP : bool
        then ["IP address has suspicious activity"]
        else []) in
     ret (mkSuspiciousLogin (non_empty reasons3) reasons3))
    (fun _ =>
       console_error "Failed to check suspicious login:" ;;;
       ret (mkSuspiciousLogin false [])).
End WithEnv.

End LoginForensics.

(** ** [lib/security-monitoring.ts], continued: the audit log *)

Module AuditLog.

Section WithEnv.
Variable env : Env.

End WithEnv.

End AuditLog.

(** ** [lib/api-middleware.ts], continued *)

Definition isLocalhost (req : ApiMiddleware.NextRequest) : bool :=
  let ip := ApiMiddleware.getClientIp req in
  String.eqb ip "127.0.0.1" || String.eqb ip "::1" || String.eqb ip "localhost".

(** ** [app/api/auth/mfa/verify/route.ts] and [app/api/auth/mfa/enroll/route.ts] *)

Module Mfa.
Import ApiMiddleware.

(** The body of a verification request, as the route destructures it. *)
Record VerifyBody : Type := mkVerifyBody {
  factorId : option string;
  code : option string
}.

(** What the identity provider answers. *)
Record UserResponse : Type := mkUserResponse {
  user : option SecureLogin.User;
  userError : option string
}.

Record ChallengeResponse : Type := mkChallenge {
  challengeData : option string;      (* [challengeData.id] *)
  challengeError : option string
}.

Record Tokens : Type := mkTokens {
  access_token : option string;
  refresh_token : option string
}.

Record VerifyResponse : Type := mkVerify {
  verifyData : option Tokens;
  verifyError : option string
}.

Record Totp : Type := mkTotp {
  qr_code : option string;
  secret : option string
}.

Record Factor : Type := mkFactor {
  factor_id : string;
  totp : option Totp
}.

Record EnrollResponse : Type := mkEnroll {
  enrollData : option Factor;
  enrollError : option string
}.

(** The deployment and the identity provider: what [createClient] throws for
    the deployment's URL and key, if it throws (it does when one of them is
    missing), and the provider's answers to a client that holds a session. *)
Record Services : Type := mkServices {
  createClient_error : option string;
  getUser : Settled UserResponse;
  challenge : string -> Settled ChallengeResponse;
  verify : string -> string -> string -> Settled VerifyResponse;
  enroll : Settled EnrollResponse
}.

(** A client of the identity provider: the session it holds, if any, and the
    provider behind it. *)
Record SupabaseClient : Type := mkClient {
  client_session : option string;
  provider : Services
}.

(** [createClient(NEXT_PUBLIC_SUPABASE_URL, NEXT_PUBLIC_SUPABASE_ANON_KEY)],
    as both handlers call it: the new client is given the URL and the
    anonymous key only, no cookie, header or token of the request, so it
    holds no session. *)
Definition createClient (services : Services) : Settled SupabaseClient :=
  match createClient_error services with
  | Some e => Rejected e
  | None => Resolved (mkClient None services)
  end.

(** [supabase.auth.getUser()]: a client without a session answers
    [{ data: { user: null }, error }] without asking the provider. *)
Definition auth_getUser (supabase : SupabaseClient) : Settled UserResponse :=
  match client_session supabase with
  | None => Resolved (mkUserResponse None (Some "Auth session missing!"))
  | Some _ => getUser (provider supabase)
  end.

Inductive Payload : Type :=
| ErrorPayload (error : string)
| VerifiedPayload (message : string) (access refresh : option string)
| EnrolledPayload (factor : string) (qr secret : option string) (message : string).

Record NextResponse : Type := mkNextResponse {
  payload : Payload;
  status : Z
}.

Section WithEnv.
Variable env : Env.
Variable services : Services.

Definition logSecurityEvent := SecurityMonitoring.logSecurityEvent env.

(** [POST] of the verification route; [body] is what [req.json()] settles to. *)
Definition verify_POST (req : NextRequest) (body : Settled VerifyBody)
  : Async NextResponse :=
  let ipAddress := getClientIp req in
  let userAgent := getUserAgent req in
  try_catch
    (b <- await body ;;
     if negb (truthy (factorId b)) || negb (truthy (code b))
     then ret (mkNextResponse
                 (ErrorPayload "Factor ID and verification code are required") 400)
     else
     let factorId := or_else (factorId b) "" in
     let code := or_else (code b) "" in
     (* Create Supabase client *)
     supabase <- await (createClient services) ;;
     (* Get current user *)
     u <- await (auth_getUser supabase) ;;
     match userError u, user u with
     | None, Some user =>
         (* Create challenge *)
         c <- await (challenge (provider supabase) factorId) ;;
         match challengeError c with
         | Some _ =>
             console_error "MFA challenge error:" ;;;
             ret (mkNextResponse (ErrorPayload "Failed to create MFA challenge") 500)
         | None =>
             match challengeData c with
             | None => throw "TypeError"
             | Some challengeId =>
                 (* Verify code *)
                 v <- await (verify (provider supabase) factorId challengeId code) ;;
                 match verifyError v with
                 | Some _ =>
                     logSecurityEvent (Some (SecureLogin.id user)) LOGIN_FAILURE
                       [("reason", MString "Invalid MFA code");
                        ("factor_id", MString factorId)]
                       ipAddress userAgent ;;;
                     ret (mkNextResponse (ErrorPayload "Invalid verification code") 401)
                 | None =>
                     (* Log successful MFA verification *)
                     logSecurityEvent (Some (SecureLogin.id user)) LOGIN_SUCCESS
                       [("method", MString "mfa"); ("mfa_used", MBool true);
                        ("factor_id", MString factorId)]
                       ipAddress userAgent ;;;
                     match verifyData v with
                     | None => throw "TypeError"
                     | Some tokens =>
                         ret (mkNextResponse
                                (VerifiedPayload "MFA verified successfully"
                                   (access_token tokens) (refresh_token tokens))
                                200)
                     end
                 end
             end
         end
     | _, _ => ret (mkNextResponse (ErrorPayload "Unauthorized") 401)
     end)
    (fun _ =>
       console_error "MFA verification error:" ;;;
       ret (mkNextResponse
              (ErrorPayload "An error occurred during MFA verification") 500)).

End WithEnv.

End Mfa.

(** ** [utils/security.ts]: the in-memory rate limiter

    [rateLimitMap] is a JavaScript [Map]: keys are unique and keep their
    insertion order.  Counts and times are whole numbers. *)

Module RateLimit.

Record Entry : Type := mkEntry {
  count : Z;
  resetAt : Z
}.

Definition RateLimitMap : Type := list (string * Entry).

(** [map.get(key)] *)
Fixpoint get (key : string) (m : RateLimitMap) : option Entry :=
  match m with
  | [] => None
  | (k, v) :: rest => if String.eqb k key then Some v else get key rest
  end.

(** [map.set(key, value)]: replaces the value of a present key in place,
    appends a new key at the end. *)
Fixpoint set (key : string) (value : Entry) (m : RateLimitMap) : RateLimitMap :=
  match m with
  | [] => [(key, value)]
  | (k, v) :: rest =>
      if String.eqb k key then (k, value) :: rest else (k, v) :: set key value rest
  end.

(** [map.delete(key)] *)
Fixpoint delete (key : string) (m : RateLimitMap) : RateLimitMap :=
  match m with
  | [] => []
  | (k, v) :: rest =>
      if String.eqb k key then rest else (k, v) :: delete key rest
  end.

Record Decision : Type := mkDecision {
  allowed : bool;
  remaining : Z
}.

(** [checkRateLimit] at clock reading [now], on the map [m]: the decision
    and the map it leaves. *)
Definition checkRateLimit (now : Z) (identifier : string)
    (maxRequests windowMs : Z) (m : RateLimitMap) : Decision * RateLimitMap :=
  let start_window :=
    (mkDecision true (maxRequests - 1),
     set identifier (mkEntry 1 (now + windowMs)) m) in
  match get identifier m with
  | None => start_window
  | Some record =>
      if now >? resetAt record then start_window
      else if count record >=? maxRequests then (mkDecision false 0, m)
      else
        let record' := mkEntry (count record + 1) (resetAt record) in
        (mkDecision true (maxRequests - count record'),
         set identifier record' m)
  end.

(** The callback of [setInterval]: walk the entries and delete the expired
    ones. *)
Definition cleanup (now : Z) (m : RateLimitMap) : RateLimitMap :=
  fold_left (fun acc entry =>
               if now >? resetAt (snd entry) then delete (fst entry) acc else acc)
            m m.

End RateLimit.
(** * Properties *)

(** ** The ledger seen from the specification *)

(** A failed attempt of the pair [(identity, originIp)]. *)
Definition failure_of_pair (identity originIp : string) (r : LoginAttempt) : Prop :=
  la_email r = identity /\ la_ip_address r = originIp /\ la_successful r = false.

Definition failure_of_pairb (identity originIp : string) (r : LoginAttempt) : bool :=
  String.eqb (la_email r) identity
  && String.eqb (la_ip_address r) originIp
  && negb (la_successful r).

(** The trailing window of [width] at time [t]: later than [t - width], not
    later than [t]. *)
Definition in_trailing_window (t width stamp : Z) : bool :=
  (t - width <? stamp) && (stamp <=? t).

(** The closed window [[windowStart, t]] of [countFailures]. *)
Definition in_closed_window (windowStart t stamp : Z) : bool :=
  (windowStart <=? stamp) && (stamp <=? t).

Definition WINDOW : Z := minutes 15.
Definition MAX_FAILURES : Z := 5.

(** Failures of the pair within the trailing lockout window. *)
Definition recent_failures (tbl : list LoginAttempt) (t : Z)
    (identity originIp : string) : Z :=
  count_rows (fun r => failure_of_pairb identity originIp r
                       && in_trailing_window t WINDOW (la_attempted_at r)) tbl.

(** Failures of the pair within [[windowStart, t]]. *)
Definition failures_between (tbl : list LoginAttempt) (windowStart t : Z)
    (identity originIp : string) : Z :=
  count_rows (fun r => failure_of_pairb identity originIp r
                       && in_closed_window windowStart t (la_attempted_at r)) tbl.

(** Rows are stamped with the clock when they are written, so no row of the
    ledger is later than the current reading. *)
Definition stamped_by (t : Z) (tbl : list LoginAttempt) : Prop :=
  Forall (fun r => la_attempted_at r <= t) tbl.

(** ** Counting rows, stated without a query

    [Selection rows tbl]: [rows] are rows of [tbl], taken at different places
    in the order of the table. *)
Inductive Selection {A : Type} : list A -> list A -> Prop :=
| Selection_nil : Selection [] []
| Selection_skip (x : A) (rows tbl : list A) :
    Selection rows tbl -> Selection rows (x :: tbl)
| Selection_take (x : A) (rows tbl : list A) :
    Selection rows tbl -> Selection (x :: rows) (x :: tbl).

(** The table holds at least [n] rows that satisfy [P]. *)
Definition at_least {A : Type} (n : nat) (P : A -> Prop) (tbl : list A) : Prop :=
  exists rows : list A,
    Selection rows tbl /\ List.length rows = n /\ Forall P rows.

(** A failed attempt of the pair stamped within [[start, t]], both ends
    included: the window of [countFailures]. *)
Definition failure_within (identity originIp : string) (start t : Z)
    (r : LoginAttempt) : Prop :=
  la_email r = identity /\ la_ip_address r = originIp /\ la_successful r = false
  /\ start <= la_attempted_at r <= t.

(** A failed attempt of the pair stamped later than [start] and not later
    than [t]. *)
Definition failure_after (identity originIp : string) (start t : Z)
    (r : LoginAttempt) : Prop :=
  la_email r = identity /\ la_ip_address r = originIp /\ la_successful r = false
  /\ start < la_attempted_at r <= t.

(** ** Rule C seen from the specification *)

(** The identities an origin IP failed to log in as during the trailing
    60 minutes, one entry per failed attempt. *)
Definition failed_identities (tbl : list LoginAttempt) (originIp : string)
    (t : Z) : list string :=
  map la_email
      (filter (fun r =>
                 String.eqb (la_ip_address r) originIp
                 && negb (la_successful r)
                 && in_closed_window (t - minutes 60) t (la_attempted_at r)) tbl).

(** ** The event trail seen from the specification *)

Definition event_of_subject (subject : string) (e : SecurityEvent) : Prop :=
  se_user_id e = Some subject.

Definition events_stamped_by (t : Z) (tbl : list SecurityEvent) : Prop :=
  Forall (fun e => se_created_at e <= t) tbl.

(** The subject's events of the trailing [width]: [[t - width, t]]. *)
Definition subject_events (tbl : list SecurityEvent) (subject : string)
    (t width : Z) : list SecurityEvent :=
  filter (fun e =>
            SecurityMonitoring.user_id_is subject e
            && in_closed_window (t - width) t (se_created_at e)) tbl.

(** Rule A counts the subject's LOGIN_FAILURE events of the last 15 minutes. *)
Definition login_failure_count (tbl : list SecurityEvent) (subject : string)
    (t : Z) : Z :=
  count_rows (fun e =>
                match se_event_type e with
                | LOGIN_FAILURE => true
                | _ => false
                end) (subject_events tbl subject t (minutes 15)).

(** A list of values spans more than [n] distinct ones. *)
Definition spans_more_than {A : Type} (n : nat) (values : list A) : Prop :=
  exists distinct : list A,
    NoDup distinct /\ incl distinct values /\ (n < List.length distinct)%nat.

(** A LOGIN_FAILURE event of the subject stamped within [[start, t]]. *)
Definition login_failure_of (subject : string) (start t : Z)
    (e : SecurityEvent) : Prop :=
  se_user_id e = Some subject
  /\ se_event_type e = LOGIN_FAILURE
  /\ start <= se_created_at e <= t.

(** The subject's events stamped within [[start, t]] come from more than [n]
    different addresses. *)
Definition addresses_exceed (n : nat) (tbl : list SecurityEvent)
    (subject : string) (start t : Z) : Prop :=
  exists ips : list string,
    NoDup ips /\ (n < List.length ips)%nat
    /\ forall ip, In ip ips ->
         exists e, In e tbl
                   /\ se_user_id e = Some subject
                   /\ start <= se_created_at e <= t
                   /\ se_ip_address e = ip.

(** ** The stages of the login route, as conditions on a request *)

(** The request passes the rate limiter and carries a non-empty e-mail and
    password, so the route goes on to the lockout check. *)
Definition reaches_lockout_check (services : SecureLogin.Services)
    (req : ApiMiddleware.NextRequest) (email password : string) : Prop :=
  SecureLogin.protect_isDenied services req = Resolved false
  /\ ApiMiddleware.json req
     = Resolved (ApiMiddleware.mkCredentials (Some email) (Some password))
  /\ email <> "" /\ password <> "".

(** What [logSecurityEvent] adds to [security_events]: the row when the
    insert is carried out, nothing otherwise. *)
Definition recorded_event (env : Env) (row : SecurityEvent) : list SecurityEvent :=
  match store env InsertSecurityEvent with
  | Fulfils => [row]
  | _ => []
  end.

Definition result_of {A : Type} (m : Async A) (w : World) : Settled A := fst (m w).

Definition world_after {A : Type} (m : Async A) (w : World) : World := snd (m w).

Definition status_of (s : Settled SecureLogin.NextResponse) : option Z :=
  match s with
  | Resolved resp => Some (SecureLogin.status resp)
  | Rejected _ => None
  end.

(** ** Scenarios used as concrete instances *)

Definition healthy_store : StoreCall -> Outcome := fun _ => Fulfils.

Definition t0 : Z := 1700000000000.

Definition healthy_env : Env := mkEnv t0 healthy_store.

(** A store whose lockout query comes back with an error. *)
Definition lockout_query_erroring : StoreCall -> Outcome :=
  fun call =>
    match call with
    | RpcIsAccountLocked => ReturnsError
    | _ => Fulfils
    end.

Definition empty_world : World := mkWorld [] [] [].

Definition failed_attempt (identity originIp : string) (stamp : Z) : LoginAttempt :=
  mkLoginAttempt identity originIp "Mozilla/5.0" false stamp.

Definition alice : string := "alice@example.com".

(** Five failures of [alice] from [1.2.3.4] within two minutes. *)
Definition five_failures : list LoginAttempt :=
  map (failed_attempt alice "1.2.3.4")
      [t0 - 110000; t0 - 90000; t0 - 60000; t0 - 30000; t0 - 1000].

Definition alice_locked_world : World := mkWorld five_failures [] [].

(** Four recent failures of [alice] from [1.2.3.4]. *)
Definition four_failures : list LoginAttempt :=
  map (failed_attempt alice "1.2.3.4")
      [t0 - 90000; t0 - 60000; t0 - 30000; t0 - 1000].

Definition alice_four_world : World := mkWorld four_failures [] [].

(** Three recent failures of [alice] from [1.2.3.4]. *)
Definition three_failures : list LoginAttempt :=
  map (failed_attempt alice "1.2.3.4") [t0 - 90000; t0 - 60000; t0 - 1000].

Definition alice_three_world : World := mkWorld three_failures [] [].

(** Eleven identities, each failing once from [5.5.5.5]. *)
Definition eleven_identities : list string :=
  ["a@example.com"; "b@example.com"; "c@example.com"; "d@example.com";
   "e@example.com"; "f@example.com"; "g@example.com"; "h@example.com";
   "i@example.com"; "j@example.com"; "k@example.com"].

Definition fan_out_world : World :=
  mkWorld (map (fun identity => failed_attempt identity "5.5.5.5" (t0 - 1000))
               eleven_identities) [] [].

(** Four events of one subject from four addresses, and five login failures
    of that subject. *)
Definition subject_event (subject originIp : string) (kind : SecurityEventType)
    (stamp : Z) : SecurityEvent :=
  mkSecurityEvent (Some subject) kind [] originIp "Mozilla/5.0" stamp.

Definition roaming_events : list SecurityEvent :=
  [subject_event "user-alice" "1.1.1.1" LOGIN_SUCCESS (t0 - 3000000);
   subject_event "user-alice" "2.2.2.2" PASSWORD_CHANGE (t0 - 2000000);
   subject_event "user-alice" "3.3.3.3" LOGIN_SUCCESS (t0 - 1000000);
   subject_event "user-alice" "4.4.4.4" DATA_EXPORT (t0 - 1000)].

Definition failing_events : list SecurityEvent :=
  map (subject_event "user-alice" "1.1.1.1" LOGIN_FAILURE)
      [t0 - 50000; t0 - 40000; t0 - 30000; t0 - 20000; t0 - 10000].

(** Five failures of [alice] from [1.2.3.4], the oldest stamped exactly 15
    minutes before [t0], among rows of other pairs. *)
Definition boundary_failures : list LoginAttempt :=
  failed_attempt alice "9.9.9.9" (t0 - 2000)
  :: map (failed_attempt alice "1.2.3.4")
         [t0 - 900000; t0 - 90000; t0 - 60000; t0 - 30000; t0 - 1000]
  ++ [failed_attempt "bob@example.com" "1.2.3.4" (t0 - 500)].

Definition boundary_world : World := mkWorld boundary_failures [] [].

(** The ledger of [five_failures] among rows of other pairs. *)
Definition crowded_world : World :=
  mkWorld (failed_attempt alice "9.9.9.9" (t0 - 2000)
           :: five_failures
           ++ [failed_attempt "bob@example.com" "1.2.3.4" (t0 - 500)]) [] [].

(** Four events of [user-bob] from two addresses, and two failures the login
    route recorded without a subject. *)
Definition events_of_others : list SecurityEvent :=
  [subject_event "user-bob" "6.6.6.6" LOGIN_FAILURE (t0 - 45000);
   subject_event "user-bob" "6.6.6.6" LOGIN_SUCCESS (t0 - 35000);
   subject_event "user-bob" "7.7.7.7" LOGIN_FAILURE (t0 - 25000);
   subject_event "user-bob" "7.7.7.7" DATA_EXPORT (t0 - 15000);
   mkSecurityEvent None LOGIN_FAILURE [] "8.8.8.8" "Mozilla/5.0" (t0 - 5000);
   mkSecurityEvent None LOGIN_FAILURE [] "9.9.9.9" "Mozilla/5.0" (t0 - 4000)].

(** The trail of several subjects: the five login failures of [user-alice],
    or her four events from four addresses, among the events of others. *)
Definition shared_trail : list SecurityEvent := failing_events ++ events_of_others.

Definition roaming_trail : list SecurityEvent := roaming_events ++ events_of_others.



(** ** A provider and requests for the scenarios *)

Definition alice_user : SecureLogin.User :=
  SecureLogin.mkUser "user-alice" (Some alice).

(** A rate limiter that lets every request through and a provider that
    accepts exactly the password ["correct horse"]. *)
Definition scenario_services : SecureLogin.Services :=
  SecureLogin.mkServices
    (fun _ => Resolved false)
    (fun _ password =>
       if String.eqb password "correct horse"
       then Resolved (SecureLogin.mkAuth (Some alice_user) (Some "session-token") None)
       else Resolved (SecureLogin.mkAuth None None (Some "Invalid login credentials"))).

Definition login_request (originIp email password : string)
  : ApiMiddleware.NextRequest :=
  ApiMiddleware.mkRequest (Some originIp) None (Some "Mozilla/5.0")
    (Resolved (ApiMiddleware.mkCredentials (Some email) (Some password))).

Definition alice_login (password : string) : Async SecureLogin.NextResponse :=
  SecureLogin.POST healthy_env scenario_services
    (login_request "1.2.3.4" alice password).

(** ** A sequence of requests over time *)

Definition post_at (t : Z) (originIp email password : string)
  : Async SecureLogin.NextResponse :=
  SecureLogin.POST (mkEnv t healthy_store) scenario_services
    (login_request originIp email password).

(** Five wrong passwords for [alice] from [1.2.3.4], twenty seconds apart. *)
Definition after_five_wrong_passwords : World :=
  fold_left (fun w t => world_after (post_at t "1.2.3.4" alice "wrong") w)
            [t0; t0 + 20000; t0 + 40000; t0 + 60000; t0 + 80000]
            empty_world.

(** ** The paths of the login route

    Every run of [POST] follows one of six paths; each is described by the
    condition that selects it, the response, and what it adds to the two
    tables. *)

Definition rate_limited_response : SecureLogin.NextResponse :=
  SecureLogin.mkNextResponse
    (SecureLogin.ErrorPayload
       (Some "Too many login attempts. Please try again later.")
       (Some "5 minutes")) 429.

Definition bad_request_response : SecureLogin.NextResponse :=
  SecureLogin.mkNextResponse
    (SecureLogin.ErrorPayload (Some "Email and password are required") None) 400.

Definition invalid_credentials_response : SecureLogin.NextResponse :=
  SecureLogin.mkNextResponse
    (SecureLogin.ErrorPayload (Some "Invalid email or password") None) 401.

Definition internal_error_response : SecureLogin.NextResponse :=
  SecureLogin.mkNextResponse
    (SecureLogin.ErrorPayload (Some "An error occurred during login") None) 500.


Definition route_event (env : Env) (req : ApiMiddleware.NextRequest)
    (subject : option string) (kind : SecurityEventType)
    (metadata : SecurityEventMetadata) : SecurityEvent :=
  mkSecurityEvent subject kind metadata (ApiMiddleware.getClientIp req)
    (ApiMiddleware.getUserAgent req) (now env).

Definition internal_error_event (env : Env) (req : ApiMiddleware.NextRequest)
  : SecurityEvent :=
  route_event env req None LOGIN_FAILURE
    [("error", MString "Internal error during login")].

Definition route_attempt (env : Env) (req : ApiMiddleware.NextRequest)
    (email : string) (successful : bool) : LoginAttempt :=
  mkLoginAttempt email (ApiMiddleware.getClientIp req)
    (ApiMiddleware.getUserAgent req) successful (now env).

(** What the route's [logLoginAttempt] adds to [login_attempts]. *)
Definition recorded_attempt (env : Env) (row : LoginAttempt) : list LoginAttempt :=
  match store env InsertLoginAttempt with
  | Fulfils => [row]
  | _ => []
  end.

(** The request passed the lockout check. *)
Definition passes_lockout_check (env : Env) (req : ApiMiddleware.NextRequest)
    (email : string) (w : World) : Prop :=
  exists lockout,
    SecureLogin.checkAccountLockout env email (ApiMiddleware.getClientIp req) w
    = (Resolved lockout, w)
    /\ SecureLogin.locked lockout = false.

(** The ways a run ends in the handler of the outer [try]/[catch], with the
    rows the ledger has gained by then. *)
Inductive InternalFailure (env : Env) (services : SecureLogin.Services)
    (req : ApiMiddleware.NextRequest) (w : World) : list LoginAttempt -> Prop :=
| LimiterRejected e :
    SecureLogin.protect_isDenied services req = Rejected e ->
    InternalFailure env services req w []
| BodyRejected e :
    SecureLogin.protect_isDenied services req = Resolved false ->
    ApiMiddleware.json req = Rejected e ->
    InternalFailure env services req w []
| LockoutRejected email password e :
    reaches_lockout_check services req email password ->
    SecureLogin.checkAccountLockout env email (ApiMiddleware.getClientIp req) w
    = (Rejected e, w) ->
    InternalFailure env services req w []
| ProviderRejected email password e :
    reaches_lockout_check services req email password ->
    passes_lockout_check env req email w ->
    SecureLogin.signInWithPassword services email password = Rejected e ->
    InternalFailure env services req w []
| LedgerRejected email password r :
    reaches_lockout_check services req email password ->
    passes_lockout_check env req email w ->
    SecureLogin.signInWithPassword services email password = Resolved r ->
    store env InsertLoginAttempt = Rejects ->
    InternalFailure env services req w []
| UserMissing email password r :
    reaches_lockout_check services req email password ->
    passes_lockout_check env req email w ->
    SecureLogin.signInWithPassword services email password = Resolved r ->
    SecureLogin.auth_error r = None ->
    SecureLogin.user r = None ->
    store env InsertLoginAttempt <> Rejects ->
    InternalFailure env services req w
      (recorded_attempt env (route_attempt env req email true)).

Inductive PostPath (env : Env) (services : SecureLogin.Services)
    (req : ApiMiddleware.NextRequest) (w : World)
  : SecureLogin.NextResponse -> World -> Prop :=
| RateLimited :
    SecureLogin.protect_isDenied services req = Resolved true ->
    PostPath env services req w rate_limited_response w
| BadRequest body :
    SecureLogin.protect_isDenied services req = Resolved false ->
    ApiMiddleware.json req = Resolved body ->
    ApiMiddleware.truthy (ApiMiddleware.email body)
    && ApiMiddleware.truthy (ApiMiddleware.password body) = false ->
    PostPath env services req w bad_request_response w
| Locked email password lockout w' :
    reaches_lockout_check services req email password ->
    SecureLogin.checkAccountLockout env email (ApiMiddleware.getClientIp req) w
    = (Resolved lockout, w) ->
    SecureLogin.locked lockout = true ->
    login_attempts w' = login_attempts w ->
    security_events w'
    = security_events w
      ++ recorded_event env
           (route_event env req None ACCOUNT_LOCKED
              [("email", MString email);
               ("reason", MString "Too many failed attempts")]) ->
    PostPath env services req w
      (SecureLogin.mkNextResponse
         (SecureLogin.ErrorPayload (SecureLogin.message lockout) None) 429) w'
| InvalidCredentials email password r reason w' :
    reaches_lockout_check services req email password ->
    passes_lockout_check env req email w ->
    SecureLogin.signInWithPassword services email password = Resolved r ->
    SecureLogin.auth_error r = Some reason ->
    store env InsertLoginAttempt <> Rejects ->
    login_attempts w'
    = login_attempts w ++ recorded_attempt env (route_attempt env req email false) ->
    security_events w'
    = security_events w
      ++ recorded_event env
           (route_event env req None LOGIN_FAILURE
              [("email", MString email); ("reason", MString reason)]) ->
    PostPath env services req w invalid_credentials_response w'
| LoggedIn email password r u w' :
    reaches_lockout_check services req email password ->
    passes_lockout_check env req email w ->
    SecureLogin.signInWithPassword services email password = Resolved r ->
    SecureLogin.auth_error r = None ->
    SecureLogin.user r = Some u ->
    store env InsertLoginAttempt <> Rejects ->
    login_attempts w'
    = login_attempts w ++ recorded_attempt env (route_attempt env req email true) ->
    security_events w'
    = security_events w
      ++ recorded_event env
           (route_event env req (Some (SecureLogin.id u)) LOGIN_SUCCESS
              [("method", MString "password"); ("mfa_used", MBool false)]) ->
    PostPath env services req w
      (SecureLogin.mkNextResponse
         (SecureLogin.SuccessPayload u (SecureLogin.session r)) 200) w'
| InternalError rows w' :
    InternalFailure env services req w rows ->
    login_attempts w' = login_attempts w ++ rows ->
    security_events w' = security_events w ++ recorded_event env (internal_error_event env req) ->
    PostPath env services req w internal_error_response w'.

(** Scenario pieces for the other paths of the route. *)

Definition denying_services : SecureLogin.Services :=
  SecureLogin.mkServices
    (fun _ => Resolved true)
    (SecureLogin.signInWithPassword scenario_services).

Definition unreachable_provider : SecureLogin.Services :=
  SecureLogin.mkServices
    (fun _ => Resolved false)
    (fun _ _ => Rejected "connect ETIMEDOUT 10.0.0.7:443").

Definition request_without_password : ApiMiddleware.NextRequest :=
  ApiMiddleware.mkRequest (Some "1.2.3.4") None (Some "Mozilla/5.0")
    (Resolved (ApiMiddleware.mkCredentials (Some alice) None)).

(** A store that answers nothing: every request rejects. *)
Definition unreachable_store : StoreCall -> Outcome := fun _ => Rejects.

(** A store whose row queries come back with an error while the lockout
    function is answered. *)
Definition select_erroring : StoreCall -> Outcome :=
  fun call =>
    match call with
    | SelectLoginAttempts => ReturnsError
    | _ => Fulfils
    end.

(** The rows [clearFailedAttempts] leaves: everything but the failures of the
    pair, in the order they had. *)
Definition without_failures_of (identity originIp : string)
    (tbl : list LoginAttempt) : list LoginAttempt :=
  filter (fun r => negb (failure_of_pairb identity originIp r)) tbl.

(** The event types [shouldAlert] treats as critical. *)
Definition critical (kind : SecurityEventType) : Prop :=
  kind = SUSPICIOUS_ACTIVITY \/ kind = ACCOUNT_LOCKED
  \/ kind = UNAUTHORIZED_ACCESS \/ kind = DATA_DELETION.

(** The console lines of one [logSecurityEvent] call that did not reject. *)
Definition event_log_lines (kind : SecurityEventType) : list string :=
  (if SecurityMonitoring.shouldAlert kind then ["SECURITY ALERT:"] else [])
  ++ [("[SECURITY] " ++ event_type_value kind)%string].

(** A store whose event insert comes back with an error, and one whose event
    insert rejects. *)
Definition event_insert_erroring : StoreCall -> Outcome :=
  fun call =>
    match call with
    | InsertSecurityEvent => ReturnsError
    | _ => Fulfils
    end.

Definition event_insert_rejecting : StoreCall -> Outcome :=
  fun call =>
    match call with
    | InsertSecurityEvent => Rejects
    | _ => Fulfils
    end.

(** Newest first: each row is at least as recent as the rows after it. *)
Definition at_least_as_recent {A : Type} (stamp : A -> Z) (newer older : A) : Prop :=
  stamp older <= stamp newer.

(** Every row left out is no more recent than any row returned. *)
Definition none_more_recent {A : Type} (stamp : A -> Z) (returned left_out : list A)
  : Prop :=
  Forall (fun old => Forall (fun r => stamp old <= stamp r) returned) left_out.

(** Attempts of [alice] and of someone else, in table order. *)
Definition mixed_history : list LoginAttempt :=
  [failed_attempt alice "1.2.3.4" (t0 - 5000);
   failed_attempt "bob@example.com" "1.2.3.4" (t0 - 4000);
   mkLoginAttempt alice "9.9.9.9" "Mozilla/5.0" true (t0 - 1000);
   failed_attempt alice "1.2.3.4" (t0 - 3000)].






(** ** Header values *)

(** A visible ASCII character other than the comma. *)
Definition token_char (c : ascii) : bool :=
  let n := nat_of_ascii c in
  Nat.leb 33 n && Nat.leb n 126 && negb (Ascii.eqb c ","%char).

(** A non-empty string of such characters, as an IP address is. *)
Definition plain_token (s : string) : Prop :=
  s <> "" /\ forallb token_char (list_ascii_of_string s) = true.

(** ** The MFA routes *)


(** A deployment whose client can be created, and a provider that would
    answer [alice] to a client holding her session and accept exactly the
    code 123456. *)
Definition mfa_services : Mfa.Services :=
  Mfa.mkServices
    None
    (Resolved (Mfa.mkUserResponse (Some alice_user) None))
    (fun _ => Resolved (Mfa.mkChallenge (Some "challenge-1") None))
    (fun _ _ code =>
       if String.eqb code "123456"
       then Resolved (Mfa.mkVerify
                        (Some (Mfa.mkTokens (Some "access") (Some "refresh"))) None)
       else Resolved (Mfa.mkVerify None (Some "Invalid TOTP code entered")))
    (Resolved (Mfa.mkEnroll
                 (Some (Mfa.mkFactor "factor-1"
                          (Some (Mfa.mkTotp (Some "qr") (Some "secret")))))
                 None)).

Definition mfa_request : ApiMiddleware.NextRequest :=
  ApiMiddleware.mkRequest (Some "1.2.3.4") None (Some "Mozilla/5.0")
    (Rejected "not read").

Definition mfa_body (code : string) : Settled Mfa.VerifyBody :=
  Resolved (Mfa.mkVerifyBody (Some "factor-1") (Some code)).

Definition unauthorized_response : Mfa.NextResponse :=
  Mfa.mkNextResponse (Mfa.ErrorPayload "Unauthorized") 401.

(** ** The rate limiter seen by its callers *)

(** The keys of a [Map] are unique. *)
Definition well_keyed (m : RateLimit.RateLimitMap) : Prop := NoDup (map fst m).

(** The entry of a key that still counts at time [t]: an entry whose window
    is over is as good as absent. *)
Definition live_entry (t : Z) (m : RateLimit.RateLimitMap) (key : string)
  : option RateLimit.Entry :=
  match RateLimit.get key m with
  | Some record => if t >? RateLimit.resetAt record then None else Some record
  | None => None
  end.

(** Two maps that agree on every entry still live at [t] or later. *)
Definition same_live_entries (t : Z) (m1 m2 : RateLimit.RateLimitMap) : Prop :=
  forall key t', t <= t' -> live_entry t' m1 key = live_entry t' m2 key.


(** Calls of [checkRateLimit] by several identifiers. *)
Fixpoint serve_all (maxRequests windowMs : Z) (calls : list (Z * string))
    (m : RateLimit.RateLimitMap) : list RateLimit.Decision * RateLimit.RateLimitMap :=
  match calls with
  | [] => ([], m)
  | (t, identifier) :: later =>
      let (d, m') := RateLimit.checkRateLimit t identifier maxRequests windowMs m in
      let (ds, m'') := serve_all maxRequests windowMs later m' in
      (d :: ds, m'')
  end.

(** A map with one window that is over and one that is running. *)
Definition two_clients : RateLimit.RateLimitMap :=
  [("10.0.0.1", RateLimit.mkEntry 5 (t0 - 1000));
   ("10.0.0.2", RateLimit.mkEntry 2 (t0 + 30000))].


Lemma failure_of_pairb_spec identity originIp r :
  failure_of_pairb identity originIp r = true <-> failure_of_pair identity originIp r.
Proof.
  unfold failure_of_pairb, failure_of_pair.
  rewrite !andb_true_iff, !String.eqb_eq, negb_true_iff. tauto.
Qed.

Lemma eqb_false_r (b : bool) : Bool.eqb b false = negb b.
Proof. now destruct b. Qed.

Lemma count_rows_ext_in {A : Type} (f g : A -> bool) (tbl : list A) :
  (forall r, In r tbl -> f r = g r) -> count_rows f tbl = count_rows g tbl.
Proof.
  intros H. unfold count_rows. now rewrite (filter_ext_in f g tbl H).
Qed.

Lemma count_rows_nonneg {A : Type} (f : A -> bool) (tbl : list A) :
  0 <= count_rows f tbl.
Proof. unfold count_rows. lia. Qed.

Lemma count_rows_app {A : Type} (f : A -> bool) (l1 l2 : list A) :
  count_rows f (l1 ++ l2) = count_rows f l1 + count_rows f l2.
Proof.
  unfold count_rows. rewrite filter_app, length_app. lia.
Qed.

Lemma count_rows_cons {A : Type} (f : A -> bool) (r : A) (l : list A) :
  count_rows f (r :: l) = (if f r then 1 else 0) + count_rows f l.
Proof.
  unfold count_rows. simpl. destruct (f r); simpl List.length; lia.
Qed.

Lemma count_rows_le {A : Type} (f g : A -> bool) (tbl : list A) :
  (forall r, In r tbl -> f r = true -> g r = true) ->
  count_rows f tbl <= count_rows g tbl.
Proof.
  induction tbl as [|r tbl IH]; intros H.
  - unfold count_rows. simpl. lia.
  - rewrite !count_rows_cons.
    assert (IH' : count_rows f tbl <= count_rows g tbl)
      by (apply IH; intros; apply H; [now right | assumption]).
    destruct (f r) eqn:Ef.
    + rewrite (H r (or_introl eq_refl) Ef). lia.
    + destruct (g r); lia.
Qed.

(** The count of the SQL function is the pair's failures in the trailing
    window. *)
Lemma sql_count_recent_failures tbl t identity originIp :
  stamped_by t tbl ->
  count_rows (fun r =>
      String.eqb (la_email r) identity
      && String.eqb (la_ip_address r) originIp
      && Bool.eqb (la_successful r) false
      && (t - minutes 15 <? la_attempted_at r)) tbl
  = recent_failures tbl t identity originIp.
Proof.
  intros Hst. unfold recent_failures. apply count_rows_ext_in.
  intros r Hin. unfold stamped_by in Hst. rewrite Forall_forall in Hst.
  specialize (Hst r Hin).
  unfold failure_of_pairb, in_trailing_window, WINDOW.
  rewrite eqb_false_r.
  replace (la_attempted_at r <=? t) with true by (symmetry; apply Z.leb_le; lia).
  now rewrite andb_true_r.
Qed.

Lemma is_account_locked_iff tbl t identity originIp :
  stamped_by t tbl ->
  is_account_locked tbl t identity originIp = true
  <-> MAX_FAILURES <= recent_failures tbl t identity originIp.
Proof.
  intros Hst. unfold is_account_locked.
  rewrite (sql_count_recent_failures _ _ _ _ Hst).
  unfold MAX_FAILURES. apply Z.leb_le.
Qed.

(** Rows that are not failures of the pair do not move the lockout. *)
Lemma is_account_locked_other_row tbl1 tbl2 row t identity originIp :
  ~ failure_of_pair identity originIp row ->
  is_account_locked (tbl1 ++ row :: tbl2) t identity originIp
  = is_account_locked (tbl1 ++ tbl2) t identity originIp.
Proof.
  intros Hn. unfold is_account_locked.
  rewrite !count_rows_app, count_rows_cons.
  rewrite eqb_false_r.
  destruct (failure_of_pairb identity originIp row) eqn:E.
  - apply failure_of_pairb_spec in E. contradiction.
  - unfold failure_of_pairb in E. rewrite E. reflexivity.
Qed.

(** ** Running the lockout check *)

Lemma util_checkAccountLockout_locked env w identity originIp :
  store env RpcIsAccountLocked = Fulfils ->
  exists r w',
    AuthSecurity.checkAccountLockout env identity originIp w = (Resolved r, w')
    /\ AuthSecurity.locked r
       = is_account_locked (login_attempts w) (now env) identity originIp.
Proof.
  intros Hrpc.
  unfold AuthSecurity.checkAccountLockout, try_catch, bind,
    rpc_is_account_locked, select_login_attempts, request.
  rewrite Hrpc. cbn [error data].
  destruct (is_account_locked (login_attempts w) (now env) identity originIp).
  - do 2 eexists. split; reflexivity.
  - destruct (store env SelectLoginAttempts); cbn; do 2 eexists; split; reflexivity.
Qed.

Lemma route_checkAccountLockout_locked env w identity originIp :
  store env RpcIsAccountLocked = Fulfils ->
  SecureLogin.checkAccountLockout env identity originIp w
  = (Resolved
       (if is_account_locked (login_attempts w) (now env) identity originIp
        then SecureLogin.mkLockout true (Some SecureLogin.lockout_message)
        else SecureLogin.mkLockout false None), w).
Proof.
  intros Hrpc.
  unfold SecureLogin.checkAccountLockout, bind, rpc_is_account_locked, request.
  rewrite Hrpc. cbn [error data].
  destruct (is_account_locked (login_attempts w) (now env) identity originIp);
    reflexivity.
Qed.

(** ** Counting by selection *)

Lemma Selection_nil_l {A : Type} (tbl : list A) : Selection [] tbl.
Proof. induction tbl; constructor; assumption. Qed.

(** [at_least] against the length of a filter, for a test that decides the
    condition. *)
Lemma at_least_filter {A : Type} (p : A -> bool) (P : A -> Prop) (n : nat)
      (tbl : list A) :
  (forall x, p x = true <-> P x) ->
  at_least n P tbl <-> (n <= List.length (filter p tbl))%nat.
Proof.
  intros Hp. split.
  - intros (rows & Hsel & <- & Hall).
    induction Hsel as [|x rows tbl Hsel IH|x rows tbl Hsel IH]; cbn.
    + lia.
    + specialize (IH Hall). destruct (p x); cbn; lia.
    + inversion Hall as [|? ? Hx Hrest]; subst. specialize (IH Hrest).
      apply Hp in Hx. rewrite Hx. cbn. lia.
  - revert n. induction tbl as [|x tbl IH]; intros n Hn; cbn in Hn.
    + assert (n = 0)%nat by lia. subst. exists []. repeat constructor.
    + destruct (p x) eqn:E.
      * destruct n as [|n].
        -- exists []. split; [apply Selection_nil_l|]. split; [reflexivity|constructor].
        -- cbn in Hn. destruct (IH n) as (rows & Hsel & Hlen & Hall); [lia|].
           exists (x :: rows). split; [now constructor|]. split; [cbn; lia|].
           constructor; [now apply Hp | exact Hall].
      * destruct (IH n Hn) as (rows & Hsel & Hlen & Hall).
        exists rows. split; [now constructor|]. split; assumption.
Qed.

Lemma recent_failures_at_least tbl t identity originIp :
  MAX_FAILURES <= recent_failures tbl t identity originIp
  <-> at_least 5 (failure_after identity originIp (t - 900000) t) tbl.
Proof.
  unfold recent_failures, count_rows, MAX_FAILURES.
  rewrite (at_least_filter
             (fun r => failure_of_pairb identity originIp r
                       && in_trailing_window t WINDOW (la_attempted_at r))
             (failure_after identity originIp (t - 900000) t)).
  - lia.
  - intros r. unfold failure_after, in_trailing_window, WINDOW, minutes.
    rewrite !andb_true_iff, failure_of_pairb_spec, Z.ltb_lt, Z.leb_le.
    unfold failure_of_pair. change (15 * 60 * 1000) with 900000. tauto.
Qed.

Lemma failures_between_at_least tbl start t identity originIp :
  5 <= failures_between tbl start t identity originIp
  <-> at_least 5 (failure_within identity originIp start t) tbl.
Proof.
  unfold failures_between, count_rows.
  rewrite (at_least_filter
             (fun r => failure_of_pairb identity originIp r
                       && in_closed_window start t (la_attempted_at r))
             (failure_within identity originIp start t)).
  - lia.
  - intros r. unfold failure_within, in_closed_window.
    rewrite !andb_true_iff, failure_of_pairb_spec, !Z.leb_le.
    unfold failure_of_pair. tauto.
Qed.

(** With the window closed at its start, [[now - 15 min, now]], the lockout
    rule does not hold.  The ledger holds five failures of the pair, the
    oldest stamped exactly 15 minutes before now, all within that window;
    the SQL function counts the rows stamped later than now - 15 min only,
    finds four, and neither [checkAccountLockout] reports the pair as locked
    (the utilities' one even reports no attempt left). *)
Lemma lockout_misses_failure_at_window_start :
  stamped_by (now healthy_env) (login_attempts boundary_world)
  /\ at_least 5
       (failure_within alice "1.2.3.4" (now healthy_env - 900000) (now healthy_env))
       (login_attempts boundary_world)
  /\ is_account_locked (login_attempts boundary_world) (now healthy_env)
       alice "1.2.3.4" = false
  /\ result_of (SecureLogin.checkAccountLockout healthy_env alice "1.2.3.4")
       boundary_world
     = Resolved (SecureLogin.mkLockout false None)
  /\ result_of (AuthSecurity.checkAccountLockout healthy_env alice "1.2.3.4")
       boundary_world
     = Resolved (AuthSecurity.mkResult false None (Some 0)).
Proof.
  split; [|split; [|split; [|split]]].
  - unfold stamped_by. cbn. repeat constructor; cbn; unfold t0; lia.
  - exists (map (failed_attempt alice "1.2.3.4")
              [t0 - 900000; t0 - 90000; t0 - 60000; t0 - 30000; t0 - 1000]).
    split; [|split].
    + unfold boundary_world, boundary_failures.
      cbn [login_attempts map app].
      apply Selection_skip. do 5 apply Selection_take.
      apply Selection_skip. apply Selection_nil.
    + reflexivity.
    + cbn [map]. repeat constructor; cbn; unfold t0; lia.
  - vm_compute. reflexivity.
  - vm_compute. reflexivity.
  - vm_compute. reflexivity.
Qed.

(** C1. For every pair (identity, originIp): the lockout evaluation, that is
    the SQL function [is_account_locked] and the [checkAccountLockout] of
    both the utilities and the route when the lockout query is answered,
    reports locked exactly when the ledger holds at least 5 failed attempts
    of exactly that pair stamped later than now - 15 min and not later than
    now; a row that carries another origin IP never changes the result. *)
Theorem lockout_iff_five_failures_after_window_start :
  forall (env : Env) (w : World) (identity originIp : string),
    stamped_by (now env) (login_attempts w) ->
    store env RpcIsAccountLocked = Fulfils ->
    let five_failures_in_window :=
      at_least 5 (failure_after identity originIp (now env - 900000) (now env))
        (login_attempts w) in
    (is_account_locked (login_attempts w) (now env) identity originIp = true
     <-> five_failures_in_window)
    /\ (exists r w',
          AuthSecurity.checkAccountLockout env identity originIp w = (Resolved r, w')
          /\ (AuthSecurity.locked r = true <-> five_failures_in_window))
    /\ (exists r w',
          SecureLogin.checkAccountLockout env identity originIp w = (Resolved r, w')
          /\ (SecureLogin.locked r = true <-> five_failures_in_window))
    /\ (forall tbl1 tbl2 row,
          la_ip_address row <> originIp ->
          is_account_locked (tbl1 ++ row :: tbl2) (now env) identity originIp
          = is_account_locked (tbl1 ++ tbl2) (now env) identity originIp).
Proof.
  intros env w identity originIp Hst Hrpc five_failures_in_window.
  assert (Hiff :
    is_account_locked (login_attempts w) (now env) identity originIp = true
    <-> five_failures_in_window).
  { unfold five_failures_in_window. rewrite <- recent_failures_at_least.
    now apply is_account_locked_iff. }
  split; [exact Hiff|]. split; [|split].
  - destruct (util_checkAccountLockout_locked env w identity originIp Hrpc)
      as (r & w' & Hrun & Hl).
    exists r, w'. split; [exact Hrun|]. rewrite Hl. exact Hiff.
  - rewrite (route_checkAccountLockout_locked env w identity originIp Hrpc).
    do 2 eexists. split; [reflexivity|]. rewrite <- Hiff.
    destruct (is_account_locked (login_attempts w) (now env) identity originIp);
      cbn; split; congruence.
  - intros tbl1 tbl2 row Hip. apply is_account_locked_other_row.
    unfold failure_of_pair. tauto.
Qed.

Lemma lockout_iff_five_failures_after_window_start_witness :
  at_least 5
    (failure_after alice "1.2.3.4" (now healthy_env - 900000) (now healthy_env))
    (login_attempts crowded_world)
  /\ ~ at_least 5
         (failure_after alice "9.9.9.9" (now healthy_env - 900000) (now healthy_env))
         (login_attempts crowded_world)
  /\ ~ at_least 5
         (failure_after alice "1.2.3.4" (now healthy_env - 900000) (now healthy_env))
         (login_attempts boundary_world).
Proof.
  assert (Hst : forall w, w = crowded_world \/ w = boundary_world ->
                          stamped_by (now healthy_env) (login_attempts w)).
  { intros w [-> | ->]; unfold stamped_by; cbn;
      repeat constructor; cbn; unfold t0; lia. }
  split; [|split].
  - apply (proj1 (lockout_iff_five_failures_after_window_start healthy_env
                    crowded_world alice "1.2.3.4"
                    (Hst _ (or_introl eq_refl)) eq_refl)).
    vm_compute. reflexivity.
  - intros H.
    apply (proj1 (lockout_iff_five_failures_after_window_start healthy_env
                    crowded_world alice "9.9.9.9"
                    (Hst _ (or_introl eq_refl)) eq_refl)) in H.
    vm_compute in H. discriminate.
  - intros H.
    apply (proj1 (lockout_iff_five_failures_after_window_start healthy_env
                    boundary_world alice "1.2.3.4"
                    (Hst _ (or_intror eq_refl)) eq_refl)) in H.
    vm_compute in H. discriminate.
Defined.

(** ** The event recorder never throws *)

Lemma logSecurityEvent_run env userId eventType metadata ipAddress userAgent w :
  exists w',
    SecurityMonitoring.logSecurityEvent env userId eventType metadata
      ipAddress userAgent w = (Resolved tt, w')
    /\ login_attempts w' = login_attempts w
    /\ security_events w'
       = security_events w
         ++ recorded_event env
              (mkSecurityEvent userId eventType metadata ipAddress userAgent
                               (now env)).
Proof.
  unfold SecurityMonitoring.logSecurityEvent, try_catch, bind,
    insert_security_event, request, recorded_event,
    SecurityMonitoring.alertSecurityTeam, console_log, console_error, ret.
  destruct (store env InsertSecurityEvent);
    destruct (SecurityMonitoring.shouldAlert eventType); cbn;
    eexists; (split; [reflexivity|]); cbn; rewrite ?app_nil_r; split; reflexivity.
Qed.

(** Run the [logSecurityEvent] call the goal is stopped at. *)
Ltac run_logSecurityEvent w' Hla :=
  unfold SecureLogin.logSecurityEvent;
  unfold bind, throw, console_error;
  match goal with
  | |- context [SecurityMonitoring.logSecurityEvent ?e ?u ?t ?m ?i ?a ?x] =>
      destruct (logSecurityEvent_run e u t m i a x) as (w' & -> & Hla & _)
  end.

(** Close a goal about a route that answered without touching the ledger. *)
Ltac answered_without_row :=
  do 2 eexists; split; [reflexivity | now left].

Lemma route_checkAccountLockout_pure env identity originIp w r w' :
  SecureLogin.checkAccountLockout env identity originIp w = (r, w') -> w' = w.
Proof.
  unfold SecureLogin.checkAccountLockout, bind, rpc_is_account_locked, request, ret.
  destruct (store env RpcIsAccountLocked); cbn [error data].
  - destruct (is_account_locked _ _ _ _); intros H; now inversion H.
  - intros H; now inversion H.
  - intros H; now inversion H.
Qed.

Lemma eqb_empty_false (s : string) : s <> "" -> String.eqb s "" = false.
Proof. intros H. now apply String.eqb_neq. Qed.

(** The route from the lockout check on, once the request is parsed. *)
Lemma POST_reaches_lockout_check env services req email password w :
  reaches_lockout_check services req email password ->
  SecureLogin.POST env services req w
  = try_catch
      (lockout <- SecureLogin.checkAccountLockout env email
                    (ApiMiddleware.getClientIp req) ;;
       if SecureLogin.locked lockout
       then
         SecureLogin.logSecurityEvent env None ACCOUNT_LOCKED
           [("email", MString email);
            ("reason", MString "Too many failed attempts")]
           (ApiMiddleware.getClientIp req) (ApiMiddleware.getUserAgent req) ;;;
         ret (SecureLogin.mkNextResponse
                (SecureLogin.ErrorPayload (SecureLogin.message lockout) None) 429)
       else
         r <- await (SecureLogin.signInWithPassword services email password) ;;
         SecureLogin.logLoginAttempt env email (ApiMiddleware.getClientIp req)
           (negb (SecureLogin.is_some (SecureLogin.auth_error r)))
           (ApiMiddleware.getUserAgent req) ;;;
         match SecureLogin.auth_error r with
         | Some reason =>
             SecureLogin.logSecurityEvent env None LOGIN_FAILURE
               [("email", MString email); ("reason", MString reason)]
               (ApiMiddleware.getClientIp req) (ApiMiddleware.getUserAgent req) ;;;
             ret (SecureLogin.mkNextResponse
                    (SecureLogin.ErrorPayload (Some "Invalid email or password") None)
                    401)
         | None =>
             match SecureLogin.user r with
             | None => throw "TypeError"
             | Some u =>
                 SecureLogin.logSecurityEvent env (Some (SecureLogin.id u))
                   LOGIN_SUCCESS
                   [("method", MString "password"); ("mfa_used", MBool false)]
                   (ApiMiddleware.getClientIp req) (ApiMiddleware.getUserAgent req) ;;;
                 ret (SecureLogin.mkNextResponse
                        (SecureLogin.SuccessPayload u (SecureLogin.session r)) 200)
             end
         end)
      (fun _ =>
         console_error "Login error:" ;;;
         SecureLogin.logSecurityEvent env None LOGIN_FAILURE
           [("error", MString "Internal error during login")]
           (ApiMiddleware.getClientIp req) (ApiMiddleware.getUserAgent req) ;;;
         ret (SecureLogin.mkNextResponse
                (SecureLogin.ErrorPayload (Some "An error occurred during login") None)
                500)) w.
Proof.
  intros (Hrate & Hjson & He & Hp).
  unfold SecureLogin.POST, try_catch.
  unfold bind at 1. unfold await at 1. rewrite Hrate.
  unfold bind at 1. unfold await at 1. rewrite Hjson.
  cbn [ApiMiddleware.email ApiMiddleware.password].
  rewrite (eqb_empty_false _ He), (eqb_empty_false _ Hp). reflexivity.
Qed.

(** ** Requests stopped at the lockout check *)

Lemma POST_when_locked env services req email password w lockout w1 :
  reaches_lockout_check services req email password ->
  SecureLogin.checkAccountLockout env email (ApiMiddleware.getClientIp req) w
  = (Resolved lockout, w1) ->
  SecureLogin.locked lockout = true ->
  exists w',
    SecureLogin.POST env services req w
    = (Resolved (SecureLogin.mkNextResponse
                   (SecureLogin.ErrorPayload (SecureLogin.message lockout) None)
                   429), w')
    /\ login_attempts w' = login_attempts w
    /\ security_events w'
       = security_events w
         ++ recorded_event env
              (mkSecurityEvent None ACCOUNT_LOCKED
                 [("email", MString email);
                  ("reason", MString "Too many failed attempts")]
                 (ApiMiddleware.getClientIp req) (ApiMiddleware.getUserAgent req)
                 (now env)).
Proof.
  intros Hreach Hrun Hlocked.
  rewrite (POST_reaches_lockout_check _ _ _ _ _ _ Hreach).
  pose proof (route_checkAccountLockout_pure _ _ _ _ _ _ Hrun) as ->.
  unfold try_catch. unfold bind at 1. rewrite Hrun, Hlocked.
  unfold bind, SecureLogin.logSecurityEvent.
  destruct (logSecurityEvent_run env None ACCOUNT_LOCKED
              [("email", MString email);
               ("reason", MString "Too many failed attempts")]
              (ApiMiddleware.getClientIp req) (ApiMiddleware.getUserAgent req) w)
    as (w' & Hlog & Hla & Hse).
  rewrite Hlog. exists w'. unfold ret. auto.
Qed.

(** C2. A login request whose lockout check reports locked records a
    SecurityEvent ACCOUNT_LOCKED with a null subject (the row is appended
    when the event store carries out the insert), ends with status 429 and
    leaves the attempts ledger unchanged. *)
Theorem locked_request_gets_429_and_no_attempt_row :
  forall (env : Env) (services : SecureLogin.Services)
         (req : ApiMiddleware.NextRequest) (email password : string)
         (w w1 : World) (lockout : SecureLogin.LockoutResult),
    reaches_lockout_check services req email password ->
    SecureLogin.checkAccountLockout env email (ApiMiddleware.getClientIp req) w
    = (Resolved lockout, w1) ->
    SecureLogin.locked lockout = true ->
    exists resp w' event,
      SecureLogin.POST env services req w = (Resolved resp, w')
      /\ SecureLogin.status resp = 429
      /\ login_attempts w' = login_attempts w
      /\ security_events w' = security_events w ++ recorded_event env event
      /\ se_user_id event = None
      /\ se_event_type event = ACCOUNT_LOCKED
      /\ se_ip_address event = ApiMiddleware.getClientIp req
      /\ se_created_at event = now env.
Proof.
  intros env services req email password w w1 lockout Hreach Hrun Hlocked.
  destruct (POST_when_locked env services req email password w lockout w1
              Hreach Hrun Hlocked) as (w' & Hpost & Hla & Hse).
  eexists _, w', _. split; [exact Hpost|].
  split; [reflexivity|]. split; [exact Hla|]. split; [exact Hse|].
  cbn. auto.
Qed.

Lemma locked_request_gets_429_and_no_attempt_row_witness :
  exists resp w',
    SecureLogin.POST healthy_env scenario_services
      (login_request "1.2.3.4" alice "wrong") alice_locked_world
    = (Resolved resp, w')
    /\ SecureLogin.status resp = 429
    /\ login_attempts w' = five_failures
    /\ map se_event_type (security_events w') = [ACCOUNT_LOCKED]
    /\ map se_user_id (security_events w') = [None].
Proof.
  destruct (locked_request_gets_429_and_no_attempt_row healthy_env
              scenario_services (login_request "1.2.3.4" alice "wrong")
              alice "wrong" alice_locked_world alice_locked_world
              (SecureLogin.mkLockout true (Some SecureLogin.lockout_message)))
    as (resp & w' & event & Hpost & Hst & Hla & Hse & Hu & Ht & _).
  - repeat split; discriminate.
  - vm_compute. reflexivity.
  - reflexivity.
  - exists resp, w'. split; [exact Hpost|]. split; [exact Hst|].
    split; [exact Hla|]. rewrite Hse. cbn. rewrite Hu, Ht. split; reflexivity.
Defined.

(** C10. In the secure-login route, when the [is_account_locked] call comes
    back with a storage error, [checkAccountLockout] reports locked with the
    fixed lockout message and the request is rejected with 429: the check
    fails closed, the provider is not consulted and no attempt row is
    written. *)
Theorem lockout_storage_error_fails_closed :
  forall (env : Env) (services : SecureLogin.Services)
         (req : ApiMiddleware.NextRequest) (email password : string) (w : World),
    reaches_lockout_check services req email password ->
    store env RpcIsAccountLocked = ReturnsError ->
    SecureLogin.checkAccountLockout env email (ApiMiddleware.getClientIp req) w
    = (Resolved (SecureLogin.mkLockout true (Some SecureLogin.lockout_message)), w)
    /\ exists w',
         SecureLogin.POST env services req w
         = (Resolved (SecureLogin.mkNextResponse
                        (SecureLogin.ErrorPayload
                           (Some SecureLogin.lockout_message) None)
                        429), w')
         /\ login_attempts w' = login_attempts w.
Proof.
  intros env services req email password w Hreach Herr.
  assert (Hrun : SecureLogin.checkAccountLockout env email
                   (ApiMiddleware.getClientIp req) w
                 = (Resolved (SecureLogin.mkLockout true
                                (Some SecureLogin.lockout_message)), w)).
  { unfold SecureLogin.checkAccountLockout, bind, rpc_is_account_locked, request.
    rewrite Herr. reflexivity. }
  split; [exact Hrun|].
  destruct (POST_when_locked env services req email password w _ w
              Hreach Hrun eq_refl) as (w' & Hpost & Hla & _).
  exists w'. split; assumption.
Qed.

Lemma lockout_storage_error_fails_closed_witness :
  reaches_lockout_check scenario_services
    (login_request "1.2.3.4" alice "correct horse") alice "correct horse"
  /\ store (mkEnv t0 lockout_query_erroring) RpcIsAccountLocked = ReturnsError
  /\ exists w',
       SecureLogin.POST (mkEnv t0 lockout_query_erroring) scenario_services
         (login_request "1.2.3.4" alice "correct horse") empty_world
       = (Resolved (SecureLogin.mkNextResponse
                      (SecureLogin.ErrorPayload
                         (Some SecureLogin.lockout_message) None)
                      429), w')
       /\ login_attempts w' = [].
Proof.
  assert (Hreach : reaches_lockout_check scenario_services
                     (login_request "1.2.3.4" alice "correct horse")
                     alice "correct horse")
    by (repeat split; discriminate).
  split; [exact Hreach|]. split; [reflexivity|].
  exact (proj2 (lockout_storage_error_fails_closed
                  (mkEnv t0 lockout_query_erroring) scenario_services
                  (login_request "1.2.3.4" alice "correct horse")
                  alice "correct horse" empty_world Hreach eq_refl)).
Defined.

(** ** Requests that reach the provider *)

Lemma route_logLoginAttempt_run env email ipAddress successful userAgent w :
  SecureLogin.logLoginAttempt env email ipAddress successful userAgent w
  = match store env InsertLoginAttempt with
    | Fulfils =>
        (Resolved tt,
         mkWorld (login_attempts w
                  ++ [mkLoginAttempt email ipAddress userAgent successful (now env)])
                 (security_events w) (console w))
    | ReturnsError => (Resolved tt, w)
    | Rejects => (Rejected store_error, w)
    end.
Proof.
  unfold SecureLogin.logLoginAttempt, bind, insert_login_attempt, request, ret.
  destruct (store env InsertLoginAttempt); reflexivity.
Qed.

(** The rest of the route after the provider has answered [r] and the
    attempt has been logged: it always produces a response and does not
    touch the attempts ledger. *)
Lemma POST_after_record env services req email password w lockout r :
  reaches_lockout_check services req email password ->
  SecureLogin.checkAccountLockout env email (ApiMiddleware.getClientIp req) w
  = (Resolved lockout, w) ->
  SecureLogin.locked lockout = false ->
  SecureLogin.signInWithPassword services email password = Resolved r ->
  store env InsertLoginAttempt <> Rejects ->
  exists w',
    SecureLogin.POST env services req w
    = (Resolved
         (match SecureLogin.auth_error r, SecureLogin.user r with
          | Some _, _ =>
              SecureLogin.mkNextResponse
                (SecureLogin.ErrorPayload (Some "Invalid email or password") None)
                401
          | None, Some u =>
              SecureLogin.mkNextResponse
                (SecureLogin.SuccessPayload u (SecureLogin.session r)) 200
          | None, None =>
              SecureLogin.mkNextResponse
                (SecureLogin.ErrorPayload (Some "An error occurred during login") None)
                500
          end), w')
    /\ login_attempts w'
       = login_attempts w
         ++ match store env InsertLoginAttempt with
            | Fulfils =>
                [mkLoginAttempt email (ApiMiddleware.getClientIp req)
                   (ApiMiddleware.getUserAgent req)
                   (negb (SecureLogin.is_some (SecureLogin.auth_error r)))
                   (now env)]
            | _ => []
            end.
Proof.
  intros Hreach Hrun Hlocked Hsign Hins.
  rewrite (POST_reaches_lockout_check _ _ _ _ _ _ Hreach).
  unfold try_catch. unfold bind at 1. rewrite Hrun, Hlocked.
  unfold bind at 1. unfold await. rewrite Hsign.
  unfold bind at 1. rewrite route_logLoginAttempt_run.
  destruct (store env InsertLoginAttempt) eqn:Hstore; [| |congruence];
    destruct (SecureLogin.auth_error r) as [reason|];
    [|destruct (SecureLogin.user r) as [u|]| |destruct (SecureLogin.user r) as [u|]];
    run_logSecurityEvent w' Hla;
    exists w'; (split; [reflexivity|]); rewrite Hla; cbn [login_attempts];
    rewrite ?app_nil_r; reflexivity.
Qed.

(** C6. A login request that reaches the provider and gets its verdict has
    exactly one LoginAttempt row appended, stamped with the pair and the
    current time, whose [successful] field is the verdict (true exactly when
    the provider reported no error); the row is in the ledger when the route
    returns its response, 401 on the failure path and 200 on the success
    path.  The ledger insert is taken to be carried out. *)
Theorem provider_verdict_recorded_before_response :
  forall (env : Env) (services : SecureLogin.Services)
         (req : ApiMiddleware.NextRequest) (email password : string)
         (w : World) (lockout : SecureLogin.LockoutResult)
         (r : SecureLogin.AuthTokenResponse),
    reaches_lockout_check services req email password ->
    SecureLogin.checkAccountLockout env email (ApiMiddleware.getClientIp req) w
    = (Resolved lockout, w) ->
    SecureLogin.locked lockout = false ->
    SecureLogin.signInWithPassword services email password = Resolved r ->
    store env InsertLoginAttempt = Fulfils ->
    exists resp w' row,
      SecureLogin.POST env services req w = (Resolved resp, w')
      /\ login_attempts w' = login_attempts w ++ [row]
      /\ la_email row = email
      /\ la_ip_address row = ApiMiddleware.getClientIp req
      /\ la_attempted_at row = now env
      /\ (la_successful row = true <-> SecureLogin.auth_error r = None)
      /\ (SecureLogin.auth_error r <> None -> SecureLogin.status resp = 401)
      /\ (SecureLogin.auth_error r = None ->
          SecureLogin.user r <> None -> SecureLogin.status resp = 200).
Proof.
  intros env services req email password w lockout r
         Hreach Hrun Hlocked Hsign Hins.
  destruct (POST_after_record env services req email password w lockout r
              Hreach Hrun Hlocked Hsign) as (w' & Hpost & Hla).
  { rewrite Hins. discriminate. }
  rewrite Hins in Hla.
  eexists _, w', _. split; [exact Hpost|]. split; [exact Hla|].
  cbn [la_email la_ip_address la_attempted_at la_successful].
  split; [reflexivity|]. split; [reflexivity|]. split; [reflexivity|].
  destruct (SecureLogin.auth_error r) as [reason|]; cbn.
  - split; [split; discriminate|]. split; [reflexivity|]. intros H; discriminate.
  - split; [split; reflexivity|]. split; [intros H; congruence|].
    intros _ Hu. destruct (SecureLogin.user r); [reflexivity | congruence].
Qed.

Lemma provider_verdict_recorded_before_response_witness :
  exists resp w',
    SecureLogin.POST healthy_env scenario_services
      (login_request "1.2.3.4" alice "wrong") empty_world = (Resolved resp, w')
    /\ SecureLogin.status resp = 401
    /\ map la_successful (login_attempts w') = [false].
Proof.
  destruct (provider_verdict_recorded_before_response healthy_env
              scenario_services (login_request "1.2.3.4" alice "wrong")
              alice "wrong" empty_world (SecureLogin.mkLockout false None)
              (SecureLogin.mkAuth None None (Some "Invalid login credentials")))
    as (resp & w' & row & Hpost & Hla & _ & _ & _ & Hs & H401 & _).
  - repeat split; discriminate.
  - vm_compute. reflexivity.
  - reflexivity.
  - reflexivity.
  - reflexivity.
  - exists resp, w'. split; [exact Hpost|]. split.
    + apply H401. discriminate.
    + rewrite Hla. cbn. f_equal.
      destruct (la_successful row); [|reflexivity].
      destruct Hs as [Hs _]. discriminate (Hs eq_refl).
Defined.

(** ** Remaining attempts *)

Lemma failed_since_failures_between tbl t identity originIp width :
  stamped_by t tbl ->
  count_rows (AuthSecurity.failed_since identity originIp (t - width)) tbl
  = failures_between tbl (t - width) t identity originIp.
Proof.
  intros Hst. unfold failures_between. apply count_rows_ext_in.
  intros r Hin. unfold stamped_by in Hst. rewrite Forall_forall in Hst.
  specialize (Hst r Hin).
  unfold AuthSecurity.failed_since, failure_of_pairb, in_closed_window.
  rewrite eqb_false_r.
  replace (la_attempted_at r <=? t) with true by (symmetry; apply Z.leb_le; lia).
  now rewrite andb_true_r.
Qed.

Lemma recent_failures_le_failures_between tbl t identity originIp :
  recent_failures tbl t identity originIp
  <= failures_between tbl (t - WINDOW) t identity originIp.
Proof.
  unfold recent_failures, failures_between. apply count_rows_le.
  intros r _. unfold in_trailing_window, in_closed_window.
  rewrite !andb_true_iff, Z.ltb_lt, !Z.leb_le. intuition lia.
Qed.

(** C7. When the pair's failure count in the trailing 15-minute window
    [[now - 15 min, now]] is below 5, [checkAccountLockout] of the utilities
    returns locked: false with remainingAttempts = max(0, 5 - failures), and
    no message.  The two store queries are taken to be answered. *)
Theorem unlocked_reports_remaining_attempts :
  forall (env : Env) (w : World) (identity originIp : string),
    stamped_by (now env) (login_attempts w) ->
    store env RpcIsAccountLocked = Fulfils ->
    store env SelectLoginAttempts = Fulfils ->
    failures_between (login_attempts w) (now env - WINDOW) (now env)
      identity originIp < MAX_FAILURES ->
    AuthSecurity.checkAccountLockout env identity originIp w
    = (Resolved
         (AuthSecurity.mkResult false None
            (Some (Z.max 0
                     (MAX_FAILURES
                      - failures_between (login_attempts w) (now env - WINDOW)
                          (now env) identity originIp)))), w).
Proof.
  intros env w identity originIp Hst Hrpc Hsel Hlt.
  assert (Hunlocked :
            is_account_locked (login_attempts w) (now env) identity originIp = false).
  { destruct (is_account_locked (login_attempts w) (now env) identity originIp)
      eqn:E; [|reflexivity].
    apply (is_account_locked_iff _ _ _ _ Hst) in E.
    pose proof (recent_failures_le_failures_between (login_attempts w) (now env)
                  identity originIp). lia. }
  unfold AuthSecurity.checkAccountLockout, try_catch, bind,
    rpc_is_account_locked, select_login_attempts, request.
  rewrite Hrpc, Hsel. cbn [error data]. rewrite Hunlocked.
  cbn [data AuthSecurity.length_or_0]. unfold ret.
  change (15 * 60 * 1000) with WINDOW.
  fold (count_rows (AuthSecurity.failed_since identity originIp (now env - WINDOW))
          (login_attempts w)).
  rewrite (failed_since_failures_between _ _ _ _ _ Hst). reflexivity.
Qed.

Lemma unlocked_reports_remaining_attempts_witness :
  AuthSecurity.checkAccountLockout healthy_env alice "1.2.3.4" alice_three_world
  = (Resolved (AuthSecurity.mkResult false None (Some 2)), alice_three_world).
Proof.
  assert (Hst : stamped_by (now healthy_env) (login_attempts alice_three_world)).
  { unfold stamped_by. cbn. repeat constructor; cbn; unfold t0; lia. }
  assert (Hlt : failures_between (login_attempts alice_three_world)
                  (now healthy_env - WINDOW) (now healthy_env) alice "1.2.3.4"
                < MAX_FAILURES) by (vm_compute; reflexivity).
  exact (unlocked_reports_remaining_attempts healthy_env alice_three_world
           alice "1.2.3.4" Hst eq_refl eq_refl Hlt).
Defined.

(** ** Suspicious-activity rules *)

Lemma unique_size_spans (n : nat) (values : list string) :
  ((Z.of_nat n <? AuthSecurity.unique_size values) = true)
  <-> spans_more_than n values.
Proof.
  unfold AuthSecurity.unique_size, spans_more_than. rewrite Z.ltb_lt. split.
  - intros H. exists (nodup string_dec values). split; [apply NoDup_nodup|].
    split; [|lia]. intros x Hx. now apply nodup_In in Hx.
  - intros (distinct & Hnd & Hincl & Hlen).
    assert (List.length distinct <= List.length (nodup string_dec values))%nat.
    { apply NoDup_incl_length; [exact Hnd|].
      intros x Hx. apply nodup_In. now apply Hincl. }
    lia.
Qed.

Lemma filter_filter {A : Type} (f g : A -> bool) (l : list A) :
  filter f (filter g l) = filter (fun x => g x && f x) l.
Proof.
  induction l as [|x l IH]; [reflexivity|].
  cbn. destruct (g x); cbn; [destruct (f x)|]; now rewrite ?IH.
Qed.

Lemma event_type_is_login_failure (k : SecurityEventType) :
  SecurityEventType_eqb k LOGIN_FAILURE
  = match k with LOGIN_FAILURE => true | _ => false end.
Proof. now destruct k. Qed.

Lemma user_id_is_spec subject e :
  SecurityMonitoring.user_id_is subject e = true <-> event_of_subject subject e.
Proof.
  unfold SecurityMonitoring.user_id_is, event_of_subject.
  destruct (se_user_id e) as [u|]; [|split; discriminate].
  rewrite String.eqb_eq. split; congruence.
Qed.

(** The events Rule A and Rule B look at are events of the subject. *)
Lemma subject_events_of_subject tbl subject t width e :
  In e (subject_events tbl subject t width) ->
  In e tbl /\ event_of_subject subject e
  /\ t - width <= se_created_at e <= t.
Proof.
  unfold subject_events. rewrite filter_In, andb_true_iff, user_id_is_spec.
  unfold in_closed_window. rewrite andb_true_iff, !Z.leb_le. tauto.
Qed.

Lemma events_since_subject_events tbl subject t width :
  events_stamped_by t tbl ->
  filter (fun e => SecurityMonitoring.user_id_is subject e
                   && (t - width <=? se_created_at e)) tbl
  = subject_events tbl subject t width.
Proof.
  intros Hst. unfold subject_events. apply filter_ext_in.
  intros e Hin. unfold events_stamped_by in Hst. rewrite Forall_forall in Hst.
  specialize (Hst e Hin). unfold in_closed_window.
  replace (se_created_at e <=? t) with true by (symmetry; apply Z.leb_le; lia).
  now rewrite andb_true_r.
Qed.

Lemma failures_since_login_failure_count tbl subject t :
  events_stamped_by t tbl ->
  Z.of_nat (List.length
              (filter (fun e =>
                         SecurityMonitoring.user_id_is subject e
                         && SecurityEventType_eqb (se_event_type e) LOGIN_FAILURE
                         && (t - 15 * 60 * 1000 <=? se_created_at e)) tbl))
  = login_failure_count tbl subject t.
Proof.
  intros Hst. unfold login_failure_count, count_rows.
  rewrite <- (events_since_subject_events _ _ _ _ Hst), filter_filter.
  do 2 f_equal. apply filter_ext. intros e.
  rewrite event_type_is_login_failure. unfold minutes.
  destruct (SecurityMonitoring.user_id_is subject e);
    destruct (se_event_type e);
    destruct (t - 15 * 60 * 1000 <=? se_created_at e); reflexivity.
Qed.

(** What [detectSuspiciousActivity] computes when its queries are answered. *)
Lemma detectSuspiciousActivity_run env w subject ipAddress :
  events_stamped_by (now env) (security_events w) ->
  store env SelectSecurityEvents = Fulfils ->
  SecurityMonitoring.detectSuspiciousActivity env subject ipAddress w
  = (Resolved
       (if 5 <=? login_failure_count (security_events w) subject (now env)
        then SecurityMonitoring.mkVerdict true
               (Some "Multiple failed login attempts")
        else if Z.of_nat 3
                <? AuthSecurity.unique_size
                     (map se_ip_address
                        (subject_events (security_events w) subject (now env)
                           (minutes 60)))
             then SecurityMonitoring.mkVerdict true
                    (Some "Multiple IP addresses in short time")
             else SecurityMonitoring.mkVerdict false None), w).
Proof.
  intros Hst Hsel.
  unfold SecurityMonitoring.detectSuspiciousActivity, bind,
    select_security_events, request.
  rewrite Hsel. cbn [data].
  rewrite (failures_since_login_failure_count _ _ _ Hst).
  destruct (5 <=? login_failure_count (security_events w) subject (now env));
    [reflexivity|]. cbn [data].
  change (60 * 60 * 1000) with (minutes 60).
  rewrite (events_since_subject_events _ _ _ _ Hst).
  change 3 with (Z.of_nat 3) at 1.
  destruct (Z.of_nat 3 <? _); reflexivity.
Qed.

(** The count of Rule A against the events of the subject. *)
Lemma login_failure_count_at_least tbl subject t :
  5 <= login_failure_count tbl subject t
  <-> at_least 5 (login_failure_of subject (t - 900000) t) tbl.
Proof.
  unfold login_failure_count, count_rows, subject_events.
  rewrite filter_filter.
  rewrite (at_least_filter
             (fun e =>
                SecurityMonitoring.user_id_is subject e
                && in_closed_window (t - minutes 15) t (se_created_at e)
                && match se_event_type e with
                   | LOGIN_FAILURE => true
                   | _ => false
                   end)
             (login_failure_of subject (t - 900000) t)).
  - lia.
  - intros e. unfold login_failure_of, in_closed_window, minutes.
    rewrite !andb_true_iff, user_id_is_spec, !Z.leb_le.
    unfold event_of_subject. change (15 * 60 * 1000) with 900000.
    destruct (se_event_type e); intuition (try discriminate; auto).
Qed.

(** The addresses of Rule B against the events of the subject. *)
Lemma spans_addresses_exceed (n : nat) tbl subject t :
  spans_more_than n
    (map se_ip_address (subject_events tbl subject t (minutes 60)))
  <-> addresses_exceed n tbl subject (t - 3600000) t.
Proof.
  assert (Hin : forall ip,
    In ip (map se_ip_address (subject_events tbl subject t (minutes 60)))
    <-> exists e, In e tbl
                  /\ se_user_id e = Some subject
                  /\ t - 3600000 <= se_created_at e <= t
                  /\ se_ip_address e = ip).
  { intros ip. rewrite in_map_iff. unfold subject_events.
    split.
    - intros (e & Hip & He). apply filter_In in He. destruct He as (He & Hp).
      apply andb_true_iff in Hp. destruct Hp as (Hu & Hw).
      apply user_id_is_spec in Hu. unfold in_closed_window, minutes in Hw.
      apply andb_true_iff in Hw. rewrite !Z.leb_le in Hw.
      exists e. unfold event_of_subject in Hu. repeat split; try tauto; lia.
    - intros (e & He & Hu & Hw & Hip). exists e. split; [exact Hip|].
      apply filter_In. split; [exact He|].
      apply andb_true_iff. split; [now apply user_id_is_spec|].
      unfold in_closed_window, minutes. apply andb_true_iff.
      rewrite !Z.leb_le. lia. }
  unfold spans_more_than, addresses_exceed. split.
  - intros (distinct & Hnd & Hincl & Hlen). exists distinct.
    split; [exact Hnd|]. split; [exact Hlen|].
    intros ip Hip. apply Hin, Hincl, Hip.
  - intros (ips & Hnd & Hlen & Hall). exists ips.
    split; [exact Hnd|]. split; [|exact Hlen].
    intros ip Hip. apply Hin, Hall, Hip.
Qed.

(** C8. For every subject, with the event queries answered:
    Rule A, at least 5 LOGIN_FAILURE events of the subject in the trailing
    15 minutes give suspicious: true with the reason for multiple failed
    login attempts; otherwise Rule B, events of the subject in the trailing
    60 minutes that come from more than 3 distinct origin IPs give
    suspicious: true with the reason for multiple IP addresses in short
    time; otherwise suspicious: false.  An event belongs to the subject when
    its [user_id] is the subject; the check does not change the world. *)
Theorem detectSuspiciousActivity_rules :
  forall (env : Env) (w : World) (subject ipAddress : string),
    events_stamped_by (now env) (security_events w) ->
    store env SelectSecurityEvents = Fulfils ->
    let rule_A :=
      at_least 5 (login_failure_of subject (now env - 900000) (now env))
        (security_events w) in
    let rule_B :=
      addresses_exceed 3 (security_events w) subject
        (now env - 3600000) (now env) in
    (rule_A ->
     SecurityMonitoring.detectSuspiciousActivity env subject ipAddress w
     = (Resolved (SecurityMonitoring.mkVerdict true
                    (Some "Multiple failed login attempts")), w))
    /\ (~ rule_A -> rule_B ->
        SecurityMonitoring.detectSuspiciousActivity env subject ipAddress w
        = (Resolved (SecurityMonitoring.mkVerdict true
                       (Some "Multiple IP addresses in short time")), w))
    /\ (~ rule_A -> ~ rule_B ->
        SecurityMonitoring.detectSuspiciousActivity env subject ipAddress w
        = (Resolved (SecurityMonitoring.mkVerdict false None), w)).
Proof.
  intros env w subject ipAddress Hst Hsel rule_A rule_B.
  rewrite (detectSuspiciousActivity_run env w subject ipAddress Hst Hsel).
  unfold rule_A, rule_B.
  rewrite <- login_failure_count_at_least, <- (spans_addresses_exceed 3).
  rewrite <- unique_size_spans.
  destruct (5 <=? login_failure_count (security_events w) subject (now env))
    eqn:EA.
  - apply Z.leb_le in EA. split; [reflexivity|]. split; intros H; contradiction.
  - apply Z.leb_gt in EA. split; [intros H; lia|].
    destruct (Z.of_nat 3 <? AuthSecurity.unique_size _) eqn:EB.
    + split; [reflexivity|]. intros _ H. now contradiction H.
    + split; [intros _ H; discriminate | reflexivity].
Qed.

Lemma detectSuspiciousActivity_rules_witness :
  SecurityMonitoring.detectSuspiciousActivity healthy_env "user-alice" "4.4.4.4"
    (mkWorld [] shared_trail [])
  = (Resolved (SecurityMonitoring.mkVerdict true
                 (Some "Multiple failed login attempts")),
     mkWorld [] shared_trail [])
  /\ SecurityMonitoring.detectSuspiciousActivity healthy_env "user-bob" "7.7.7.7"
       (mkWorld [] shared_trail [])
     = (Resolved (SecurityMonitoring.mkVerdict false None),
        mkWorld [] shared_trail [])
  /\ SecurityMonitoring.detectSuspiciousActivity healthy_env "user-alice" "4.4.4.4"
       (mkWorld [] roaming_trail [])
     = (Resolved (SecurityMonitoring.mkVerdict true
                    (Some "Multiple IP addresses in short time")),
        mkWorld [] roaming_trail []).
Proof.
  assert (Hst : forall tbl,
            tbl = shared_trail \/ tbl = roaming_trail ->
            events_stamped_by (now healthy_env)
              (security_events (mkWorld [] tbl []))).
  { intros tbl [-> | ->]; unfold events_stamped_by; cbn;
      repeat constructor; cbn; unfold t0; lia. }
  split; [|split].
  - apply (proj1 (detectSuspiciousActivity_rules healthy_env
                    (mkWorld [] shared_trail []) "user-alice" "4.4.4.4"
                    (Hst _ (or_introl eq_refl)) eq_refl)).
    apply login_failure_count_at_least. vm_compute. discriminate.
  - apply (proj2 (proj2 (detectSuspiciousActivity_rules healthy_env
                           (mkWorld [] shared_trail []) "user-bob" "7.7.7.7"
                           (Hst _ (or_introl eq_refl)) eq_refl))).
    + intros H. apply login_failure_count_at_least in H.
      vm_compute in H. now apply H.
    + intros H. apply (spans_addresses_exceed 3), unique_size_spans in H.
      vm_compute in H. discriminate.
  - apply (proj1 (proj2 (detectSuspiciousActivity_rules healthy_env
                           (mkWorld [] roaming_trail [])
                           "user-alice" "4.4.4.4"
                           (Hst _ (or_intror eq_refl)) eq_refl))).
    + intros H. apply login_failure_count_at_least in H.
      vm_compute in H. now apply H.
    + apply (spans_addresses_exceed 3), unique_size_spans.
      vm_compute. reflexivity.
Defined.

Lemma attempts_since_failed_identities tbl originIp t :
  stamped_by t tbl ->
  map la_email
      (filter (fun row =>
                 String.eqb (la_ip_address row) originIp
                 && Bool.eqb (la_successful row) false
                 && (t - 60 * 60 * 1000 <=? la_attempted_at row)) tbl)
  = failed_identities tbl originIp t.
Proof.
  intros Hst. unfold failed_identities. f_equal. apply filter_ext_in.
  intros r Hin. unfold stamped_by in Hst. rewrite Forall_forall in Hst.
  specialize (Hst r Hin). unfold in_closed_window, minutes.
  rewrite eqb_false_r.
  replace (la_attempted_at r <=? t) with true by (symmetry; apply Z.leb_le; lia).
  now rewrite andb_true_r.
Qed.

(** C9. For every origin IP, [checkSuspiciousIP] resolves and leaves both
    tables as they were.  It answers true only if the IP has failed attempts
    against more than 10 distinct identities in the trailing 60 minutes, and,
    when its query is answered, it answers true whenever that is the case:
    the flag depends on the number of distinct identities alone, not on any
    identity's own failure count. *)
Theorem checkSuspiciousIP_flags_fan_out :
  forall (env : Env) (w : World) (originIp : string),
    stamped_by (now env) (login_attempts w) ->
    exists (flag : bool) (w' : World),
      AuthSecurity.checkSuspiciousIP env originIp w = (Resolved flag, w')
      /\ login_attempts w' = login_attempts w
      /\ security_events w' = security_events w
      /\ (flag = true ->
          spans_more_than 10 (failed_identities (login_attempts w) originIp (now env)))
      /\ (store env SelectLoginAttempts = Fulfils ->
          spans_more_than 10 (failed_identities (login_attempts w) originIp (now env)) ->
          flag = true).
Proof.
  intros env w originIp Hst.
  unfold AuthSecurity.checkSuspiciousIP, try_catch, bind,
    select_login_attempts, request, console_error, ret.
  destruct (store env SelectLoginAttempts) eqn:Hsel; cbn [data].
  - rewrite (attempts_since_failed_identities _ _ _ Hst).
    do 2 eexists. split; [reflexivity|]. split; [reflexivity|].
    split; [reflexivity|].
    change 10 with (Z.of_nat 10). split.
    + intros H. now apply unique_size_spans.
    + intros _ H. now apply unique_size_spans.
  - do 2 eexists. split; [reflexivity|]. split; [reflexivity|].
    split; [reflexivity|]. split; intros; discriminate.
  - do 2 eexists. split; [reflexivity|]. split; [reflexivity|].
    split; [reflexivity|]. split; intros; discriminate.
Qed.

Lemma checkSuspiciousIP_flags_fan_out_witness :
  stamped_by (now healthy_env) (login_attempts fan_out_world)
  /\ (exists w',
        AuthSecurity.checkSuspiciousIP healthy_env "5.5.5.5" fan_out_world
        = (Resolved true, w')
        /\ login_attempts w' = login_attempts fan_out_world
        /\ security_events w' = security_events fan_out_world)
  /\ forallb (fun identity =>
                negb (is_account_locked (login_attempts fan_out_world)
                        (now healthy_env) identity "5.5.5.5"))
             eleven_identities = true.
Proof.
  assert (Hst : stamped_by (now healthy_env) (login_attempts fan_out_world)).
  { unfold stamped_by. cbn. repeat constructor; cbn; unfold t0; lia. }
  split; [exact Hst|]. split; [|vm_compute; reflexivity].
  destruct (checkSuspiciousIP_flags_fan_out healthy_env fan_out_world "5.5.5.5" Hst)
    as (flag & w' & Hrun & Hla & Hse & _ & Hflag).
  exists w'. rewrite Hrun. split; [|split; assumption].
  rewrite Hflag; [reflexivity | reflexivity |].
  apply unique_size_spans. vm_compute. reflexivity.
Defined.

(** ** Recording and clearing attempts *)



(** [clearFailedAttempts], when its delete is carried out, leaves the pair
    without failures: neither check counts any. *)
Lemma clearFailedAttempts_resets env identity originIp w :
  store env DeleteLoginAttempts = Fulfils ->
  exists w',
    AuthSecurity.clearFailedAttempts env identity originIp w = (Resolved tt, w')
    /\ forall t width,
         failures_between (login_attempts w') (t - width) t identity originIp = 0.
Proof.
  intros Hdel.
  unfold AuthSecurity.clearFailedAttempts, try_catch, bind, delete_login_attempts,
    request, ret.
  rewrite Hdel. eexists. split; [reflexivity|]. cbn [login_attempts].
  intros t width. unfold failures_between, count_rows.
  rewrite filter_filter.
  match goal with
  | |- Z.of_nat (List.length (filter ?f ?l)) = 0 =>
      assert (Hnone : forall r, f r = false)
  end.
  { intros r. unfold failure_of_pairb. rewrite eqb_false_r.
    destruct (String.eqb (la_email r) identity);
      destruct (String.eqb (la_ip_address r) originIp);
      destruct (la_successful r); reflexivity. }
  match goal with
  | |- Z.of_nat (List.length (filter ?f ?l)) = 0 =>
      replace (filter f l) with (@nil LoginAttempt); [reflexivity|]
  end.
  induction (login_attempts w) as [|r l IH]; [reflexivity|].
  cbn. rewrite Hnone. exact IH.
Qed.

(** On the success path of the route the pair keeps every failure it had:
    the ledger only grows by the successful row. *)
Lemma POST_success_keeps_failures env services req email password w lockout r u :
  reaches_lockout_check services req email password ->
  SecureLogin.checkAccountLockout env email (ApiMiddleware.getClientIp req) w
  = (Resolved lockout, w) ->
  SecureLogin.locked lockout = false ->
  SecureLogin.signInWithPassword services email password = Resolved r ->
  SecureLogin.auth_error r = None ->
  SecureLogin.user r = Some u ->
  store env InsertLoginAttempt <> Rejects ->
  exists w',
    SecureLogin.POST env services req w
    = (Resolved (SecureLogin.mkNextResponse
                   (SecureLogin.SuccessPayload u (SecureLogin.session r)) 200), w')
    /\ forall t identity originIp,
         recent_failures (login_attempts w') t identity originIp
         = recent_failures (login_attempts w) t identity originIp.
Proof.
  intros Hreach Hrun Hlocked Hsign Herr Hu Hins.
  destruct (POST_after_record env services req email password w lockout r
              Hreach Hrun Hlocked Hsign Hins) as (w' & Hpost & Hla).
  rewrite Herr, Hu in Hpost. exists w'. split; [exact Hpost|].
  intros t identity originIp. rewrite Hla. unfold recent_failures.
  rewrite count_rows_app. rewrite Herr.
  destruct (store env InsertLoginAttempt).
  - rewrite count_rows_cons. unfold failure_of_pairb.
    cbn [la_successful SecureLogin.is_some negb].
    rewrite andb_false_r. cbn [andb]. unfold count_rows. cbn. lia.
  - unfold count_rows. cbn. lia.
  - unfold count_rows. cbn. lia.
Qed.

(** C3. The specification asks that a successful login clear the pair's
    failed rows.  [clearFailedAttempts] does that when called (lemma
    [clearFailedAttempts_resets]), but the route never calls it: with four
    recent failures of the pair, a successful login answers 200 and the pair
    still counts four failures; one further failure then locks the pair and
    the next request is answered 429. *)
Theorem success_path_leaves_failures_in_place :
  let w1 := world_after (alice_login "correct horse") alice_four_world in
  let w2 := world_after (alice_login "wrong") w1 in
  result_of (alice_login "correct horse") alice_four_world
  = Resolved (SecureLogin.mkNextResponse
                (SecureLogin.SuccessPayload alice_user (Some "session-token")) 200)
  /\ recent_failures (login_attempts w1) t0 alice "1.2.3.4" = 4
  /\ result_of (alice_login "wrong") w1
     = Resolved (SecureLogin.mkNextResponse
                   (SecureLogin.ErrorPayload (Some "Invalid email or password") None)
                   401)
  /\ is_account_locked (login_attempts w2) t0 alice "1.2.3.4" = true
  /\ result_of (alice_login "correct horse") w2
     = Resolved (SecureLogin.mkNextResponse
                   (SecureLogin.ErrorPayload (Some SecureLogin.lockout_message) None)
                   429).
Proof. vm_compute. repeat split. Qed.

(** C4. The specification asks that [getFailedAttemptsCount] return the
    number of the pair's failed rows in the window.  The function asks the store for
    the count alone ([head: true]) and then reads the length of the rows,
    which such an answer does not carry: it returns 0 for every ledger,
    here for a pair with three failures inside the window. *)
Theorem getFailedAttemptsCount_returns_zero :
  (forall (env : Env) (identity originIp : string) (windowMinutes : option Z)
          (w : World),
      result_of (AuthSecurity.getFailedAttemptsCount env identity originIp
                   windowMinutes) w
      = Resolved 0)
  /\ failures_between (login_attempts alice_three_world) (t0 - WINDOW) t0
       alice "1.2.3.4" = 3
  /\ result_of (AuthSecurity.getFailedAttemptsCount healthy_env alice "1.2.3.4"
                  (Some 15)) alice_three_world
     = Resolved 0.
Proof.
  split; [|split; vm_compute; reflexivity].
  intros env identity originIp windowMinutes w.
  unfold result_of, AuthSecurity.getFailedAttemptsCount, try_catch, bind,
    select_login_attempts, request, console_error, ret.
  destruct (store env SelectLoginAttempts); reflexivity.
Qed.



(** ** The ledger under the route *)

Lemma stamped_by_later t t' tbl :
  t <= t' -> stamped_by t tbl -> stamped_by t' tbl.
Proof.
  intros Hle Hst. unfold stamped_by in *. rewrite Forall_forall in *.
  intros r Hin. specialize (Hst r Hin). lia.
Qed.

Lemma stamped_by_snoc t tbl row :
  stamped_by t tbl -> la_attempted_at row <= t -> stamped_by t (tbl ++ [row]).
Proof.
  intros Hst Hrow. unfold stamped_by in *. apply Forall_app. split; [exact Hst|].
  now constructor.
Qed.

(** Whatever the request, the collaborators and the store do, the route
    answers, and the ledger it leaves is the one it found, possibly with one
    row appended that is stamped with the current time. *)
Lemma POST_appends_at_most_one_row env services req w :
  exists resp w',
    SecureLogin.POST env services req w = (Resolved resp, w')
    /\ (login_attempts w' = login_attempts w
        \/ exists row,
             login_attempts w' = login_attempts w ++ [row]
             /\ la_attempted_at row = now env).
Proof.
  unfold SecureLogin.POST, try_catch.
  unfold bind at 1. unfold await at 1.
  destruct (SecureLogin.protect_isDenied services req) as [[|]|e0];
    [answered_without_row | | run_logSecurityEvent w' Hla; answered_without_row].
  unfold bind at 1. unfold await at 1.
  destruct (ApiMiddleware.json req) as [[[email|] [password|]]|e1];
    cbn [ApiMiddleware.email ApiMiddleware.password];
    [ | answered_without_row | answered_without_row | answered_without_row
      | run_logSecurityEvent w' Hla; answered_without_row ].
  destruct (String.eqb email "" || String.eqb password "")%bool;
    [answered_without_row|].
  unfold bind at 1.
  destruct (SecureLogin.checkAccountLockout env email
              (ApiMiddleware.getClientIp req) w) as [[lockout|e2] w1] eqn:Hrun;
    pose proof (route_checkAccountLockout_pure _ _ _ _ _ _ Hrun) as ->;
    [ | run_logSecurityEvent w' Hla; answered_without_row ].
  destruct (SecureLogin.locked lockout);
    [run_logSecurityEvent w' Hla; answered_without_row|].
  unfold bind at 1. unfold await.
  destruct (SecureLogin.signInWithPassword services email password) as [r|e3];
    [ | run_logSecurityEvent w' Hla; answered_without_row ].
  unfold bind at 1. rewrite route_logLoginAttempt_run.
  destruct (store env InsertLoginAttempt);
    [ destruct (SecureLogin.auth_error r) as [reason|];
        [|destruct (SecureLogin.user r) as [u|]]
    | destruct (SecureLogin.auth_error r) as [reason|];
        [|destruct (SecureLogin.user r) as [u|]]
    | ];
    run_logSecurityEvent w' Hla;
    do 2 eexists; (split; [reflexivity|]); rewrite Hla; cbn [login_attempts];
    first [now left | right; eexists; split; reflexivity].
Qed.

(** The ledger invariant behind the window counts: the route keeps every
    row stamped no later than the clock. *)
Lemma POST_keeps_ledger_stamped env services req w resp w' :
  stamped_by (now env) (login_attempts w) ->
  SecureLogin.POST env services req w = (Resolved resp, w') ->
  stamped_by (now env) (login_attempts w').
Proof.
  intros Hst Hpost.
  destruct (POST_appends_at_most_one_row env services req w)
    as (resp0 & w0 & Hrun & Hgrow).
  rewrite Hpost in Hrun. inversion Hrun; subst resp0 w0.
  destruct Hgrow as [-> | (row & -> & Hrow)]; [exact Hst|].
  apply stamped_by_snoc; [exact Hst | lia].
Qed.

(** ** The lockout scenario, run through the route *)

(** After five failures within two minutes the sixth attempt of the pair is
    answered 429 even with the right password, while the same identity from
    another address is still let through to the provider; once the window
    has passed the pair is let through again. *)
Example alice_is_locked_per_pair :
  status_of (result_of (post_at (t0 + 100000) "1.2.3.4" alice "correct horse")
               after_five_wrong_passwords) = Some 429
  /\ status_of (result_of (post_at (t0 + 100000) "9.9.9.9" alice "correct horse")
                  after_five_wrong_passwords) = Some 200
  /\ status_of (result_of (post_at (t0 + minutes 16) "1.2.3.4" alice "correct horse")
                  after_five_wrong_passwords) = Some 200.
Proof. vm_compute. repeat split. Qed.

(** A single failure that is sixteen minutes old leaves all five attempts. *)
Example old_failure_is_not_counted :
  AuthSecurity.checkAccountLockout (mkEnv (t0 + minutes 16) healthy_store)
    alice "1.2.3.4" (mkWorld [failed_attempt alice "1.2.3.4" t0] [] [])
  = (Resolved (AuthSecurity.mkResult false None (Some 5)),
     mkWorld [failed_attempt alice "1.2.3.4" t0] [] []).
Proof. vm_compute. reflexivity. Qed.

(** * Further properties of the embedded code *)

(** ** Every run of the login route follows one path *)

(** Run the [logSecurityEvent] call the goal is stopped at, keeping what it
    does to both tables. *)
Ltac run_event w' Hla Hse :=
  unfold SecureLogin.logSecurityEvent;
  unfold bind, throw, console_error;
  match goal with
  | |- context [SecurityMonitoring.logSecurityEvent ?e ?u ?t ?m ?i ?a ?x] =>
      destruct (logSecurityEvent_run e u t m i a x) as (w' & -> & Hla & Hse)
  end;
  cbn [login_attempts security_events] in Hla, Hse.

Lemma truthy_eqb (s : string) :
  ApiMiddleware.truthy (Some s) = negb (String.eqb s "").
Proof. reflexivity. Qed.

Lemma reaches_lockout_check_intro services req email password :
  SecureLogin.protect_isDenied services req = Resolved false ->
  ApiMiddleware.json req
  = Resolved (ApiMiddleware.mkCredentials (Some email) (Some password)) ->
  (String.eqb email "" || String.eqb password "")%bool = false ->
  reaches_lockout_check services req email password.
Proof.
  intros Hrate Hjson Hne. apply orb_false_elim in Hne. destruct Hne as [He Hp].
  repeat split; try assumption; now apply String.eqb_neq.
Qed.

Lemma POST_follows_a_path env services req w :
  exists resp w',
    SecureLogin.POST env services req w = (Resolved resp, w')
    /\ PostPath env services req w resp w'.
Proof.
  unfold SecureLogin.POST, try_catch.
  unfold bind at 1. unfold await at 1.
  destruct (SecureLogin.protect_isDenied services req) as [[|]|e0] eqn:Hrate.
  - do 2 eexists. split; [reflexivity|]. now apply RateLimited.
  - unfold bind at 1. unfold await at 1.
    destruct (ApiMiddleware.json req) as [[[email|] [password|]]|e1] eqn:Hjson;
      cbn [ApiMiddleware.email ApiMiddleware.password].
    + destruct (String.eqb email "" || String.eqb password "")%bool eqn:Hne.
      * do 2 eexists. split; [reflexivity|].
        apply (BadRequest _ _ _ _ _ Hrate Hjson).
        cbn [ApiMiddleware.email ApiMiddleware.password].
        rewrite !truthy_eqb.
        destruct (String.eqb email ""), (String.eqb password ""); cbn in *; congruence.
      * pose proof (reaches_lockout_check_intro _ _ _ _ Hrate Hjson Hne) as Hreach.
        unfold bind at 1.
        destruct (SecureLogin.checkAccountLockout env email
                    (ApiMiddleware.getClientIp req) w) as [[lockout|e2] w1] eqn:Hrun;
          pose proof (route_checkAccountLockout_pure _ _ _ _ _ _ Hrun) as ->.
        -- destruct (SecureLogin.locked lockout) eqn:Hlocked.
           ++ run_event w' Hla Hse. do 2 eexists. split; [reflexivity|].
              now apply (Locked _ _ _ _ email password lockout w').
           ++ assert (Hpass : passes_lockout_check env req email w)
                by (exists lockout; split; assumption).
              unfold bind at 1. unfold await.
              destruct (SecureLogin.signInWithPassword services email password)
                as [r|e3] eqn:Hsign.
              ** unfold bind at 1. rewrite route_logLoginAttempt_run.
                 destruct (store env InsertLoginAttempt) eqn:Hins.
                 --- destruct (SecureLogin.auth_error r) as [reason|] eqn:Herr;
                       [|destruct (SecureLogin.user r) as [u|] eqn:Hu];
                       run_event w' Hla Hse; do 2 eexists;
                       (split; [reflexivity|]).
                     +++ apply (InvalidCredentials _ _ _ _ email password r reason w');
                           try assumption; try congruence;
                           unfold recorded_attempt; now rewrite Hins.
                     +++ apply (LoggedIn _ _ _ _ email password r u w');
                           try assumption; try congruence;
                           unfold recorded_attempt; now rewrite Hins.
                     +++ apply (InternalError _ _ _ _
                                  (recorded_attempt env (route_attempt env req email true)));
                           [ apply (UserMissing _ _ _ _ email password r);
                             try assumption; congruence
                           | unfold recorded_attempt; now rewrite Hins
                           | assumption ].
                 --- destruct (SecureLogin.auth_error r) as [reason|] eqn:Herr;
                       [|destruct (SecureLogin.user r) as [u|] eqn:Hu];
                       run_event w' Hla Hse; do 2 eexists;
                       (split; [reflexivity|]).
                     +++ apply (InvalidCredentials _ _ _ _ email password r reason w');
                           try assumption; try congruence;
                           unfold recorded_attempt; rewrite Hins, app_nil_r; assumption.
                     +++ apply (LoggedIn _ _ _ _ email password r u w');
                           try assumption; try congruence;
                           unfold recorded_attempt; rewrite Hins, app_nil_r; assumption.
                     +++ apply (InternalError _ _ _ _
                                  (recorded_attempt env (route_attempt env req email true)));
                           [ apply (UserMissing _ _ _ _ email password r);
                             try assumption; congruence
                           | unfold recorded_attempt; rewrite Hins, app_nil_r; assumption
                           | assumption ].
                 --- run_event w' Hla Hse. do 2 eexists. split; [reflexivity|].
                     apply (InternalError _ _ _ _ []);
                       [ now apply (LedgerRejected _ _ _ _ email password r)
                       | now rewrite app_nil_r | assumption ].
              ** run_event w' Hla Hse. do 2 eexists. split; [reflexivity|].
                 apply (InternalError _ _ _ _ []);
                   [ now apply (ProviderRejected _ _ _ _ email password e3)
                   | now rewrite app_nil_r | assumption ].
        -- run_event w' Hla Hse. do 2 eexists. split; [reflexivity|].
           apply (InternalError _ _ _ _ []);
             [ now apply (LockoutRejected _ _ _ _ email password e2)
             | now rewrite app_nil_r | assumption ].
    + do 2 eexists. split; [reflexivity|].
      apply (BadRequest _ _ _ _ _ Hrate Hjson); cbn; now rewrite ?andb_false_r.
    + do 2 eexists. split; [reflexivity|].
      apply (BadRequest _ _ _ _ _ Hrate Hjson); cbn; now rewrite ?andb_false_r.
    + do 2 eexists. split; [reflexivity|].
      apply (BadRequest _ _ _ _ _ Hrate Hjson); cbn; now rewrite ?andb_false_r.
    + run_event w' Hla Hse. do 2 eexists. split; [reflexivity|].
      apply (InternalError _ _ _ _ []);
        [ now apply (BodyRejected _ _ _ _ e1)
        | now rewrite app_nil_r | assumption ].
  - run_event w' Hla Hse. do 2 eexists. split; [reflexivity|].
    apply (InternalError _ _ _ _ []);
      [ now apply (LimiterRejected _ _ _ _ e0)
      | now rewrite app_nil_r | assumption ].
Qed.

Lemma POST_path env services req w resp w' :
  SecureLogin.POST env services req w = (Resolved resp, w') ->
  PostPath env services req w resp w'.
Proof.
  intros Hpost.
  destruct (POST_follows_a_path env services req w) as (resp0 & w0 & Hrun & Hpath).
  rewrite Hpost in Hrun. now inversion Hrun; subst.
Qed.

Lemma reaches_lockout_check_unique services req email1 password1 email2 password2 :
  reaches_lockout_check services req email1 password1 ->
  reaches_lockout_check services req email2 password2 ->
  email2 = email1 /\ password2 = password1.
Proof.
  intros (_ & Hj1 & _) (_ & Hj2 & _). rewrite Hj1 in Hj2.
  now inversion Hj2.
Qed.

Lemma reaches_lockout_check_truthy services req email password body :
  reaches_lockout_check services req email password ->
  ApiMiddleware.json req = Resolved body ->
  ApiMiddleware.truthy (ApiMiddleware.email body)
  && ApiMiddleware.truthy (ApiMiddleware.password body) = true.
Proof.
  intros (_ & Hj & He & Hp) Hbody. rewrite Hj in Hbody. inversion Hbody; subst.
  cbn. now rewrite (eqb_empty_false _ He), (eqb_empty_false _ Hp).
Qed.

(** The unlocked answer of the route's lockout check: the query was answered
    and the pair is not locked. *)
Lemma passes_lockout_check_iff env req email w :
  passes_lockout_check env req email w
  <-> store env RpcIsAccountLocked = Fulfils
      /\ is_account_locked (login_attempts w) (now env) email
           (ApiMiddleware.getClientIp req) = false.
Proof.
  unfold passes_lockout_check, SecureLogin.checkAccountLockout, bind,
    rpc_is_account_locked, request, ret.
  destruct (store env RpcIsAccountLocked); cbn [error data].
  - destruct (is_account_locked _ _ _ _); split.
    + intros (lockout & H & Hl). inversion H; subst. discriminate.
    + intros (_ & H). discriminate.
    + intros _. now split.
    + intros _. eexists. split; reflexivity.
  - split; [intros (lockout & H & Hl); inversion H; subst; discriminate
           | intros (H & _); discriminate].
  - split; [intros (lockout & H & Hl); discriminate
           | intros (H & _); discriminate].
Qed.

(** Bring the premises of two paths of one request together. *)
Ltac same_request :=
  repeat match goal with
  | H1 : reaches_lockout_check ?s ?r ?e1 ?p1,
    H2 : reaches_lockout_check ?s ?r ?e2 ?p2 |- _ =>
      tryif constr_eq e1 e2 then fail else
        (destruct (reaches_lockout_check_unique s r e1 p1 e2 p2 H1 H2); subst)
  | H1 : reaches_lockout_check ?s ?r ?e ?p,
    H2 : ApiMiddleware.json ?r = Resolved ?body,
    H3 : ApiMiddleware.truthy (ApiMiddleware.email ?body)
         && ApiMiddleware.truthy (ApiMiddleware.password ?body) = false |- _ =>
      rewrite (reaches_lockout_check_truthy s r e p body H1 H2) in H3; discriminate
  | H1 : reaches_lockout_check ?s ?r _ _,
    H2 : SecureLogin.protect_isDenied ?s ?r = _ |- _ =>
      destruct H1 as (H1 & _); congruence
  | H1 : reaches_lockout_check _ ?r _ _,
    H2 : ApiMiddleware.json ?r = Rejected _ |- _ =>
      destruct H1 as (_ & H1 & _); congruence
  | H1 : passes_lockout_check ?env ?r ?e ?w,
    H2 : SecureLogin.checkAccountLockout ?env ?e _ ?w = _ |- _ =>
      destruct H1 as (? & H1 & ?); rewrite H1 in H2; inversion H2; subst; congruence
  end.

(** ** The early exits of the login route *)

Lemma POST_rate_limited env services req w :
  SecureLogin.protect_isDenied services req = Resolved true ->
  SecureLogin.POST env services req w = (Resolved rate_limited_response, w).
Proof.
  intros Hrate.
  unfold SecureLogin.POST, try_catch, bind, await. rewrite Hrate. reflexivity.
Qed.

Lemma POST_missing_credentials env services req body w :
  SecureLogin.protect_isDenied services req = Resolved false ->
  ApiMiddleware.json req = Resolved body ->
  ApiMiddleware.truthy (ApiMiddleware.email body)
  && ApiMiddleware.truthy (ApiMiddleware.password body) = false ->
  SecureLogin.POST env services req w = (Resolved bad_request_response, w).
Proof.
  intros Hrate Hjson Hfalsy.
  unfold SecureLogin.POST, try_catch.
  unfold bind at 1. unfold await at 1. rewrite Hrate.
  unfold bind at 1. unfold await at 1. rewrite Hjson.
  destruct body as [[email|] [password|]]; cbn in *; try reflexivity.
  destruct (String.eqb email ""), (String.eqb password "");
    cbn in *; try reflexivity; discriminate.
Qed.

(** X1. The two early exits of the login route change nothing, whatever the
    ledger and the store are: a request the rate limiter denies is answered
    429 with the retry hint, and a request that passes the limiter but lacks
    a non-empty e-mail or password is answered 400; in both cases no ledger
    row, no event and no console line is written, and the lockout check is
    not made. *)
Theorem POST_early_exits_change_nothing :
  forall (env : Env) (services : SecureLogin.Services)
         (req : ApiMiddleware.NextRequest) (w : World),
    SecureLogin.protect_isDenied services req = Resolved true
    \/ (exists body,
          SecureLogin.protect_isDenied services req = Resolved false
          /\ ApiMiddleware.json req = Resolved body
          /\ ApiMiddleware.truthy (ApiMiddleware.email body)
             && ApiMiddleware.truthy (ApiMiddleware.password body) = false) ->
    SecureLogin.POST env services req w
    = (Resolved
         (match SecureLogin.protect_isDenied services req with
          | Resolved true => rate_limited_response
          | _ => bad_request_response
          end), w).
Proof.
  intros env services req w [Hrate | (body & Hrate & Hjson & Hfalsy)].
  - rewrite Hrate. now apply POST_rate_limited.
  - rewrite Hrate. now apply (POST_missing_credentials env services req body).
Qed.

Lemma POST_early_exits_change_nothing_witness :
  SecureLogin.POST healthy_env denying_services
    (login_request "1.2.3.4" alice "correct horse") alice_four_world
  = (Resolved rate_limited_response, alice_four_world)
  /\ SecureLogin.POST (mkEnv t0 unreachable_store) scenario_services
       request_without_password alice_locked_world
     = (Resolved bad_request_response, alice_locked_world).
Proof.
  split.
  - apply (POST_early_exits_change_nothing healthy_env denying_services
             (login_request "1.2.3.4" alice "correct horse") alice_four_world).
    left. reflexivity.
  - apply (POST_early_exits_change_nothing (mkEnv t0 unreachable_store)
             scenario_services request_without_password alice_locked_world).
    right. exists (ApiMiddleware.mkCredentials (Some alice) None).
    repeat split.
Defined.

(** ** What a response tells about the run *)

Ltac invert_path H :=
  inversion H; subst; clear H;
  try solve [same_request; cbn in *; congruence];
  try match goal with
      | F : InternalFailure _ _ _ _ _ |- _ =>
          inversion F; subst; clear F;
          try solve [same_request; cbn in *; congruence]
      end;
  same_request.

(** X2. The route answers 200 only for a request that passed the lockout
    check, the lockout query having been answered with "not locked", and
    whose credentials the provider accepted; the payload then carries the
    provider's user and session. *)
Theorem POST_200_only_when_unlocked_and_accepted :
  forall (env : Env) (services : SecureLogin.Services)
         (req : ApiMiddleware.NextRequest) (w w' : World)
         (resp : SecureLogin.NextResponse),
    SecureLogin.POST env services req w = (Resolved resp, w') ->
    SecureLogin.status resp = 200 ->
    exists email password r u,
      reaches_lockout_check services req email password
      /\ store env RpcIsAccountLocked = Fulfils
      /\ is_account_locked (login_attempts w) (now env) email
           (ApiMiddleware.getClientIp req) = false
      /\ SecureLogin.signInWithPassword services email password = Resolved r
      /\ SecureLogin.auth_error r = None
      /\ SecureLogin.user r = Some u
      /\ SecureLogin.payload resp
         = SecureLogin.SuccessPayload u (SecureLogin.session r).
Proof.
  intros env services req w w' resp Hpost Hstatus.
  apply POST_path in Hpost. inversion Hpost; subst; cbn in Hstatus;
    try discriminate.
  match goal with
  | H : passes_lockout_check _ _ _ _ |- _ =>
      apply passes_lockout_check_iff in H; destruct H as (Hrpc & Hunlocked)
  end.
  exists email, password, r, u. repeat (split; [assumption|]). reflexivity.
Qed.

Lemma POST_200_only_when_unlocked_and_accepted_witness :
  exists w',
    SecureLogin.POST healthy_env scenario_services
      (login_request "1.2.3.4" alice "correct horse") alice_four_world
    = (Resolved (SecureLogin.mkNextResponse
                   (SecureLogin.SuccessPayload alice_user (Some "session-token"))
                   200), w')
    /\ is_account_locked (login_attempts alice_four_world) (now healthy_env)
         alice "1.2.3.4" = false.
Proof.
  eexists. split; [vm_compute; reflexivity|].
  destruct (POST_200_only_when_unlocked_and_accepted healthy_env scenario_services
              (login_request "1.2.3.4" alice "correct horse") alice_four_world
              _ _ eq_refl eq_refl)
    as (email & password & r & u & Hreach & _ & Hunlocked & _).
  destruct Hreach as (_ & Hjson & _). inversion Hjson; subst.
  exact Hunlocked.
Defined.

Lemma recorded_event_length env row :
  (List.length (recorded_event env row) <= 1)%nat.
Proof. unfold recorded_event. destruct (store env InsertSecurityEvent); cbn; lia. Qed.

Lemma recorded_attempt_length env row :
  (List.length (recorded_attempt env row) <= 1)%nat.
Proof. unfold recorded_attempt. destruct (store env InsertLoginAttempt); cbn; lia. Qed.

Lemma recorded_event_Forall env row (P : SecurityEvent -> Prop) :
  P row -> Forall P (recorded_event env row).
Proof.
  intros H. unfold recorded_event.
  destruct (store env InsertSecurityEvent); repeat constructor; exact H.
Qed.

Lemma recorded_attempt_Forall env row (P : LoginAttempt -> Prop) :
  P row -> Forall P (recorded_attempt env row).
Proof.
  intros H. unfold recorded_attempt.
  destruct (store env InsertLoginAttempt); repeat constructor; exact H.
Qed.

(** X3. Whatever the request, the collaborators and the store do, the login
    route answers (it never rejects) with one of the statuses 200, 400, 401,
    429, 500, and both tables are only appended to: at most one attempt row
    and at most one event, each stamped with the current time; no existing
    row is removed or rewritten. *)
Theorem POST_always_answers_and_only_appends :
  forall (env : Env) (services : SecureLogin.Services)
         (req : ApiMiddleware.NextRequest) (w : World),
    exists resp w' rows events,
      SecureLogin.POST env services req w = (Resolved resp, w')
      /\ In (SecureLogin.status resp) [200; 400; 401; 429; 500]
      /\ login_attempts w' = login_attempts w ++ rows
      /\ security_events w' = security_events w ++ events
      /\ (List.length rows <= 1)%nat
      /\ (List.length events <= 1)%nat
      /\ Forall (fun r => la_attempted_at r = now env) rows
      /\ Forall (fun e => se_created_at e = now env) events.
Proof.
  intros env services req w.
  destruct (POST_follows_a_path env services req w) as (resp & w' & Hrun & Hpath).
  exists resp, w'.
  destruct Hpath as
    [ Hrate
    | body Hrate Hjson Hfalsy
    | email password lockout w' Hreach Hcheck Hlocked Hla Hse
    | email password r reason w' Hreach Hpass Hsign Herr Hins Hla Hse
    | email password r u w' Hreach Hpass Hsign Herr Hu Hins Hla Hse
    | rows w' Hfail Hla Hse ].
  - exists [], []. rewrite !app_nil_r. cbn. intuition.
  - exists [], []. rewrite !app_nil_r. cbn. intuition.
  - eexists [], _. rewrite app_nil_r.
    split; [exact Hrun|]. split; [cbn; intuition|]. split; [exact Hla|].
    split; [exact Hse|]. split; [cbn; lia|].
    split; [apply recorded_event_length|]. split; [constructor|].
    now apply recorded_event_Forall.
  - eexists _, _.
    split; [exact Hrun|]. split; [cbn; intuition|]. split; [exact Hla|].
    split; [exact Hse|]. split; [apply recorded_attempt_length|].
    split; [apply recorded_event_length|].
    split; [now apply recorded_attempt_Forall | now apply recorded_event_Forall].
  - eexists _, _.
    split; [exact Hrun|]. split; [cbn; intuition|]. split; [exact Hla|].
    split; [exact Hse|]. split; [apply recorded_attempt_length|].
    split; [apply recorded_event_length|].
    split; [now apply recorded_attempt_Forall | now apply recorded_event_Forall].
  - exists rows. eexists.
    split; [exact Hrun|]. split; [cbn; intuition|]. split; [exact Hla|].
    split; [exact Hse|].
    assert (Hrows : (List.length rows <= 1)%nat
                    /\ Forall (fun r => la_attempted_at r = now env) rows).
    { destruct Hfail; try (split; [cbn; lia | constructor]).
      split; [apply recorded_attempt_length | now apply recorded_attempt_Forall]. }
    destruct Hrows as (Hlen & Hstamp).
    split; [exact Hlen|]. split; [apply recorded_event_length|].
    split; [exact Hstamp | now apply recorded_event_Forall].
Qed.

(** ** The events of the route and Rule A *)

Lemma login_failure_count_app tbl1 tbl2 subject t :
  login_failure_count (tbl1 ++ tbl2) subject t
  = login_failure_count tbl1 subject t + login_failure_count tbl2 subject t.
Proof.
  unfold login_failure_count, subject_events.
  now rewrite filter_app, count_rows_app.
Qed.

Lemma login_failure_count_recorded env row subject t :
  se_user_id row = None \/ se_event_type row <> LOGIN_FAILURE ->
  login_failure_count (recorded_event env row) subject t = 0.
Proof.
  intros H. unfold recorded_event.
  destruct (store env InsertSecurityEvent); try reflexivity.
  unfold login_failure_count, subject_events, count_rows,
    SecurityMonitoring.user_id_is. cbn.
  destruct H as [H | H].
  - rewrite H. reflexivity.
  - destruct (se_user_id row) as [u|]; [|reflexivity].
    destruct (String.eqb u subject && _); [|reflexivity]. cbn.
    destruct (se_event_type row); try reflexivity. congruence.
Qed.

(** X4. The login route never adds to any subject's LOGIN_FAILURE count:
    it records failed password logins with a null subject, and the only
    event it records with a subject is LOGIN_SUCCESS.  So the count that
    Rule A of [detectSuspiciousActivity] compares with 5 is, for every
    subject and time, the same after a run of the route as before. *)
Theorem POST_never_feeds_rule_A :
  forall (env : Env) (services : SecureLogin.Services)
         (req : ApiMiddleware.NextRequest) (w w' : World)
         (resp : SecureLogin.NextResponse) (subject : string) (t : Z),
    SecureLogin.POST env services req w = (Resolved resp, w') ->
    login_failure_count (security_events w') subject t
    = login_failure_count (security_events w) subject t.
Proof.
  intros env services req w w' resp subject t Hpost.
  apply POST_path in Hpost.
  inversion Hpost; subst; try reflexivity;
    match goal with
    | H : security_events w' = _ |- _ => rewrite H
    end;
    rewrite login_failure_count_app, login_failure_count_recorded; try lia;
    cbn; first [now left | right; discriminate].
Qed.

Lemma POST_never_feeds_rule_A_witness :
  map se_event_type
      (security_events (world_after (alice_login "wrong") empty_world))
  = [LOGIN_FAILURE]
  /\ login_failure_count
       (security_events (world_after (alice_login "wrong") empty_world))
       "user-alice" t0
     = 0.
Proof.
  split; [vm_compute; reflexivity|].
  apply (POST_never_feeds_rule_A healthy_env scenario_services
           (login_request "1.2.3.4" alice "wrong") empty_world
           (world_after (alice_login "wrong") empty_world)
           invalid_credentials_response "user-alice" t0).
  vm_compute. reflexivity.
Defined.

(** ** What the route records for each verdict *)

(** X5. When the provider call rejects, with whatever error, the route
    answers the fixed 500 response, which carries nothing of that error;
    it writes no attempt row and records a LOGIN_FAILURE event with a null
    subject (appended when the event insert is carried out). *)
Theorem POST_provider_failure_is_generic_500 :
  forall (env : Env) (services : SecureLogin.Services)
         (req : ApiMiddleware.NextRequest) (email password e : string)
         (w : World),
    reaches_lockout_check services req email password ->
    passes_lockout_check env req email w ->
    SecureLogin.signInWithPassword services email password = Rejected e ->
    exists w',
      SecureLogin.POST env services req w = (Resolved internal_error_response, w')
      /\ login_attempts w' = login_attempts w
      /\ security_events w'
         = security_events w ++ recorded_event env (internal_error_event env req).
Proof.
  intros env services req email password e w Hreach Hpass Hsign.
  destruct (POST_follows_a_path env services req w) as (resp & w' & Hrun & Hpath).
  exists w'. invert_path Hpath.
  split; [exact Hrun|]. split; [|assumption].
  match goal with H : login_attempts w' = _ |- _ => rewrite H end.
  apply app_nil_r.
Qed.

Lemma POST_provider_failure_is_generic_500_witness :
  exists w',
    SecureLogin.POST healthy_env unreachable_provider
      (login_request "1.2.3.4" alice "correct horse") empty_world
    = (Resolved internal_error_response, w')
    /\ login_attempts w' = []
    /\ map se_user_id (security_events w') = [None].
Proof.
  destruct (POST_provider_failure_is_generic_500 healthy_env unreachable_provider
              (login_request "1.2.3.4" alice "correct horse")
              alice "correct horse" "connect ETIMEDOUT 10.0.0.7:443" empty_world)
    as (w' & Hpost & Hla & Hse).
  - repeat split; discriminate.
  - apply passes_lockout_check_iff. split; reflexivity.
  - reflexivity.
  - exists w'. split; [exact Hpost|]. split; [exact Hla|].
    rewrite Hse. reflexivity.
Defined.

(** X6. When the provider refuses the credentials, for whatever reason, the
    route answers the same fixed 401 response; the provider's reason goes
    only into the metadata of the LOGIN_FAILURE event, which has a null
    subject, and the attempt row is a failure of the pair. *)
Theorem POST_refusal_is_uniform_401 :
  forall (env : Env) (services : SecureLogin.Services)
         (req : ApiMiddleware.NextRequest) (email password reason : string)
         (r : SecureLogin.AuthTokenResponse) (w : World),
    reaches_lockout_check services req email password ->
    passes_lockout_check env req email w ->
    SecureLogin.signInWithPassword services email password = Resolved r ->
    SecureLogin.auth_error r = Some reason ->
    store env InsertLoginAttempt <> Rejects ->
    exists w',
      SecureLogin.POST env services req w
      = (Resolved invalid_credentials_response, w')
      /\ login_attempts w'
         = login_attempts w
           ++ recorded_attempt env (route_attempt env req email false)
      /\ security_events w'
         = security_events w
           ++ recorded_event env
                (route_event env req None LOGIN_FAILURE
                   [("email", MString email); ("reason", MString reason)]).
Proof.
  intros env services req email password reason r w
         Hreach Hpass Hsign Herr Hins.
  destruct (POST_follows_a_path env services req w) as (resp & w' & Hrun & Hpath).
  exists w'. invert_path Hpath.
  assert (r0 = r) by congruence. subst r0.
  assert (reason0 = reason) by congruence. subst reason0.
  split; [exact Hrun|]. split; assumption.
Qed.

Lemma POST_refusal_is_uniform_401_witness :
  exists w',
    SecureLogin.POST healthy_env scenario_services
      (login_request "1.2.3.4" alice "wrong") empty_world
    = (Resolved invalid_credentials_response, w')
    /\ map la_successful (login_attempts w') = [false]
    /\ map se_metadata (security_events w')
       = [[("email", MString alice);
           ("reason", MString "Invalid login credentials")]].
Proof.
  destruct (POST_refusal_is_uniform_401 healthy_env scenario_services
              (login_request "1.2.3.4" alice "wrong") alice "wrong"
              "Invalid login credentials"
              (SecureLogin.mkAuth None None (Some "Invalid login credentials"))
              empty_world)
    as (w' & Hpost & Hla & Hse).
  - repeat split; discriminate.
  - apply passes_lockout_check_iff. split; reflexivity.
  - reflexivity.
  - reflexivity.
  - discriminate.
  - exists w'. split; [exact Hpost|]. rewrite Hla, Hse. split; reflexivity.
Defined.

(** X7. When the provider accepts the credentials, the route answers 200
    with the provider's user and session and records a LOGIN_SUCCESS event
    whose subject is that user's id, with the method and MFA flag as
    metadata; the attempt row is a success of the pair. *)
Theorem POST_success_records_the_subject :
  forall (env : Env) (services : SecureLogin.Services)
         (req : ApiMiddleware.NextRequest) (email password : string)
         (r : SecureLogin.AuthTokenResponse) (u : SecureLogin.User) (w : World),
    reaches_lockout_check services req email password ->
    passes_lockout_check env req email w ->
    SecureLogin.signInWithPassword services email password = Resolved r ->
    SecureLogin.auth_error r = None ->
    SecureLogin.user r = Some u ->
    store env InsertLoginAttempt <> Rejects ->
    exists w',
      SecureLogin.POST env services req w
      = (Resolved (SecureLogin.mkNextResponse
                     (SecureLogin.SuccessPayload u (SecureLogin.session r)) 200),
         w')
      /\ login_attempts w'
         = login_attempts w
           ++ recorded_attempt env (route_attempt env req email true)
      /\ security_events w'
         = security_events w
           ++ recorded_event env
                (route_event env req (Some (SecureLogin.id u)) LOGIN_SUCCESS
                   [("method", MString "password"); ("mfa_used", MBool false)]).
Proof.
  intros env services req email password r u w
         Hreach Hpass Hsign Herr Hu Hins.
  destruct (POST_follows_a_path env services req w) as (resp & w' & Hrun & Hpath).
  exists w'. invert_path Hpath.
  assert (r0 = r) by congruence. subst r0.
  assert (u0 = u) by congruence. subst u0.
  split; [exact Hrun|]. split; assumption.
Qed.

Lemma POST_success_records_the_subject_witness :
  exists w',
    SecureLogin.POST healthy_env scenario_services
      (login_request "1.2.3.4" alice "correct horse") alice_three_world
    = (Resolved (SecureLogin.mkNextResponse
                   (SecureLogin.SuccessPayload alice_user (Some "session-token"))
                   200), w')
    /\ map se_user_id (security_events w') = [Some "user-alice"]
    /\ map se_event_type (security_events w') = [LOGIN_SUCCESS].
Proof.
  destruct (POST_success_records_the_subject healthy_env scenario_services
              (login_request "1.2.3.4" alice "correct horse")
              alice "correct horse"
              (SecureLogin.mkAuth (Some alice_user) (Some "session-token") None)
              alice_user alice_three_world)
    as (w' & Hpost & Hla & Hse).
  - repeat split; discriminate.
  - apply passes_lockout_check_iff. split; vm_compute; reflexivity.
  - reflexivity.
  - reflexivity.
  - reflexivity.
  - discriminate.
  - exists w'. split; [exact Hpost|]. rewrite Hse. split; reflexivity.
Defined.

(** ** The lockout over time *)

(** X8. With the ledger left as it is, a pair that is not locked at some
    time is not locked at any later time: the lock only fades, it never
    comes back without a new failure. *)
Theorem unlocked_stays_unlocked :
  forall (tbl : list LoginAttempt) (t t' : Z) (identity originIp : string),
    t <= t' ->
    is_account_locked tbl t identity originIp = false ->
    is_account_locked tbl t' identity originIp = false.
Proof.
  intros tbl t t' identity originIp Hle Hunlocked.
  unfold is_account_locked in *.
  apply Z.leb_gt in Hunlocked. apply Z.leb_gt.
  eapply Z.le_lt_trans; [|exact Hunlocked].
  apply count_rows_le. intros r _.
  rewrite !andb_true_iff, !Z.ltb_lt. intuition lia.
Qed.

Lemma unlocked_stays_unlocked_witness :
  is_account_locked five_failures (t0 + minutes 14) alice "1.2.3.4" = false
  /\ is_account_locked five_failures (t0 + minutes 30) alice "1.2.3.4" = false.
Proof.
  assert (H : is_account_locked five_failures (t0 + minutes 14) alice "1.2.3.4"
              = false) by (vm_compute; reflexivity).
  split; [exact H|].
  apply (unlocked_stays_unlocked five_failures (t0 + minutes 14)
           (t0 + minutes 30) alice "1.2.3.4"); [vm_compute; discriminate | exact H].
Defined.

(** ** The utilities' lockout check under store failures *)

Lemma util_checkAccountLockout_tables env identity originIp w r w' :
  AuthSecurity.checkAccountLockout env identity originIp w = (r, w') ->
  login_attempts w' = login_attempts w /\ security_events w' = security_events w.
Proof.
  unfold AuthSecurity.checkAccountLockout, try_catch, bind,
    rpc_is_account_locked, select_login_attempts, request, console_error, ret.
  destruct (store env RpcIsAccountLocked); cbn [error data];
    [destruct (is_account_locked _ _ _ _);
       [|destruct (store env SelectLoginAttempts)]| |];
    intros H; inversion H; subst; cbn; split; reflexivity.
Qed.

(** X9. The utilities' [checkAccountLockout] fails open: when the lockout
    query comes back with an error or rejects, it reports locked: false,
    without message or remaining attempts, whatever the ledger holds, and
    leaves both tables untouched.  (The route's own check reports locked
    in that case.) *)
Theorem util_checkAccountLockout_fails_open :
  forall (env : Env) (identity originIp : string) (w : World),
    store env RpcIsAccountLocked <> Fulfils ->
    exists w',
      AuthSecurity.checkAccountLockout env identity originIp w
      = (Resolved (AuthSecurity.mkResult false None None), w')
      /\ login_attempts w' = login_attempts w
      /\ security_events w' = security_events w.
Proof.
  intros env identity originIp w Hrpc.
  unfold AuthSecurity.checkAccountLockout, try_catch, bind,
    rpc_is_account_locked, request, console_error, ret.
  destruct (store env RpcIsAccountLocked); [congruence| |];
    eexists; (split; [reflexivity|]); split; reflexivity.
Qed.

Lemma util_checkAccountLockout_fails_open_witness :
  is_account_locked (login_attempts alice_locked_world) t0 alice "1.2.3.4" = true
  /\ exists w',
       AuthSecurity.checkAccountLockout (mkEnv t0 lockout_query_erroring)
         alice "1.2.3.4" alice_locked_world
       = (Resolved (AuthSecurity.mkResult false None None), w').
Proof.
  split; [vm_compute; reflexivity|].
  destruct (util_checkAccountLockout_fails_open (mkEnv t0 lockout_query_erroring)
              alice "1.2.3.4" alice_locked_world) as (w' & Hrun & _).
  - discriminate.
  - exists w'. exact Hrun.
Defined.

(** X10. When the lockout query says "not locked" but the query for the
    remaining attempts comes back with an error, the utilities'
    [checkAccountLockout] reports remainingAttempts: 5, the full allowance,
    whatever the number of recent failures; when that query rejects, it
    reports no remaining attempts at all.  In both cases locked is false. *)
Theorem util_checkAccountLockout_remaining_on_query_failure :
  forall (env : Env) (identity originIp : string) (w : World),
    store env RpcIsAccountLocked = Fulfils ->
    is_account_locked (login_attempts w) (now env) identity originIp = false ->
    store env SelectLoginAttempts <> Fulfils ->
    exists w',
      AuthSecurity.checkAccountLockout env identity originIp w
      = (Resolved
           (AuthSecurity.mkResult false None
              (match store env SelectLoginAttempts with
               | Rejects => None
               | _ => Some 5
               end)), w').
Proof.
  intros env identity originIp w Hrpc Hunlocked Hsel.
  unfold AuthSecurity.checkAccountLockout, try_catch, bind,
    rpc_is_account_locked, select_login_attempts, request, console_error, ret.
  rewrite Hrpc. cbn [error data]. rewrite Hunlocked.
  destruct (store env SelectLoginAttempts); [congruence| |];
    eexists; reflexivity.
Qed.

Lemma util_checkAccountLockout_remaining_on_query_failure_witness :
  failures_between (login_attempts alice_four_world) (t0 - WINDOW) t0
    alice "1.2.3.4" = 4
  /\ exists w',
       AuthSecurity.checkAccountLockout (mkEnv t0 select_erroring)
         alice "1.2.3.4" alice_four_world
       = (Resolved (AuthSecurity.mkResult false None (Some 5)), w').
Proof.
  split; [vm_compute; reflexivity|].
  destruct (util_checkAccountLockout_remaining_on_query_failure
              (mkEnv t0 select_erroring) alice "1.2.3.4" alice_four_world)
    as (w' & Hrun).
  - reflexivity.
  - vm_compute. reflexivity.
  - discriminate.
  - exists w'. exact Hrun.
Defined.

Lemma util_checkAccountLockout_reads_the_ledger env identity originIp w1 w2 :
  login_attempts w1 = login_attempts w2 ->
  fst (AuthSecurity.checkAccountLockout env identity originIp w1)
  = fst (AuthSecurity.checkAccountLockout env identity originIp w2).
Proof.
  intros Heq.
  unfold AuthSecurity.checkAccountLockout, try_catch, bind,
    rpc_is_account_locked, select_login_attempts, request, console_error, ret.
  cbn beta. rewrite Heq.
  destruct (store env RpcIsAccountLocked); cbn [error data];
    [destruct (is_account_locked _ _ _ _);
       [|destruct (store env SelectLoginAttempts)]| |];
    cbn; rewrite ?Heq; reflexivity.
Qed.

(** X11. The utilities' [checkAccountLockout] never throws and never writes
    to either table, whatever the store does; evaluating it a second time
    right after the first gives the same decision. *)
Theorem util_checkAccountLockout_is_repeatable :
  forall (env : Env) (identity originIp : string) (w : World),
    exists decision w1 w2,
      AuthSecurity.checkAccountLockout env identity originIp w
      = (Resolved decision, w1)
      /\ AuthSecurity.checkAccountLockout env identity originIp w1
         = (Resolved decision, w2)
      /\ login_attempts w1 = login_attempts w
      /\ security_events w1 = security_events w.
Proof.
  intros env identity originIp w.
  assert (Hnever : forall w0, exists d w0',
             AuthSecurity.checkAccountLockout env identity originIp w0
             = (Resolved d, w0')).
  { intros w0.
    unfold AuthSecurity.checkAccountLockout, try_catch, bind,
      rpc_is_account_locked, select_login_attempts, request, console_error, ret.
    destruct (store env RpcIsAccountLocked); cbn [error data];
      [destruct (is_account_locked _ _ _ _);
         [|destruct (store env SelectLoginAttempts)]| |];
      do 2 eexists; reflexivity. }
  destruct (Hnever w) as (d & w1 & Hrun1).
  destruct (Hnever w1) as (d' & w2 & Hrun2).
  destruct (util_checkAccountLockout_tables _ _ _ _ _ _ Hrun1) as (Hla & Hse).
  pose proof (util_checkAccountLockout_reads_the_ledger env identity originIp
                w1 w Hla) as Hsame.
  rewrite Hrun1, Hrun2 in Hsame. cbn in Hsame. inversion Hsame; subst d'.
  exists d, w1, w2. auto.
Qed.

(** ** Recording, counting, clearing *)

Lemma recent_failures_snoc tbl row t identity originIp :
  recent_failures (tbl ++ [row]) t identity originIp
  = recent_failures tbl t identity originIp
    + (if failure_of_pairb identity originIp row
          && in_trailing_window t WINDOW (la_attempted_at row)
       then 1 else 0).
Proof.
  unfold recent_failures. rewrite count_rows_app, count_rows_cons.
  replace (count_rows
             (fun r => failure_of_pairb identity originIp r
                       && in_trailing_window t WINDOW (la_attempted_at r)) [])
    with 0 by reflexivity.
  lia.
Qed.

Lemma now_in_trailing_window t : in_trailing_window t WINDOW t = true.
Proof.
  unfold in_trailing_window, WINDOW, minutes.
  apply andb_true_iff. split; [apply Z.ltb_lt | apply Z.leb_le]; lia.
Qed.

(** X12. A recorded attempt is seen by the very next count: after the
    utilities' [logLoginAttempt] whose insert is carried out, the number of
    recent failures is one more for the pair of the attempt if it failed,
    and unchanged for every other pair and for a successful attempt. *)
Theorem logged_attempt_is_counted_at_once :
  forall (env : Env) (d : AuthSecurity.LoginAttemptData) (w : World),
    store env InsertLoginAttempt = Fulfils ->
    exists w',
      AuthSecurity.logLoginAttempt env d w = (Resolved tt, w')
      /\ forall identity originIp,
           recent_failures (login_attempts w') (now env) identity originIp
           = recent_failures (login_attempts w) (now env) identity originIp
             + (if String.eqb (AuthSecurity.email d) identity
                   && String.eqb (AuthSecurity.ipAddress d) originIp
                   && negb (AuthSecurity.successful d)
                then 1 else 0).
Proof.
  intros env d w Hins.
  unfold AuthSecurity.logLoginAttempt, try_catch, bind, insert_login_attempt,
    request, ret.
  rewrite Hins. eexists. split; [reflexivity|].
  intros identity originIp. cbn [login_attempts].
  rewrite recent_failures_snoc. unfold failure_of_pairb.
  cbn [la_email la_ip_address la_successful la_attempted_at].
  now rewrite now_in_trailing_window, andb_true_r.
Qed.

Lemma logged_attempt_is_counted_at_once_witness :
  exists w',
    AuthSecurity.logLoginAttempt healthy_env
      (AuthSecurity.mkData alice "1.2.3.4" "Mozilla/5.0" false) alice_three_world
    = (Resolved tt, w')
    /\ recent_failures (login_attempts w') (now healthy_env) alice "1.2.3.4" = 4
    /\ recent_failures (login_attempts w') (now healthy_env) alice "9.9.9.9" = 0.
Proof.
  destruct (logged_attempt_is_counted_at_once healthy_env
              (AuthSecurity.mkData alice "1.2.3.4" "Mozilla/5.0" false)
              alice_three_world eq_refl) as (w' & Hrun & Hcount).
  exists w'. split; [exact Hrun|].
  split; [rewrite (Hcount alice "1.2.3.4") | rewrite (Hcount alice "9.9.9.9")];
    vm_compute; reflexivity.
Defined.

(** X13. The failure that reaches the threshold locks the pair itself: after
    the route has answered 401 to a refused login and written its row, the
    pair is locked exactly when it already had at least 4 failures in the
    trailing 15 minutes. *)
Theorem refused_login_locks_at_the_fifth_failure :
  forall (env : Env) (services : SecureLogin.Services)
         (req : ApiMiddleware.NextRequest) (email password reason : string)
         (r : SecureLogin.AuthTokenResponse) (w : World),
    stamped_by (now env) (login_attempts w) ->
    reaches_lockout_check services req email password ->
    passes_lockout_check env req email w ->
    SecureLogin.signInWithPassword services email password = Resolved r ->
    SecureLogin.auth_error r = Some reason ->
    store env InsertLoginAttempt = Fulfils ->
    exists w',
      SecureLogin.POST env services req w
      = (Resolved invalid_credentials_response, w')
      /\ (is_account_locked (login_attempts w') (now env) email
            (ApiMiddleware.getClientIp req) = true
          <-> 4 <= recent_failures (login_attempts w) (now env) email
                     (ApiMiddleware.getClientIp req)).
Proof.
  intros env services req email password reason r w
         Hst Hreach Hpass Hsign Herr Hins.
  destruct (POST_follows_a_path env services req w) as (resp & w' & Hrun & Hpath).
  exists w'. invert_path Hpath.
  split; [exact Hrun|].
  match goal with H : login_attempts w' = _ |- _ => rewrite H end.
  unfold recorded_attempt. rewrite Hins.
  rewrite is_account_locked_iff
    by (apply stamped_by_snoc; [exact Hst | cbn; lia]).
  rewrite recent_failures_snoc. unfold failure_of_pairb, route_attempt.
  cbn [la_email la_ip_address la_successful la_attempted_at].
  rewrite !String.eqb_refl, now_in_trailing_window. cbn [andb negb].
  unfold MAX_FAILURES. lia.
Qed.

Lemma refused_login_locks_at_the_fifth_failure_witness :
  exists w',
    SecureLogin.POST healthy_env scenario_services
      (login_request "1.2.3.4" alice "wrong") alice_four_world
    = (Resolved invalid_credentials_response, w')
    /\ is_account_locked (login_attempts w') t0 alice "1.2.3.4" = true.
Proof.
  destruct (refused_login_locks_at_the_fifth_failure healthy_env
              scenario_services (login_request "1.2.3.4" alice "wrong")
              alice "wrong" "Invalid login credentials"
              (SecureLogin.mkAuth None None (Some "Invalid login credentials"))
              alice_four_world)
    as (w' & Hpost & Hlock).
  - unfold stamped_by. cbn. repeat constructor; cbn; unfold t0; lia.
  - repeat split; discriminate.
  - apply passes_lockout_check_iff. split; vm_compute; reflexivity.
  - reflexivity.
  - reflexivity.
  - reflexivity.
  - exists w'. split; [exact Hpost|]. apply Hlock. vm_compute. discriminate.
Defined.

(** X14. [clearFailedAttempts] never throws.  When its delete is carried
    out, the ledger it leaves is the old one without the failed rows of the
    pair: the pair's successful rows and every row of another identity or
    origin IP stay, in their order; the pair is then not locked at any time.
    When the delete fails, the ledger is unchanged. *)
Theorem clearFailedAttempts_removes_only_pair_failures :
  forall (env : Env) (identity originIp : string) (w : World),
    exists w',
      AuthSecurity.clearFailedAttempts env identity originIp w
      = (Resolved tt, w')
      /\ security_events w' = security_events w
      /\ login_attempts w'
         = match store env DeleteLoginAttempts with
           | Fulfils => without_failures_of identity originIp (login_attempts w)
           | _ => login_attempts w
           end
      /\ forall t,
           is_account_locked
             (without_failures_of identity originIp (login_attempts w))
             t identity originIp = false.
Proof.
  intros env identity originIp w.
  unfold AuthSecurity.clearFailedAttempts, try_catch, bind,
    delete_login_attempts, request, console_error, ret.
  assert (Hunlocked : forall t,
            is_account_locked
              (without_failures_of identity originIp (login_attempts w))
              t identity originIp = false).
  { intros t. unfold is_account_locked, without_failures_of, count_rows.
    rewrite filter_filter.
    match goal with
    | |- (5 <=? Z.of_nat (List.length (filter ?f ?l))) = false =>
        assert (Hnone : forall r, f r = false)
    end.
    { intros r. unfold failure_of_pairb. rewrite eqb_false_r.
      destruct (String.eqb (la_email r) identity);
        destruct (String.eqb (la_ip_address r) originIp);
        destruct (la_successful r); reflexivity. }
    match goal with
    | |- (5 <=? Z.of_nat (List.length (filter ?f ?l))) = false =>
        replace (filter f l) with (@nil LoginAttempt); [reflexivity|]
    end.
    induction (login_attempts w) as [|r l IH]; [reflexivity|].
    cbn. rewrite Hnone. exact IH. }
  destruct (store env DeleteLoginAttempts); eexists;
    (split; [reflexivity|]); (split; [reflexivity|]);
    (split; [|exact Hunlocked]); reflexivity.
Qed.

(** ** The event recorder *)

Lemma shouldAlert_critical kind :
  SecurityMonitoring.shouldAlert kind = true <-> critical kind.
Proof.
  unfold critical. destruct kind; cbn; split; intros H;
    try reflexivity; try discriminate; try tauto;
    repeat (destruct H as [H | H]; try discriminate).
Qed.

(** X15. [logSecurityEvent] never throws and never touches the attempts
    ledger.  The event row is appended exactly when the insert is carried
    out.  For a critical event type (suspicious activity, account locked,
    unauthorized access, data deletion) the alert line is written whenever
    the insert does not reject, also when it comes back with an error; when
    the insert rejects, neither the row nor the alert is produced and only
    the failure is logged.  (Console lines are kept by their fixed label;
    the alert's is written without its leading symbol.) *)
Theorem logSecurityEvent_swallows_and_alerts :
  forall (env : Env) (userId : option string) (kind : SecurityEventType)
         (metadata : SecurityEventMetadata) (ipAddress userAgent : string)
         (w : World),
    exists w',
      SecurityMonitoring.logSecurityEvent env userId kind metadata
        ipAddress userAgent w = (Resolved tt, w')
      /\ login_attempts w' = login_attempts w
      /\ security_events w'
         = security_events w
           ++ recorded_event env
                (mkSecurityEvent userId kind metadata ipAddress userAgent (now env))
      /\ console w'
         = console w
           ++ match store env InsertSecurityEvent with
              | Rejects => ["Failed to log security event:"]
              | _ => event_log_lines kind
              end
      /\ (In "SECURITY ALERT:" (event_log_lines kind) <-> critical kind).
Proof.
  intros env userId kind metadata ipAddress userAgent w.
  assert (Halert : In "SECURITY ALERT:" (event_log_lines kind) <-> critical kind).
  { unfold event_log_lines.
    destruct (SecurityMonitoring.shouldAlert kind) eqn:Hcrit.
    - split; [intros _; now apply shouldAlert_critical | intros _; now left].
    - split.
      + intros [H | []]. cbn in H. discriminate H.
      + intros Hc. apply shouldAlert_critical in Hc. congruence. }
  unfold SecurityMonitoring.logSecurityEvent, try_catch, bind,
    insert_security_event, request, recorded_event, event_log_lines,
    SecurityMonitoring.alertSecurityTeam, console_log, console_error, ret.
  destruct (store env InsertSecurityEvent);
    destruct (SecurityMonitoring.shouldAlert kind) eqn:Hcrit; cbn;
    eexists; (split; [reflexivity|]); cbn;
    rewrite <- ?app_assoc, ?app_nil_r; cbn;
    (split; [reflexivity|]); (split; [reflexivity|]);
    (split; [reflexivity|]); unfold event_log_lines in Halert;
    rewrite Hcrit in Halert; exact Halert.
Qed.

(** No two security event types share their string value, so the
    comparison of event types by value that the queries make is equality
    of the types. *)
Lemma event_type_value_injective :
  forall a b : SecurityEventType,
    (event_type_value a = event_type_value b -> a = b)
    /\ (SecurityEventType_eqb a b = true <-> a = b).
Proof.
  intros a b.
  assert (Hinj : event_type_value a = event_type_value b -> a = b)
    by (destruct a, b; cbn; intros H; first [reflexivity | discriminate H]).
  split; [exact Hinj|]. unfold SecurityEventType_eqb. rewrite String.eqb_eq.
  split; [exact Hinj | now intros ->].
Qed.

(** X16. [detectSuspiciousActivity] has no handler: when the event query
    rejects, the rejection reaches the caller; when the query comes back
    with an error, the subject is reported not suspicious whatever the
    events are.  In every case the world is left as it was. *)
Theorem detectSuspiciousActivity_on_store_failure :
  forall (env : Env) (subject ipAddress : string) (w : World),
    store env SelectSecurityEvents <> Fulfils ->
    SecurityMonitoring.detectSuspiciousActivity env subject ipAddress w
    = (match store env SelectSecurityEvents with
       | Rejects => Rejected store_error
       | _ => Resolved (SecurityMonitoring.mkVerdict false None)
       end, w).
Proof.
  intros env subject ipAddress w Hsel.
  unfold SecurityMonitoring.detectSuspiciousActivity, bind,
    select_security_events, request, ret.
  destruct (store env SelectSecurityEvents); [congruence | reflexivity | reflexivity].
Qed.

Lemma detectSuspiciousActivity_on_store_failure_witness :
  SecurityMonitoring.detectSuspiciousActivity (mkEnv t0 unreachable_store)
    "user-alice" "4.4.4.4" (mkWorld [] failing_events [])
  = (Rejected store_error, mkWorld [] failing_events []).
Proof.
  apply (detectSuspiciousActivity_on_store_failure (mkEnv t0 unreachable_store)
           "user-alice" "4.4.4.4" (mkWorld [] failing_events [])).
  discriminate.
Defined.

(** ** Ordered, bounded queries *)

Section NewestFirst.
Context {A : Type} (stamp : A -> Z).

Lemma insert_newest_first_perm x l :
  Permutation (insert_newest_first stamp x l) (x :: l).
Proof.
  induction l as [|y l IH]; cbn; [reflexivity|].
  destruct (stamp y <=? stamp x); [reflexivity|].
  rewrite IH. apply perm_swap.
Qed.

Lemma newest_first_perm l : Permutation (newest_first stamp l) l.
Proof.
  induction l as [|x l IH]; cbn; [reflexivity|].
  rewrite insert_newest_first_perm. now constructor.
Qed.

Lemma insert_newest_first_sorted x l :
  StronglySorted (at_least_as_recent stamp) l ->
  StronglySorted (at_least_as_recent stamp) (insert_newest_first stamp x l).
Proof.
  induction l as [|y l IH]; intros Hs; cbn.
  - repeat constructor.
  - inversion Hs as [|y' l' Hl Hy]; subst.
    destruct (stamp y <=? stamp x) eqn:E.
    + apply Z.leb_le in E. constructor; [exact Hs|].
      constructor; [exact E|].
      rewrite Forall_forall in *. intros z Hz. specialize (Hy z Hz).
      unfold at_least_as_recent in *. lia.
    + apply Z.leb_gt in E. constructor; [now apply IH|].
      rewrite (insert_newest_first_perm x l). constructor; [|exact Hy].
      unfold at_least_as_recent. lia.
Qed.

Lemma newest_first_sorted l :
  StronglySorted (at_least_as_recent stamp) (newest_first stamp l).
Proof.
  induction l as [|x l IH]; cbn; [constructor|].
  now apply insert_newest_first_sorted.
Qed.

Lemma in_firstn (x : A) n l : In x (firstn n l) -> In x l.
Proof.
  intros H. rewrite <- (firstn_skipn n l). apply in_or_app. now left.
Qed.

Lemma in_skipn (x : A) n l : In x (skipn n l) -> In x l.
Proof.
  intros H. rewrite <- (firstn_skipn n l). apply in_or_app. now right.
Qed.

Lemma sorted_firstn n l :
  StronglySorted (at_least_as_recent stamp) l ->
  StronglySorted (at_least_as_recent stamp) (firstn n l).
Proof.
  revert n. induction l as [|x l IH]; intros n Hs; destruct n; cbn;
    try constructor.
  - inversion Hs; subst. now apply IH.
  - inversion Hs as [|x' l' Hl Hx]; subst.
    rewrite Forall_forall in *. intros z Hz. apply Hx.
    exact (in_firstn _ _ _ Hz).
Qed.

Lemma sorted_skipn_older n l :
  StronglySorted (at_least_as_recent stamp) l ->
  none_more_recent stamp (firstn n l) (skipn n l).
Proof.
  unfold none_more_recent.
  revert n. induction l as [|x l IH]; intros n Hs; destruct n; cbn.
  - constructor.
  - constructor.
  - rewrite Forall_forall. intros; constructor.
  - inversion Hs as [|x' l' Hl Hx]; subst.
    specialize (IH n Hl). rewrite Forall_forall in *.
    intros old Hold. constructor; [|now apply IH].
    apply Hx. exact (in_skipn _ _ _ Hold).
Qed.
End NewestFirst.

Lemma firstn_bound {A : Type} n (l : list A) :
  (List.length (firstn n l) <= n)%nat
  /\ (skipn n l <> [] -> List.length (firstn n l) = n).
Proof.
  split; [apply firstn_le_length|].
  intros Hrest. rewrite length_firstn.
  destruct (Nat.le_gt_cases (List.length l) n) as [Hle | Hgt]; [|lia].
  rewrite (skipn_all2 l Hle) in Hrest. congruence.
Qed.

(** X17. [getLoginHistory] never throws and leaves both tables as they
    were.  It returns at most [limit] rows (10 by default), all of them
    attempts of the given identity (from any origin IP, successful or not),
    newest first; when the query is carried out, the rows it leaves out are
    no more recent than any row it returns and are left out only because
    the limit is reached; when the query fails it returns the empty list. *)
Theorem getLoginHistory_newest_first_bounded :
  forall (env : Env) (email : string) (limit : option nat) (w : World),
    let bound := match limit with Some n => n | None => 10%nat end in
    exists rows w',
      LoginForensics.getLoginHistory env email limit w = (Resolved rows, w')
      /\ login_attempts w' = login_attempts w
      /\ security_events w' = security_events w
      /\ (List.length rows <= bound)%nat
      /\ Forall (fun r => In r (login_attempts w) /\ la_email r = email) rows
      /\ StronglySorted (at_least_as_recent la_attempted_at) rows
      /\ (store env SelectLoginAttempts <> Fulfils -> rows = [])
      /\ (store env SelectLoginAttempts = Fulfils ->
          exists left_out,
            Permutation (rows ++ left_out)
              (filter (fun r => String.eqb (la_email r) email) (login_attempts w))
            /\ none_more_recent la_attempted_at rows left_out
            /\ (left_out <> [] -> List.length rows = bound)).
Proof.
  intros env email limit w bound.
  unfold LoginForensics.getLoginHistory, try_catch, bind,
    select_login_attempts_newest, request, console_error, ret.
  fold bound.
  destruct (store env SelectLoginAttempts) eqn:Hsel; cbn [error data].
  - set (matching := filter (fun r => String.eqb (la_email r) email)
                       (login_attempts w)).
    set (sorted := newest_first la_attempted_at matching).
    do 2 eexists. split; [reflexivity|].
    split; [reflexivity|]. split; [reflexivity|].
    split; [apply firstn_bound|].
    split.
    { rewrite Forall_forall. intros r Hr. apply in_firstn in Hr.
      apply (Permutation_in _ (newest_first_perm la_attempted_at matching)) in Hr.
      apply filter_In in Hr. destruct Hr as (Hin & He).
      split; [exact Hin | now apply String.eqb_eq]. }
    split; [apply sorted_firstn, newest_first_sorted|].
    split; [congruence|]. intros _.
    exists (skipn bound sorted). split; [|split].
    + rewrite firstn_skipn. apply newest_first_perm.
    + apply sorted_skipn_older, newest_first_sorted.
    + apply firstn_bound.
  - do 2 eexists. split; [reflexivity|].
    split; [reflexivity|]. split; [reflexivity|].
    split; [cbn; lia|]. split; [constructor|]. split; [constructor|].
    split; [reflexivity | congruence].
  - do 2 eexists. split; [reflexivity|].
    split; [reflexivity|]. split; [reflexivity|].
    split; [cbn; lia|]. split; [constructor|]. split; [constructor|].
    split; [reflexivity | congruence].
Qed.


(** ** Checks on a login *)

Lemma checkSuspiciousIP_run env originIp w :
  exists flag w',
    AuthSecurity.checkSuspiciousIP env originIp w = (Resolved flag, w')
    /\ login_attempts w' = login_attempts w
    /\ security_events w' = security_events w
    /\ (store env SelectLoginAttempts = Fulfils ->
        w' = w
        /\ flag = (10 <? AuthSecurity.unique_size
                          (map la_email
                             (filter (fun row =>
                                        String.eqb (la_ip_address row) originIp
                                        && Bool.eqb (la_successful row) false
                                        && (now env - 60 * 60 * 1000
                                            <=? la_attempted_at row))
                                     (login_attempts w))))).
Proof.
  unfold AuthSecurity.checkSuspiciousIP, try_catch, bind,
    select_login_attempts, request, console_error, ret.
  destruct (store env SelectLoginAttempts); cbn [data];
    do 2 eexists; (split; [reflexivity|]); (split; [reflexivity|]);
    (split; [reflexivity|]); intros H; try discriminate H.
  split; reflexivity.
Qed.

(** X19. [checkSuspiciousLogin] never throws and leaves both tables as they
    were; it reports suspicious exactly when it gives at least one reason.
    When the event query rejects, it reports not suspicious with no reason,
    whatever the ledger holds: the check of the origin IP is then never
    made. *)
Theorem checkSuspiciousLogin_never_throws :
  forall (env : Env) (userId ipAddress userAgent : string) (w : World),
    exists result w',
      LoginForensics.checkSuspiciousLogin env userId ipAddress userAgent w
      = (Resolved result, w')
      /\ login_attempts w' = login_attempts w
      /\ security_events w' = security_events w
      /\ (LoginForensics.suspicious result = true
          <-> LoginForensics.reasons result <> [])
      /\ (store env SelectSecurityEvents = Rejects ->
          result = LoginForensics.mkSuspiciousLogin false []).
Proof.
  intros env userId ipAddress userAgent w.
  unfold LoginForensics.checkSuspiciousLogin, try_catch.
  unfold bind at 1. unfold select_security_events_limit, request.
  destruct (store env SelectSecurityEvents) eqn:Hsel.
  - unfold bind at 1. unfold select_security_events, request. rewrite Hsel.
    unfold bind at 1.
    destruct (checkSuspiciousIP_run env ipAddress w)
      as (flag & w' & -> & Hla & Hse & _).
    unfold ret. do 2 eexists. split; [reflexivity|].
    split; [exact Hla|]. split; [exact Hse|]. split; [|discriminate].
    cbn [LoginForensics.suspicious LoginForensics.reasons].
    match goal with
    | |- LoginForensics.non_empty ?l = true <-> _ =>
        destruct l; cbn; split; congruence
    end.
  - unfold bind at 1. unfold select_security_events, request. rewrite Hsel.
    unfold bind at 1.
    destruct (checkSuspiciousIP_run env ipAddress w)
      as (flag & w' & -> & Hla & Hse & _).
    unfold ret. do 2 eexists. split; [reflexivity|].
    split; [exact Hla|]. split; [exact Hse|]. split; [|discriminate].
    cbn [LoginForensics.suspicious LoginForensics.reasons].
    match goal with
    | |- LoginForensics.non_empty ?l = true <-> _ =>
        destruct l; cbn; split; congruence
    end.
  - unfold bind, console_error, ret. do 2 eexists. split; [reflexivity|].
    split; [reflexivity|]. split; [reflexivity|].
    split; [cbn; split; congruence | reflexivity].
Qed.







(** ** Request metadata *)

Lemma token_char_not_space c :
  token_char c = true -> ApiMiddleware.is_space c = false.
Proof.
  unfold token_char, ApiMiddleware.is_space. cbv zeta.
  rewrite !andb_true_iff, !Nat.leb_le. intros ((H1 & H2) & _).
  rewrite !orb_false_iff. repeat split.
  - apply Nat.eqb_neq. lia.
  - apply andb_false_iff. right. apply Nat.leb_gt. lia.
  - apply Nat.eqb_neq. lia.
Qed.

Lemma first_of_split_token a tail :
  forallb token_char (list_ascii_of_string a) = true ->
  (tail = "" \/ exists rest, tail = String ","%char rest) ->
  ApiMiddleware.first_of_split (a ++ tail) = a.
Proof.
  induction a as [|c a IH]; cbn; intros Hall Htail.
  - destruct Htail as [-> | (rest & ->)]; cbn; reflexivity.
  - apply andb_true_iff in Hall. destruct Hall as (Hc & Hall).
    unfold token_char in Hc. cbv zeta in Hc.
    apply andb_true_iff in Hc. destruct Hc as (_ & Hcomma).
    apply negb_true_iff in Hcomma. rewrite Hcomma. f_equal. now apply IH.
Qed.

Lemma trim_start_token s :
  forallb token_char (list_ascii_of_string s) = true ->
  ApiMiddleware.trim_start s = s.
Proof.
  destruct s as [|c s]; cbn; [reflexivity|]. intros Hall.
  apply andb_true_iff in Hall. destruct Hall as (Hc & _).
  now rewrite (token_char_not_space _ Hc).
Qed.

Lemma reverse_involutive s : ApiMiddleware.reverse (ApiMiddleware.reverse s) = s.
Proof.
  unfold ApiMiddleware.reverse.
  now rewrite list_ascii_of_string_of_list_ascii, rev_involutive,
    string_of_list_ascii_of_string.
Qed.

Lemma reverse_token s :
  forallb token_char (list_ascii_of_string s) = true ->
  forallb token_char (list_ascii_of_string (ApiMiddleware.reverse s)) = true.
Proof.
  unfold ApiMiddleware.reverse. rewrite list_ascii_of_string_of_list_ascii.
  rewrite !forallb_forall. intros H c Hc. apply H. now apply in_rev.
Qed.

Lemma trim_token s :
  forallb token_char (list_ascii_of_string s) = true ->
  ApiMiddleware.trim s = s.
Proof.
  intros Hall. unfold ApiMiddleware.trim.
  rewrite (trim_start_token s Hall).
  rewrite (trim_start_token _ (reverse_token s Hall)).
  apply reverse_involutive.
Qed.

Lemma getClientIp_first_entry req a tail :
  plain_token a ->
  (tail = "" \/ exists rest, tail = String ","%char rest) ->
  ApiMiddleware.x_forwarded_for req = Some (a ++ tail)%string ->
  ApiMiddleware.getClientIp req = a.
Proof.
  intros (Hne & Hall) Htail Hxff.
  unfold ApiMiddleware.getClientIp. rewrite Hxff. cbn [option_map].
  rewrite (first_of_split_token a tail Hall Htail), (trim_token a Hall).
  unfold ApiMiddleware.or_else. now rewrite (eqb_empty_false _ Hne).
Qed.

(** A first entry made of blanks only, the no-break space among them, is
    trimmed to nothing, and the address is taken from [x-real-ip]. *)
Example getClientIp_blank_first_entry :
  ApiMiddleware.getClientIp
    (ApiMiddleware.mkRequest
       (Some (String (Ascii.ascii_of_nat 160) " ,10.0.0.1")) (Some "10.0.0.9")
       None (Rejected "not read"))
  = "10.0.0.9".
Proof. reflexivity. Qed.

(** X21. [getClientIp] takes the first entry of the [x-forwarded-for]
    header: when the header is a plain token (visible ASCII characters, no
    comma), alone or followed by a comma and anything else, the result is
    that token, whatever [x-real-ip] says. *)
Theorem getClientIp_takes_first_forwarded_entry :
  forall (req : ApiMiddleware.NextRequest) (a rest : string),
    plain_token a ->
    ApiMiddleware.x_forwarded_for req = Some a
    \/ ApiMiddleware.x_forwarded_for req = Some (a ++ "," ++ rest)%string ->
    ApiMiddleware.getClientIp req = a.
Proof.
  intros req a rest Htok [Hxff | Hxff].
  - apply (getClientIp_first_entry req a "" Htok); [now left|].
    rewrite Hxff. f_equal.
    clear. induction a as [|c a IH]; cbn; [reflexivity | now rewrite <- IH].
  - apply (getClientIp_first_entry req a ("," ++ rest)%string Htok);
      [right; now exists rest | exact Hxff].
Qed.

Lemma getClientIp_takes_first_forwarded_entry_witness :
  ApiMiddleware.getClientIp
    (ApiMiddleware.mkRequest (Some "203.0.113.7, 10.0.0.1, 10.0.0.2")
       (Some "10.0.0.2") None (Rejected "no body"))
  = "203.0.113.7".
Proof.
  apply (getClientIp_takes_first_forwarded_entry _ "203.0.113.7"
           " 10.0.0.1, 10.0.0.2").
  - split; [discriminate | reflexivity].
  - right. reflexivity.
Defined.

(** X22. [isLocalhost] is decided by the request's own headers: a request
    whose [x-forwarded-for] header begins with the entry 127.0.0.1 counts as
    local, whatever follows it and whatever [x-real-ip] says. *)
Theorem isLocalhost_follows_forwarded_header :
  forall (req : ApiMiddleware.NextRequest) (rest : string),
    ApiMiddleware.x_forwarded_for req = Some "127.0.0.1"
    \/ ApiMiddleware.x_forwarded_for req = Some ("127.0.0.1," ++ rest)%string ->
    isLocalhost req = true.
Proof.
  intros req rest Hxff. unfold isLocalhost.
  assert (Hip : ApiMiddleware.getClientIp req = "127.0.0.1").
  { assert (Htok : plain_token "127.0.0.1") by (split; [discriminate | reflexivity]).
    destruct Hxff as [Hxff | Hxff].
    - apply (getClientIp_first_entry req "127.0.0.1" "" Htok);
        [now left | exact Hxff].
    - apply (getClientIp_first_entry req "127.0.0.1" ("," ++ rest)%string Htok);
        [right; now exists rest | exact Hxff]. }
  rewrite Hip. reflexivity.
Qed.

Lemma isLocalhost_follows_forwarded_header_witness :
  isLocalhost
    (ApiMiddleware.mkRequest (Some "127.0.0.1, 198.51.100.23")
       (Some "198.51.100.23") (Some "curl/8.0") (Rejected "no body"))
  = true.
Proof.
  apply (isLocalhost_follows_forwarded_header _ " 198.51.100.23").
  right. reflexivity.
Defined.

(** X23. [getClientIp] and [getUserAgent] never return the empty string:
    a missing or empty header gives the next header in line or "unknown".
    With no [x-forwarded-for] the client IP is [x-real-ip] as it stands. *)
Theorem request_metadata_is_never_empty :
  forall req : ApiMiddleware.NextRequest,
    ApiMiddleware.getClientIp req <> ""
    /\ ApiMiddleware.getUserAgent req <> ""
    /\ (ApiMiddleware.x_forwarded_for req = None ->
        ApiMiddleware.getClientIp req
        = match ApiMiddleware.x_real_ip req with
          | Some "" | None => "unknown"
          | Some ip => ip
          end).
Proof.
  intros req.
  assert (Hor : forall a b, b <> "" -> ApiMiddleware.or_else a b <> "").
  { intros [s|] b Hb; cbn; [|exact Hb].
    destruct (String.eqb s "") eqn:E; [exact Hb | now apply String.eqb_neq]. }
  split; [|split].
  - unfold ApiMiddleware.getClientIp. apply Hor, Hor. discriminate.
  - unfold ApiMiddleware.getUserAgent. apply Hor. discriminate.
  - intros Hxff. unfold ApiMiddleware.getClientIp. rewrite Hxff. cbn.
    destruct (ApiMiddleware.x_real_ip req) as [[|c s]|]; reflexivity.
Qed.

(** ** The MFA routes *)

(** Every run of the verification route: it answers before the provider is
    asked for a challenge, and leaves both tables as they are. *)
Lemma verify_POST_run env services req body w :
  exists resp w',
    Mfa.verify_POST env services req body w = (Resolved resp, w')
    /\ In (Mfa.status resp) [400; 401; 500]
    /\ login_attempts w' = login_attempts w
    /\ security_events w' = security_events w.
Proof.
  unfold Mfa.verify_POST, Mfa.createClient, Mfa.auth_getUser, try_catch.
  unfold bind at 1. unfold await at 1.
  destruct body as [b|e].
  - destruct (negb (ApiMiddleware.truthy (Mfa.factorId b))
              || negb (ApiMiddleware.truthy (Mfa.code b)))%bool.
    + do 2 eexists. split; [reflexivity|]. cbn. intuition.
    + destruct (Mfa.createClient_error services);
        unfold bind, await, console_error, ret; cbn;
        do 2 eexists; (split; [reflexivity|]); cbn; intuition.
  - unfold bind, console_error, ret. cbn.
    do 2 eexists. split; [reflexivity|]. cbn. intuition.
Qed.

(** X24. A well-formed verification request is answered 401 Unauthorized,
    whoever sends it and whatever code it carries: the route asks for the
    user through a client it has just created, which holds no session.  The
    provider is asked for no challenge and no verification, and nothing is
    recorded. *)
Theorem verify_POST_well_formed_request_is_unauthorized :
  forall (env : Env) (services : Mfa.Services) (req : ApiMiddleware.NextRequest)
         (factorId code : string) (w : World),
    factorId <> "" -> code <> "" ->
    Mfa.createClient_error services = None ->
    Mfa.verify_POST env services req
      (Resolved (Mfa.mkVerifyBody (Some factorId) (Some code))) w
    = (Resolved unauthorized_response, w).
Proof.
  intros env services req factorId code w Hf Hc Hclient.
  unfold Mfa.verify_POST, Mfa.createClient, Mfa.auth_getUser, try_catch.
  unfold bind at 1. unfold await at 1.
  cbn [Mfa.factorId Mfa.code ApiMiddleware.truthy].
  rewrite (eqb_empty_false _ Hf), (eqb_empty_false _ Hc). cbn [negb orb].
  rewrite Hclient. reflexivity.
Qed.

Lemma verify_POST_well_formed_request_is_unauthorized_witness :
  Mfa.verify_POST healthy_env mfa_services mfa_request (mfa_body "123456")
    (mkWorld [] shared_trail [])
  = (Resolved unauthorized_response, mkWorld [] shared_trail []).
Proof.
  apply (verify_POST_well_formed_request_is_unauthorized healthy_env mfa_services
           mfa_request "factor-1" "123456" (mkWorld [] shared_trail [])).
  - discriminate.
  - discriminate.
  - reflexivity.
Defined.

(** The verdict of [detectSuspiciousActivity] depends on the event trail
    only. *)
Lemma detectSuspiciousActivity_reads_the_trail env subject ipAddress w1 w2 :
  security_events w1 = security_events w2 ->
  result_of (SecurityMonitoring.detectSuspiciousActivity env subject ipAddress) w1
  = result_of (SecurityMonitoring.detectSuspiciousActivity env subject ipAddress) w2.
Proof.
  intros Hse.
  unfold result_of, SecurityMonitoring.detectSuspiciousActivity, bind,
    select_security_events, request.
  destruct (store env SelectSecurityEvents); cbn; [|reflexivity ..].
  rewrite Hse.
  destruct (5 <=? _); cbn; [reflexivity|].
  rewrite Hse.
  destruct (3 <? _); reflexivity.
Qed.

(** X25. MFA verification requests never feed the suspicious-activity rules:
    whatever the request, the provider and the store do, the verdict of
    [detectSuspiciousActivity], for every subject and at any later time, is
    the one it was before the request, and no subject's count of
    LOGIN_FAILURE events moves. *)
Theorem verify_POST_never_feeds_the_rules :
  forall (env later : Env) (services : Mfa.Services)
         (req : ApiMiddleware.NextRequest) (body : Settled Mfa.VerifyBody)
         (subject ipAddress : string) (w : World),
    result_of (SecurityMonitoring.detectSuspiciousActivity later subject ipAddress)
      (world_after (Mfa.verify_POST env services req body) w)
    = result_of (SecurityMonitoring.detectSuspiciousActivity later subject ipAddress)
        w
    /\ login_failure_count
         (security_events (world_after (Mfa.verify_POST env services req body) w))
         subject (now later)
       = login_failure_count (security_events w) subject (now later).
Proof.
  intros env later services req body subject ipAddress w.
  destruct (verify_POST_run env services req body w)
    as (resp & w' & Hrun & _ & _ & Hse).
  unfold world_after. rewrite Hrun. cbn [snd]. split.
  - now apply detectSuspiciousActivity_reads_the_trail.
  - now rewrite Hse.
Qed.

(** X26. Whatever the request body, the provider and the store do, the MFA
    verification route answers (it never rejects) with one of the statuses
    400, 401, 500 and never 200, and leaves the attempts ledger and the
    event trail as they are. *)
Theorem verify_POST_always_answers :
  forall (env : Env) (services : Mfa.Services) (req : ApiMiddleware.NextRequest)
         (body : Settled Mfa.VerifyBody) (w : World),
    exists resp w',
      Mfa.verify_POST env services req body w = (Resolved resp, w')
      /\ In (Mfa.status resp) [400; 401; 500]
      /\ Mfa.status resp <> 200
      /\ login_attempts w' = login_attempts w
      /\ security_events w' = security_events w.
Proof.
  intros env services req body w.
  destruct (verify_POST_run env services req body w)
    as (resp & w' & Hrun & Hstatus & Hla & Hse).
  exists resp, w'. split; [exact Hrun|]. split; [exact Hstatus|].
  split; [|split; assumption].
  cbn in Hstatus. intros H200. rewrite H200 in Hstatus.
  intuition discriminate.
Qed.


(** ** The in-memory rate limiter *)

Lemma get_set_same key value m : RateLimit.get key (RateLimit.set key value m) = Some value.
Proof.
  induction m as [|[k v] m IH]; cbn.
  - now rewrite String.eqb_refl.
  - destruct (String.eqb k key) eqn:E; cbn; rewrite E; [reflexivity | exact IH].
Qed.

Lemma get_set_other key key' value m :
  key <> key' ->
  RateLimit.get key' (RateLimit.set key value m) = RateLimit.get key' m.
Proof.
  intros Hne. induction m as [|[k v] m IH]; cbn.
  - now rewrite (proj2 (String.eqb_neq key key') Hne).
  - destruct (String.eqb k key) eqn:E; cbn.
    + apply String.eqb_eq in E. subst k.
      now rewrite (proj2 (String.eqb_neq key key') Hne).
    + destruct (String.eqb k key'); [reflexivity | exact IH].
Qed.

Lemma keys_set key value m :
  forall k, In k (map fst (RateLimit.set key value m)) <-> k = key \/ In k (map fst m).
Proof.
  induction m as [|[k0 v0] m IH]; intros k; cbn.
  - intuition.
  - destruct (String.eqb k0 key) eqn:E; cbn.
    + apply String.eqb_eq in E. subst k0. intuition.
    + rewrite IH. intuition.
Qed.

Lemma well_keyed_set key value m :
  well_keyed m -> well_keyed (RateLimit.set key value m).
Proof.
  unfold well_keyed. induction m as [|[k v] m IH]; cbn; intros Hnd.
  - repeat constructor. intros [].
  - inversion Hnd as [|k' l Hnotin Hrest]; subst.
    destruct (String.eqb k key) eqn:E; cbn.
    + now constructor.
    + constructor; [|now apply IH].
      rewrite keys_set. intros [-> | Hin]; [|contradiction].
      now rewrite String.eqb_refl in E.
Qed.

Lemma get_not_key key m : ~ In key (map fst m) -> RateLimit.get key m = None.
Proof.
  induction m as [|[k v] m IH]; cbn; intros Hn; [reflexivity|].
  destruct (String.eqb k key) eqn:E.
  - apply String.eqb_eq in E. subst. exfalso. apply Hn. now left.
  - apply IH. intros Hin. apply Hn. now right.
Qed.

Lemma keys_delete key m :
  forall k, In k (map fst (RateLimit.delete key m)) -> In k (map fst m).
Proof.
  induction m as [|[k0 v0] m IH]; intros k; cbn; [tauto|].
  destruct (String.eqb k0 key); cbn; [now right|].
  intros [-> | Hin]; [now left | right; now apply IH].
Qed.

Lemma well_keyed_delete key m :
  well_keyed m -> well_keyed (RateLimit.delete key m).
Proof.
  unfold well_keyed. induction m as [|[k v] m IH]; cbn; intros Hnd; [constructor|].
  inversion Hnd as [|k' l Hnotin Hrest]; subst.
  destruct (String.eqb k key); cbn; [exact Hrest|].
  constructor; [|now apply IH].
  intros Hin. apply Hnotin. now apply (keys_delete key).
Qed.

Lemma get_delete_same key m :
  well_keyed m -> RateLimit.get key (RateLimit.delete key m) = None.
Proof.
  unfold well_keyed. induction m as [|[k v] m IH]; cbn; intros Hnd; [reflexivity|].
  inversion Hnd as [|k' l Hnotin Hrest]; subst.
  destruct (String.eqb k key) eqn:E; cbn.
  - apply String.eqb_eq in E. subst. now apply get_not_key.
  - rewrite E. now apply IH.
Qed.

Lemma get_delete_other key key' m :
  key <> key' ->
  RateLimit.get key' (RateLimit.delete key m) = RateLimit.get key' m.
Proof.
  intros Hne. induction m as [|[k v] m IH]; cbn; [reflexivity|].
  destruct (String.eqb k key) eqn:E; cbn.
  - apply String.eqb_eq in E. subst k.
    now rewrite (proj2 (String.eqb_neq key key') Hne).
  - destruct (String.eqb k key'); [reflexivity | exact IH].
Qed.

Lemma get_in key record m :
  well_keyed m -> In (key, record) m -> RateLimit.get key m = Some record.
Proof.
  unfold well_keyed. induction m as [|[k v] m IH]; cbn; intros Hnd Hin; [contradiction|].
  inversion Hnd as [|k' l Hnotin Hrest]; subst.
  destruct Hin as [Heq | Hin].
  - inversion Heq; subst. now rewrite String.eqb_refl.
  - destruct (String.eqb k key) eqn:E; [|now apply IH].
    apply String.eqb_eq in E. subst. exfalso. apply Hnotin.
    change key with (fst (key, record)). now apply in_map.
Qed.

Lemma no_expired_without_key t key m :
  ~ In key (map fst m) ->
  existsb (fun e : string * RateLimit.Entry =>
             String.eqb (fst e) key && (t >? RateLimit.resetAt (snd e))) m = false.
Proof.
  induction m as [|[k v] m IH]; cbn; intros Hn; [reflexivity|].
  rewrite IH by (intros Hin; apply Hn; now right).
  destruct (String.eqb k key) eqn:E; [|reflexivity].
  apply String.eqb_eq in E. subst. exfalso. apply Hn. now left.
Qed.

Lemma expired_in_map t key m :
  well_keyed m ->
  existsb (fun e : string * RateLimit.Entry =>
             String.eqb (fst e) key && (t >? RateLimit.resetAt (snd e))) m
  = match RateLimit.get key m with
    | Some record => t >? RateLimit.resetAt record
    | None => false
    end.
Proof.
  unfold well_keyed. induction m as [|[k v] m IH]; cbn; intros Hnd; [reflexivity|].
  inversion Hnd as [|k' l Hnotin Hrest]; subst.
  destruct (String.eqb k key) eqn:E; cbn.
  - apply String.eqb_eq in E. subst.
    rewrite (no_expired_without_key t key m Hnotin). apply orb_false_r.
  - now apply IH.
Qed.

Lemma cleanup_fold t key (entries : list (string * RateLimit.Entry)) :
  forall acc,
    well_keyed acc ->
    well_keyed
      (fold_left (fun acc entry =>
                    if t >? RateLimit.resetAt (snd entry)
                    then RateLimit.delete (fst entry) acc else acc) entries acc)
    /\ RateLimit.get key
         (fold_left (fun acc entry =>
                       if t >? RateLimit.resetAt (snd entry)
                       then RateLimit.delete (fst entry) acc else acc) entries acc)
       = if existsb (fun e : string * RateLimit.Entry =>
                       String.eqb (fst e) key && (t >? RateLimit.resetAt (snd e)))
                    entries
         then None else RateLimit.get key acc.
Proof.
  induction entries as [|[k v] entries IH]; intros acc Hwk; cbn.
  - now split.
  - destruct (t >? RateLimit.resetAt v) eqn:Hexp.
    + destruct (IH (RateLimit.delete k acc) (well_keyed_delete k acc Hwk))
        as (Hwk' & Hget).
      split; [exact Hwk'|]. rewrite Hget.
      destruct (String.eqb k key) eqn:E; cbn.
      * apply String.eqb_eq in E. subst.
        rewrite (get_delete_same key acc Hwk).
        now destruct (existsb _ entries).
      * apply String.eqb_neq in E. now rewrite (get_delete_other k key acc E).
    + destruct (IH acc Hwk) as (Hwk' & Hget).
      split; [exact Hwk'|]. rewrite Hget. now rewrite andb_false_r.
Qed.

(** The cleanup deletes exactly the entries whose window is over. *)
Lemma cleanup_keeps_live_entries t m :
  well_keyed m ->
  well_keyed (RateLimit.cleanup t m)
  /\ forall key, RateLimit.get key (RateLimit.cleanup t m) = live_entry t m key.
Proof.
  intros Hwk. unfold RateLimit.cleanup.
  split; [exact (proj1 (cleanup_fold t "" m m Hwk))|].
  intros key. rewrite (proj2 (cleanup_fold t key m m Hwk)).
  rewrite (expired_in_map t key m Hwk). unfold live_entry.
  destruct (RateLimit.get key m) as [record|]; [|reflexivity].
  now destruct (t >? RateLimit.resetAt record).
Qed.

Lemma checkRateLimit_by_live_entry t identifier maxRequests windowMs m :
  RateLimit.checkRateLimit t identifier maxRequests windowMs m
  = match live_entry t m identifier with
    | None =>
        (RateLimit.mkDecision true (maxRequests - 1),
         RateLimit.set identifier (RateLimit.mkEntry 1 (t + windowMs)) m)
    | Some record =>
        if RateLimit.count record >=? maxRequests
        then (RateLimit.mkDecision false 0, m)
        else (RateLimit.mkDecision true (maxRequests - (RateLimit.count record + 1)),
              RateLimit.set identifier
                (RateLimit.mkEntry (RateLimit.count record + 1)
                                   (RateLimit.resetAt record)) m)
    end.
Proof.
  unfold RateLimit.checkRateLimit, live_entry.
  destruct (RateLimit.get identifier m) as [record|]; [|reflexivity].
  destruct (t >? RateLimit.resetAt record); reflexivity.
Qed.

Lemma same_live_entries_set t key value m1 m2 :
  same_live_entries t m1 m2 ->
  same_live_entries t (RateLimit.set key value m1) (RateLimit.set key value m2).
Proof.
  intros Hsame k t' Hle. unfold live_entry.
  destruct (String.eqb key k) eqn:E.
  - apply String.eqb_eq in E. subst. now rewrite !get_set_same.
  - apply String.eqb_neq in E. rewrite !get_set_other by exact E.
    exact (Hsame k t' Hle).
Qed.

Lemma checkRateLimit_same_live t0' t identifier maxRequests windowMs m1 m2 :
  same_live_entries t0' m1 m2 ->
  t0' <= t ->
  fst (RateLimit.checkRateLimit t identifier maxRequests windowMs m1)
  = fst (RateLimit.checkRateLimit t identifier maxRequests windowMs m2)
  /\ same_live_entries t0'
       (snd (RateLimit.checkRateLimit t identifier maxRequests windowMs m1))
       (snd (RateLimit.checkRateLimit t identifier maxRequests windowMs m2)).
Proof.
  intros Hsame Hle. rewrite !checkRateLimit_by_live_entry.
  rewrite (Hsame identifier t Hle).
  destruct (live_entry t m2 identifier) as [record|]; cbn.
  - destruct (RateLimit.count record >=? maxRequests); cbn.
    + now split.
    + split; [reflexivity | now apply same_live_entries_set].
  - split; [reflexivity | now apply same_live_entries_set].
Qed.

Lemma cleanup_same_live t m :
  well_keyed m -> same_live_entries t (RateLimit.cleanup t m) m.
Proof.
  intros Hwk key t' Hle. unfold live_entry at 1.
  rewrite (proj2 (cleanup_keeps_live_entries t m Hwk) key). unfold live_entry.
  destruct (RateLimit.get key m) as [record|]; [|reflexivity].
  destruct (t >? RateLimit.resetAt record) eqn:E1;
    destruct (t' >? RateLimit.resetAt record) eqn:E2; try reflexivity.
  apply Z.gtb_lt in E1.
  assert (H : ~ (t' > RateLimit.resetAt record)) by (rewrite Z.gtb_ltb in E2; apply Z.ltb_ge in E2; lia).
  lia.
Qed.

Lemma serve_all_same_live t maxRequests windowMs calls :
  forall m1 m2,
    same_live_entries t m1 m2 ->
    Forall (fun call => t <= fst call) calls ->
    fst (serve_all maxRequests windowMs calls m1)
    = fst (serve_all maxRequests windowMs calls m2).
Proof.
  induction calls as [|[t' identifier] calls IH]; intros m1 m2 Hsame Hall;
    [reflexivity|].
  inversion Hall as [|c l Hle Hrest]; subst. cbn in Hle. cbn [serve_all].
  destruct (checkRateLimit_same_live t t' identifier maxRequests windowMs m1 m2
              Hsame Hle) as (Hd & Hsame').
  destruct (RateLimit.checkRateLimit t' identifier maxRequests windowMs m1)
    as [d1 m1'].
  destruct (RateLimit.checkRateLimit t' identifier maxRequests windowMs m2)
    as [d2 m2'].
  cbn in Hd, Hsame'. subst d2.
  specialize (IH m1' m2' Hsame' Hrest).
  destruct (serve_all maxRequests windowMs calls m1') as [ds1 m1''].
  destruct (serve_all maxRequests windowMs calls m2') as [ds2 m2''].
  cbn in *. now rewrite IH.
Qed.

(** X28. The periodic cleanup never changes a decision: for a map with
    unique keys, any sequence of later [checkRateLimit] calls, by any
    identifiers, gets the same decisions (allowed and remaining) whether or
    not the cleanup has run first, since it deletes exactly the entries whose
    window is over. *)
Theorem cleanup_never_changes_a_decision :
  forall (t : Z) (maxRequests windowMs : Z) (calls : list (Z * string))
         (m : RateLimit.RateLimitMap),
    well_keyed m ->
    Forall (fun call => t <= fst call) calls ->
    fst (serve_all maxRequests windowMs calls (RateLimit.cleanup t m))
    = fst (serve_all maxRequests windowMs calls m)
    /\ forall key, RateLimit.get key (RateLimit.cleanup t m) = live_entry t m key.
Proof.
  intros t maxRequests windowMs calls m Hwk Hall. split.
  - apply (serve_all_same_live t); [now apply cleanup_same_live | exact Hall].
  - apply cleanup_keeps_live_entries, Hwk.
Qed.

Lemma cleanup_never_changes_a_decision_witness :
  RateLimit.cleanup t0 two_clients
  = [("10.0.0.2", RateLimit.mkEntry 2 (t0 + 30000))]
  /\ fst (serve_all 3 60000
            [(t0 + 1, "10.0.0.1"); (t0 + 2, "10.0.0.2"); (t0 + 3, "10.0.0.2")]
            (RateLimit.cleanup t0 two_clients))
     = fst (serve_all 3 60000
              [(t0 + 1, "10.0.0.1"); (t0 + 2, "10.0.0.2"); (t0 + 3, "10.0.0.2")]
              two_clients).
Proof.
  split; [vm_compute; reflexivity|].
  apply (proj1 (cleanup_never_changes_a_decision t0 3 60000
                  [(t0 + 1, "10.0.0.1"); (t0 + 2, "10.0.0.2"); (t0 + 3, "10.0.0.2")]
                  two_clients
                  ltac:(unfold well_keyed; cbn; repeat constructor; cbn;
                        intuition discriminate)
                  ltac:(repeat constructor; cbn; unfold t0; lia))).
Defined.




(** X30. A call of [checkRateLimit] touches the entry of its own identifier
    only: every other identifier keeps its entry, and the keys stay unique.
    A denied call leaves the whole map as it was and reports 0 remaining. *)
Theorem checkRateLimit_touches_only_its_identifier :
  forall (t : Z) (identifier : string) (maxRequests windowMs : Z)
         (m : RateLimit.RateLimitMap),
    let result := RateLimit.checkRateLimit t identifier maxRequests windowMs m in
    (forall key, key <> identifier ->
                 RateLimit.get key (snd result) = RateLimit.get key m)
    /\ (RateLimit.allowed (fst result) = false ->
        snd result = m /\ RateLimit.remaining (fst result) = 0)
    /\ (well_keyed m -> well_keyed (snd result)).
Proof.
  intros t identifier maxRequests windowMs m result. subst result.
  rewrite checkRateLimit_by_live_entry.
  destruct (live_entry t m identifier) as [record|];
    [destruct (RateLimit.count record >=? maxRequests)|]; cbn;
    (split; [|split]); try (intros; discriminate); try (intros; now split);
    try (intros key Hne; apply get_set_other; congruence);
    try (apply well_keyed_set); auto.
Qed.
